(** * The Manufacturer section spider: a shallow embedding

    Source: [themanufacturer/themanufacturer/spiders/tm_sections.py].

    Python [str] values are sequences of Unicode code points; they are
    modelled as lists of code points so that [str.strip], [sorted] and the
    regular expressions of the source keep their meaning on every input. *)

From Stdlib Require Import Ascii String.
From Stdlib Require Import ZArith NArith List Bool Lia.
From Stdlib Require Import Sorting.Sorted.
Import ListNotations.

Set Implicit Arguments.

(** ** Python strings *)

Definition char := N.
Definition str := list char.

(** An ASCII literal of the source as a [str]. *)
Definition lit (s : string) : str := map N_of_ascii (list_ascii_of_string s).

(** One ASCII character of the source. *)
Definition ch (a : ascii) : char := N_of_ascii a.
Arguments ch a%_char.
Arguments lit s%_string.

Module PyStr.

Definition TAB : char := 9%N.
Definition NL : char := 10%N.
Definition SP : char := 32%N.

Fixpoint eqb (a b : str) : bool :=
  match a, b with
  | [], [] => true
  | x :: a', y :: b' => N.eqb x y && eqb a' b'
  | _, _ => false
  end.

(** [bool(s)]: a string is truthy when it is not empty. *)
Definition truthy (s : str) : bool :=
  match s with [] => false | _ :: _ => true end.

(** [s.startswith(p)], returning what follows the prefix. *)
Fixpoint strip_prefix (p s : str) : option str :=
  match p, s with
  | [], _ => Some s
  | x :: p', y :: s' => if N.eqb x y then strip_prefix p' s' else None
  | _ :: _, [] => None
  end.

Definition startswith (s p : str) : bool :=
  match strip_prefix p s with Some _ => true | None => false end.

Definition endswith (s p : str) : bool := startswith (rev s) (rev p).

(** [p in s] for strings: [p] occurs as a substring of [s]. *)
Fixpoint contains (p s : str) : bool :=
  startswith s p || match s with [] => false | _ :: s' => contains p s' end.

(** [str.isspace] on one code point: the characters Python treats as
    whitespace (bidirectional type WS, B or S, or category Zs). *)
Definition is_space (c : char) : bool :=
  (((9 <=? c) && (c <=? 13)) || ((28 <=? c) && (c <=? 32))
   || (c =? 133) || (c =? 160) || (c =? 5760)
   || ((8192 <=? c) && (c <=? 8202))
   || (c =? 8232) || (c =? 8233) || (c =? 8239) || (c =? 8287)
   || (c =? 12288))%N.

Fixpoint lstrip (s : str) : str :=
  match s with
  | c :: s' => if is_space c then lstrip s' else s
  | [] => []
  end.

Definition rstrip (s : str) : str := rev (lstrip (rev s)).

(** [s.strip()] *)
Definition strip (s : str) : str := rstrip (lstrip s).

(** [sep.join(l)] *)
Fixpoint join (sep : str) (l : list str) : str :=
  match l with
  | [] => []
  | [x] => x
  | x :: l' => x ++ sep ++ join sep l'
  end.

(** Comparison of two strings as Python orders them: code point by code
    point, a proper prefix first. *)
Fixpoint compare (a b : str) : comparison :=
  match a, b with
  | [], [] => Eq
  | [], _ :: _ => Lt
  | _ :: _, [] => Gt
  | x :: a', y :: b' =>
    match N.compare x y with
    | Eq => compare a' b'
    | o => o
    end
  end.

Definition ltb (a b : str) : bool :=
  match compare a b with Lt => true | _ => false end.

Definition lt (a b : str) : Prop := compare a b = Lt.

End PyStr.

(** ** Scanning substitution

    [re.sub] and [str.replace] scan the subject from left to right; at each
    position either a match of [n >= 1] characters starts there, the
    replacement is emitted and the scan resumes after the match, or the
    character is copied.  A [matcher] tells, for the text that starts at
    the current position, how long the match is and what replaces it.
    None of the patterns of the source matches the empty string or looks
    behind the current position. *)

Module Scan.

Definition matcher := str -> option (nat * str).

Fixpoint sub_skip (m : matcher) (skip : nat) (s : str) : str :=
  match s with
  | [] => []
  | c :: r =>
    match skip with
    | S k => sub_skip m k r
    | O =>
      match m s with
      | Some (S k, rep) => rep ++ sub_skip m k r
      | _ => c :: sub_skip m 0 r
      end
    end
  end.

Definition sub (m : matcher) (s : str) : str := sub_skip m 0 s.

(** Length of the longest prefix of [s] whose characters satisfy [p]. *)
Fixpoint run (p : char -> bool) (s : str) : nat :=
  match s with
  | c :: r => if p c then S (run p r) else 0
  | [] => 0
  end.

(** [s.replace(old, new)] for a non-empty [old]. *)
Definition replace_matcher (old new : str) : matcher :=
  fun s => if PyStr.startswith s old then Some (length old, new) else None.

Definition replace (old new : str) (s : str) : str :=
  sub (replace_matcher old new) s.

(** [s] is stable for [m] when, at every position of [s], [m] finds no
    match or one that rewrites a character into itself. *)
Fixpoint stable (m : matcher) (s : str) : Prop :=
  match s with
  | [] => True
  | c :: r => (m s = None \/ m s = Some (1, [c])) /\ stable m r
  end.

End Scan.

(** ** [w3lib.html]

    [replace_escape_chars(text, which_ones, replace_by)] applies
    [text.replace(ec, replace_by)] for each [ec] of [which_ones] in turn, and
    its [replace_by] defaults to the empty string.  [remove_tags] removes
    the matches of a pattern that differs between the versions of the
    library; the functions that call it take it as a parameter. *)

Module W3lib.

Definition replace_escape_chars
           (text : str) (which_ones : list str) (replace_by : str) : str :=
  fold_left (fun t ec => Scan.replace ec replace_by t) which_ones text.

End W3lib.

(** ** Text helpers of the spider *)

Definition NBSP : str := lit "&nbsp;".

(** The pattern [[ \t]+], replaced by one space. *)
Definition hspace (c : char) : bool :=
  (N.eqb c PyStr.SP || N.eqb c PyStr.TAB).

Definition hspace_matcher : Scan.matcher :=
  fun s => match Scan.run hspace s with
           | O => None
           | n => Some (n, [PyStr.SP])
           end.

(** The pattern [\n{3,}], replaced by two newlines. *)
Definition newlines_matcher : Scan.matcher :=
  fun s => let n := Scan.run (N.eqb PyStr.NL) s in
           if 3 <=? n then Some (n, [PyStr.NL; PyStr.NL]) else None.

Section PlainText.

(** [w3lib.html.remove_tags], called with the text alone. *)
Variable remove_tags : str -> str.

Definition to_plain_text (html : str) : str :=
  if negb (PyStr.truthy html) then []
  else
    let text :=
      PyStr.strip (W3lib.replace_escape_chars (remove_tags html) [NBSP] [])
    in
    let text := Scan.sub hspace_matcher text in
    let text := Scan.sub newlines_matcher text in
    text.

End PlainText.

(** ** Calendar dates ([datetime.date]) *)

Record date := mkdate { year : Z; month : Z; day : Z }.

Module Date.
Local Open Scope Z_scope.

Definition is_leap (y : Z) : bool :=
  (y mod 4 =? 0) && (negb (y mod 100 =? 0) || (y mod 400 =? 0)).

Definition days_in_month (y m : Z) : Z :=
  if m =? 2 then (if is_leap y then 29 else 28)
  else if (m =? 4) || (m =? 6) || (m =? 9) || (m =? 11) then 30
  else 31.

(** [dt.date(y, m, d)]; [None] stands for the [ValueError] of a date that
    does not exist. *)
Definition new (y m d : Z) : option date :=
  if (1 <=? y) && (y <=? 9999) && (1 <=? m) && (m <=? 12)
     && (1 <=? d) && (d <=? days_in_month y m)
  then Some (mkdate y m d) else None.

(** [a < b] on dates. *)
Definition ltb (a b : date) : bool :=
  (year a <? year b)
  || ((year a =? year b)
      && ((month a <? month b)
          || ((month a =? month b) && (day a <? day b)))).

Definition digit (n : Z) : char := Z.to_N (48 + n mod 10).

Definition pad2 (n : Z) : str := [digit (n / 10); digit n].

Definition pad4 (n : Z) : str :=
  [digit (n / 1000); digit (n / 100); digit (n / 10); digit n].

(** [d.isoformat()]: YYYY-MM-DD. *)
Definition isoformat (d : date) : str :=
  pad4 (year d) ++ lit "-" ++ pad2 (month d) ++ lit "-" ++ pad2 (day d).

End Date.

(** ** Case-insensitive literals

    A lower-case ASCII letter [p] of a pattern compiled with IGNORECASE
    matches itself, its upper-case form and the characters whose simple
    lower-case mapping is [p] or that the engine lists as equivalent:
    U+017F for s, U+0130 and U+0131 for i, U+212A for k. *)

Definition ci_char (p c : char) : bool :=
  ((c =? p) || (c =? p - 32)
   || ((p =? ch "s") && (c =? 383))
   || ((p =? ch "i") && ((c =? 304) || (c =? 305)))
   || ((p =? ch "k") && (c =? 8490)))%N.

(** A literal word under IGNORECASE at the head of [s]: the matched text and
    what follows it. *)
Fixpoint ci_prefix (p s : str) : option (str * str) :=
  match p, s with
  | [], _ => Some ([], s)
  | x :: p', c :: s' =>
    if ci_char x c then
      match ci_prefix p' s' with
      | Some (m, rest) => Some (c :: m, rest)
      | None => None
      end
    else None
  | _ :: _, [] => None
  end.

Fixpoint first_some {A B : Type} (f : A -> option B) (l : list A) : option B :=
  match l with
  | [] => None
  | a :: l' => match f a with Some b => Some b | None => first_some f l' end
  end.

Section UnicodeDigits.

(** [decimal c] is the value of [c] when it is a Unicode decimal digit
    (category Nd), the class the pattern [\d] matches on a [str] and that
    [int] converts.  The table belongs to the interpreter's Unicode
    database and is a parameter here. *)
Variable decimal : char -> option N.

Definition is_decimal (c : char) : bool :=
  match decimal c with Some _ => true | None => false end.

(** [int(s)] for a string of decimal digits. *)
Fixpoint int_digits (acc : Z) (s : str) : option Z :=
  match s with
  | [] => Some acc
  | c :: r =>
    match decimal c with
    | Some v => int_digits (10 * acc + Z.of_N v) r
    | None => None
    end
  end.

(** The alternatives [(st|nd|rd|th)] under IGNORECASE. *)
Definition ordinal_suffix (s : str) : bool :=
  match s with
  | a :: b :: _ =>
    (ci_char (ch "s") a && ci_char (ch "t") b)
    || (ci_char (ch "n") a && ci_char (ch "d") b)
    || (ci_char (ch "r") a && ci_char (ch "d") b)
    || (ci_char (ch "t") a && ci_char (ch "h") b)
  | _ => false
  end.

(** The pattern [(\d{1,2})(st|nd|rd|th)], replaced by its first group:
    two digits are tried before one. *)
Definition ordinal_matcher : Scan.matcher :=
  fun s =>
    match s with
    | d1 :: rest =>
      if is_decimal d1 then
        match rest with
        | d2 :: r =>
          if is_decimal d2 && ordinal_suffix r then Some (4, [d1; d2])
          else if ordinal_suffix rest then Some (3, [d1])
          else None
        | [] => None
        end
      else None
    | [] => None
    end.

Definition strip_ordinals (s : str) : str := Scan.sub ordinal_matcher s.

End UnicodeDigits.

(** ** [datetime.strptime] on the four formats of the spider

    [_strptime] turns a format into a regular expression compiled with
    IGNORECASE, matches it at the start of the data, refuses data that the
    match does not consume entirely, converts the groups and builds the
    date.  Every failure is a [ValueError], modelled by [None]. *)

Module Strptime.

Inductive directive := Dir_d | Dir_b | Dir_B | Dir_Y | Dir_space.

(** The named groups of a match. *)
Record found := mkfound {
  grp_d : option str; grp_b : option str;
  grp_B : option str; grp_Y : option str }.

Definition no_group : found := mkfound None None None None.

(** English month names, lower-cased, as [LocaleTime] keeps them. *)
Definition a_month : list str :=
  [lit "jan"; lit "feb"; lit "mar"; lit "apr"; lit "may"; lit "jun";
   lit "jul"; lit "aug"; lit "sep"; lit "oct"; lit "nov"; lit "dec"].

Definition f_month : list str :=
  [lit "january"; lit "february"; lit "march"; lit "april"; lit "may";
   lit "june"; lit "july"; lit "august"; lit "september"; lit "october";
   lit "november"; lit "december"].

(** [sorted(names, key=len, reverse=True)]: the order of the alternatives
    in the pattern of a month directive (the sort is stable). *)
Fixpoint insert_len (x : str) (l : list str) : list str :=
  match l with
  | [] => [x]
  | y :: l' => if length x <? length y then y :: insert_len x l' else x :: l
  end.

Definition sort_len_desc (l : list str) : list str :=
  fold_right insert_len [] l.

Definition in_range (lo hi c : N) : bool := ((lo <=? c) && (c <=? hi))%N.

(** [str.lower] on the characters a month pattern can match. *)
Definition lower_char (c : char) : str :=
  if in_range 65 90 c then [(c + 32)%N]
  else if (c =? 304)%N then [105%N; 775%N]
  else [c].

Definition lower (s : str) : str := flat_map lower_char s.

(** [names.index(x)], counted from 1 as the month lists are. *)
Fixpoint index_from (n : Z) (names : list str) (x : str) : option Z :=
  match names with
  | [] => None
  | y :: r => if PyStr.eqb y x then Some n else index_from (n + 1) r x
  end.

(** [\s+], greedy: the longest run first. *)
Fixpoint drop_down (n : nat) (s : str) : list str :=
  match n with
  | O => []
  | S k => skipn n s :: drop_down k s
  end.

Section WithDigits.

Variable decimal : char -> option N.

(** [3[0-1]|[1-2]\d|0[1-9]|[1-9]| [1-9]], the alternatives in order. *)
Definition day_candidates (s : str) : list (str * str) :=
  match s with
  | c1 :: r1 =>
    (match r1 with
     | c2 :: r2 =>
       (if N.eqb c1 (ch "3") && in_range (ch "0") (ch "1") c2
        then [([c1; c2], r2)] else [])
       ++ (if in_range (ch "1") (ch "2") c1 && is_decimal decimal c2
           then [([c1; c2], r2)] else [])
       ++ (if N.eqb c1 (ch "0") && in_range (ch "1") (ch "9") c2
           then [([c1; c2], r2)] else [])
     | [] => []
     end)
    ++ (if in_range (ch "1") (ch "9") c1 then [([c1], r1)] else [])
    ++ (match r1 with
        | c2 :: r2 =>
          if N.eqb c1 PyStr.SP && in_range (ch "1") (ch "9") c2
          then [([c1; c2], r2)] else []
        | [] => []
        end)
  | [] => []
  end.

Definition month_candidates (names : list str) (s : str)
  : list (str * str) :=
  flat_map (fun name => match ci_prefix name s with
                        | Some m => [m]
                        | None => []
                        end)
           (sort_len_desc names).

(** [\d\d\d\d] *)
Definition year_candidates (s : str) : list (str * str) :=
  match s with
  | a :: b :: c :: d :: r =>
    if is_decimal decimal a && is_decimal decimal b
       && is_decimal decimal c && is_decimal decimal d
    then [([a; b; c; d], r)] else []
  | _ => []
  end.

Definition candidates (d : directive) (g : found) (s : str)
  : list (found * str) :=
  match d with
  | Dir_d =>
    map (fun '(t, r) => (mkfound (Some t) (grp_b g) (grp_B g) (grp_Y g), r))
        (day_candidates s)
  | Dir_b =>
    map (fun '(t, r) => (mkfound (grp_d g) (Some t) (grp_B g) (grp_Y g), r))
        (month_candidates a_month s)
  | Dir_B =>
    map (fun '(t, r) => (mkfound (grp_d g) (grp_b g) (Some t) (grp_Y g), r))
        (month_candidates f_month s)
  | Dir_Y =>
    map (fun '(t, r) => (mkfound (grp_d g) (grp_b g) (grp_B g) (Some t), r))
        (year_candidates s)
  | Dir_space =>
    map (fun r => (g, r)) (drop_down (Scan.run PyStr.is_space s) s)
  end.

(** The first match of the pattern at the start of [s], found by
    backtracking over the alternatives in their order. *)
Fixpoint regex_match (fmt : list directive) (g : found) (s : str)
  : option (found * str) :=
  match fmt with
  | [] => Some (g, s)
  | d :: fmt' =>
    first_some (fun '(g', r) => regex_match fmt' g' r) (candidates d g s)
  end.

(** [int(t)] on the text of a digit group (a day may carry a leading
    space, which [int] ignores). *)
Definition int_group (t : str) : option Z :=
  match PyStr.strip t with
  | [] => None
  | ds => int_digits decimal 0 ds
  end.

Definition month_of (g : found) : option Z :=
  match grp_B g, grp_b g with
  | Some t, _ => index_from 1 f_month (lower t)
  | None, Some t => index_from 1 a_month (lower t)
  | None, None => Some 1%Z
  end.

Definition convert (g : found) : option date :=
  match (match grp_Y g with Some t => int_group t | None => Some 1900%Z end),
        month_of g,
        (match grp_d g with Some t => int_group t | None => Some 1%Z end)
  with
  | Some y, Some m, Some d => Date.new y m d
  | _, _, _ => None
  end.

(** [dt.datetime.strptime(s, fmt).date()] *)
Definition strptime_date (s : str) (fmt : list directive) : option date :=
  match regex_match fmt no_group s with
  | Some (g, []) => convert g
  | Some (_, _ :: _) => None
  | None => None
  end.

End WithDigits.

End Strptime.

Section DateParser.

Variable decimal : char -> option N.

Import Strptime.

(** ["%d %b %Y"], ["%d %B %Y"], ["%b %d %Y"], ["%B %d %Y"] *)
Definition fmts : list (list directive) :=
  [ [Dir_d; Dir_space; Dir_b; Dir_space; Dir_Y];
    [Dir_d; Dir_space; Dir_B; Dir_space; Dir_Y];
    [Dir_b; Dir_space; Dir_d; Dir_space; Dir_Y];
    [Dir_B; Dir_space; Dir_d; Dir_space; Dir_Y] ].

Definition parse_date (date_str : str) : option date :=
  if negb (PyStr.truthy date_str) then None
  else
    let s := Scan.replace (lit ",") []
               (strip_ordinals decimal (PyStr.strip date_str)) in
    first_some (strptime_date decimal s) fmts.

End DateParser.

(** The decimal digits of ASCII, the part of the digit table that dates
    written in ASCII rely on. *)
Definition ascii_decimal (c : char) : option N :=
  if ((48 <=? c) && (c <=? 57))%N then Some (c - 48)%N else None.

Definition agrees_on_ascii (decimal : char -> option N) : Prop :=
  forall c, (c < 128)%N -> decimal c = ascii_decimal c.

(** ** The seen-URL store

    [SeenStore] keeps one SQLite table [seen(url TEXT PRIMARY KEY,
    first_seen TEXT)] in a file.  A connection sees the rows of the file
    plus its own writes; [commit] makes the writes part of the file, which
    is all a later process finds. *)

Module SeenStore.

Definition timestamp := str.
Definition row := (str * timestamp)%type.
Definition table := list row.

Record t := mk { file : option table; view : table }.

Definition has_row (rows : table) (url : str) : bool :=
  existsb (fun r => PyStr.eqb (fst r) url) rows.

(** [sqlite3.connect(path)] followed by [CREATE TABLE IF NOT EXISTS seen
    (...)]: a file that is new, or has no table yet, reads as the empty
    table. *)
Definition connect (f : option table) : t :=
  mk f (match f with Some rows => rows | None => [] end).

(** [conn.commit()] *)
Definition commit (s : t) : t := mk (Some (view s)) (view s).

(** [INSERT OR IGNORE INTO seen(url, first_seen) VALUES(?, ?)]: the
    primary key makes the insert of a known URL a no-op. *)
Definition insert_or_ignore (s : t) (url : str) (ts : timestamp) : t :=
  if has_row (view s) url then s
  else mk (file s) (view s ++ [(url, ts)]).

(** [SeenStore(path)], from what the file holds. *)
Definition init (f : option table) : t := commit (connect f).

(** [SELECT 1 FROM seen WHERE url = ? LIMIT 1] *)
Definition has (s : t) (url : str) : bool := has_row (view s) url.

(** [add(url)]; [now] is the reading of [utcnow()]. *)
Definition add (s : t) (url : str) (now : timestamp) : t :=
  commit (insert_or_ignore s url now).

(** A fresh process opening the same file. *)
Definition reopen (s : t) : t := init (file s).

(** The [first_seen] column of the row of [url]. *)
Definition first_seen (s : t) (url : str) : option timestamp :=
  option_map snd (List.find (fun r => PyStr.eqb (fst r) url) (view s)).

(** Number of rows whose key is [url]. *)
Definition entries (s : t) (url : str) : nat :=
  length (filter (fun r => PyStr.eqb (fst r) url) (view s)).

(** What happens to a store over time. *)
Inductive op := Add (url : str) (now : timestamp) | Restart.

Definition step (s : t) (o : op) : t :=
  match o with
  | Add url now => add s url now
  | Restart => reopen s
  end.

(** The store after a history that starts with no file. *)
Definition after (history : list op) : t := fold_left step history (init None).

Definition added (history : list op) : list str :=
  flat_map (fun o => match o with Add u _ => [u] | Restart => [] end) history.

(** What every store built by the spider satisfies: all writes are in the
    file, and the key column has no duplicate. *)
Definition committed (s : t) : Prop :=
  file s = Some (view s) /\ NoDup (map fst (view s)).

End SeenStore.

(** ** Exceptions

    The library calls of the spider that can raise and are not guarded by
    a [try] raise [ValueError]; [Raises] stands for the call that does not
    return. *)

Inductive exn := ValueError.

Inductive result (A : Type) :=
| Returns (a : A)
| Raises (e : exn).
Arguments Returns {A} a.
Arguments Raises {A} e.

(** A comprehension or loop over [l] that calls [f] on each element: it
    returns the values in order, or raises with the first call that
    does. *)
Fixpoint traverse {A B : Type} (f : A -> result B) (l : list A)
  : result (list B) :=
  match l with
  | [] => Returns []
  | a :: r =>
    match f a with
    | Raises e => Raises e
    | Returns b =>
      match traverse f r with
      | Raises e => Raises e
      | Returns bs => Returns (b :: bs)
      end
    end
  end.

(** ** Link resolver

    [urllib.parse.urljoin] (it raises on a malformed URL), the [netloc] of
    [urllib.parse.urlparse] ([None] when it raises, which [is_internal]
    catches) and [str.lower] are the library's. *)

Section Links.

Variable urljoin : str -> str -> result str.
Variable netloc : str -> option str.
Variable str_lower : str -> str.

Definition TM_DOMAINS : list str :=
  [lit "themanufacturer.com"; lit "www.themanufacturer.com"].

(** The value is [None] for an empty [href]; the call raises when
    [urljoin] does. *)
Definition absolutize (base_url href : str) : result (option str) :=
  if negb (PyStr.truthy href) then Returns None
  else match urljoin base_url href with
       | Returns u => Returns (Some u)
       | Raises e => Raises e
       end.

Definition is_internal (url : str) : bool :=
  match netloc url with
  | Some n => existsb (fun d => PyStr.endswith (str_lower n) d) TM_DOMAINS
  | None => false
  end.

(** [[u for u in l if not (u in seen_u or seen_u.add(u))]] *)
Fixpoint dedup_seen (seen_u : list str) (l : list str) : list str :=
  match l with
  | [] => []
  | u :: r =>
    if existsb (PyStr.eqb u) seen_u then dedup_seen seen_u r
    else u :: dedup_seen (u :: seen_u) r
  end.

(** The loop that collects the internal links of the hrefs of the body;
    it ends with the exception of the first href that [absolutize] raises
    on. *)
Fixpoint collect_internal (url : str) (hrefs : list str)
  : result (list str) :=
  match hrefs with
  | [] => Returns []
  | a :: r =>
    match absolutize url a with
    | Raises e => Raises e
    | Returns u =>
      match collect_internal url r with
      | Raises e => Raises e
      | Returns internal_links =>
        Returns (match u with
                 | Some u =>
                   if PyStr.truthy u && is_internal u
                   then u :: internal_links else internal_links
                 | None => internal_links
                 end)
      end
    end
  end.

End Links.

(** ** Responses, requests and the spider's effects *)

(** An element selected by [response.css(sel)]: its serialisation ([get])
    and the results of a further query inside it. *)
Record Node := mkNode { node_get : str; node_css : str -> list str }.

(** A downloaded page as the callbacks see it, for a response that is
    text (the selectors of a response that is not raise): the selector
    queries are answered by the page, [meta] carries what the request was
    given, [resp_base_url] is the base that [response.urljoin] resolves
    against and [resp_encoding] the encoding of the page. *)
Record Response := mkResponse {
  resp_url : str;
  resp_base_url : str;
  resp_encoding : str;
  meta_section_url : option str;
  meta_article_count : option Z;
  resp_getall : str -> list str;
  resp_nodes : str -> list Node }.

Inductive callback := parse_section_cb | parse_article_cb.

Record Request := mkRequest {
  req_url : str;
  req_callback : callback;
  req_section_url : option str;
  req_article_count : Z }.

Record Item := mkItem {
  item_url : str;
  item_section : option str;
  item_title : option str;
  item_date : option str;
  item_date_iso : option str;
  item_company : option str;
  item_text : str;
  item_language : option str;
  item_tags : option (list str);
  item_internal_links : option (list str) }.

(** What a generator gives before it ends: the values it yields, in
    order, and the exception that ends it when one does. *)
Record Outcome (A : Type) := mkOutcome {
  yielded : list A;
  raised : option exn }.
Arguments mkOutcome {A} yielded raised.
Arguments yielded {A} o.
Arguments raised {A} o.

(** What a callback can change or leave behind: the seen-URL store, and
    the selector queries it evaluated, in order. *)
Record World := mkWorld { seen : SeenStore.t; queries : list str }.

Definition Spider (A : Type) : Type := World -> A * World.

Definition ret {A : Type} (a : A) : Spider A := fun w => (a, w).

Definition bind {A B : Type} (m : Spider A) (k : A -> Spider B) : Spider B :=
  fun w => let (a, w') := m w in k a w'.

Declare Scope spider_scope.
Delimit Scope spider_scope with spider.
Notation "x <- m ;; k" := (bind m (fun x => k))
  (at level 61, m at next level, right associativity) : spider_scope.
Notation "m ;;; k" := (bind m (fun _ => k))
  (at level 61, right associativity) : spider_scope.
Local Open Scope spider_scope.

Definition run {A : Type} (m : Spider A) (w : World) : A * World := m w.

(** [response.css(q).getall()] *)
Definition css_getall (response : Response) (q : str) : Spider (list str) :=
  fun w => (resp_getall response q, mkWorld (seen w) (queries w ++ [q])).

(** [response.css(q).get()] *)
Definition css_get (response : Response) (q : str) : Spider (option str) :=
  l <- css_getall response q ;; ret (hd_error l).

(** [response.css(sel)] for a selector of elements *)
Definition css_nodes (response : Response) (q : str) : Spider (list Node) :=
  fun w => (resp_nodes response q, mkWorld (seen w) (queries w ++ [q])).

(** [nodes.css(q).getall()] on a selector list *)
Definition nodes_getall (nodes : list Node) (q : str) : Spider (list str) :=
  fun w => (flat_map (fun n => node_css n q) nodes,
            mkWorld (seen w) (queries w ++ [q])).

Definition seen_has (url : str) : Spider bool :=
  fun w => (SeenStore.has (seen w) url, w).

Definition seen_add (url : str) (now : SeenStore.timestamp) : Spider unit :=
  fun w => (tt, mkWorld (SeenStore.add (seen w) url now) (queries w)).

(** Truthiness of an optional string ([None] and the empty string are
    falsy). *)
Definition truthy_opt (o : option str) : bool :=
  match o with Some s => PyStr.truthy s | None => false end.

(** [a or b], the second operand evaluated only when the first is falsy. *)
Definition py_or (a b : Spider (option str)) : Spider (option str) :=
  x <- a ;; if truthy_opt x then ret x else b.

(** [sorted(set(l))]: the distinct strings of [l] in ascending order. *)
Fixpoint insert_sorted (x : str) (l : list str) : list str :=
  match l with
  | [] => [x]
  | y :: l' =>
    match PyStr.compare x y with
    | Lt => x :: l
    | Eq => l
    | Gt => y :: insert_sorted x l'
    end
  end.

Definition sorted_set (l : list str) : list str := fold_right insert_sorted [] l.

(** [l[:stop]] *)
Definition slice_to {A : Type} (l : list A) (stop : Z) : list A :=
  if (0 <=? stop)%Z then firstn (Z.to_nat stop) l
  else firstn (Z.to_nat (Z.of_nat (length l) + stop)) l.

(** ** The spider *)

(** Values a spider argument can take: absent, a string (what the command
    line passes) or an integer. *)
Inductive pyval := PyNone | PyStr (s : str) | PyInt (n : Z).

Definition py_truthy (v : pyval) : bool :=
  match v with
  | PyNone => false
  | PyStr s => PyStr.truthy s
  | PyInt n => negb (n =? 0)%Z
  end.

Inductive Body := body_unset | body_nodes (l : list Node) | body_response.

Section TMSectionsSpider.

(** Library functions: [urllib.parse.urljoin]; [request_url encoding url],
    the URL that [scrapy.Request(url, encoding=encoding)] keeps (it
    percent-encodes the URL, and raises when the result has no scheme);
    [w3lib.html.remove_tags]; the [netloc] of [urlparse]; [str.lower]; the
    decimal digits of Unicode; [langdetect.detect] (absent when the import
    failed; [None] when it raises); [date.fromisoformat] and [int] on a
    string ([None] when they raise). *)
Variable urljoin : str -> str -> result str.
Variable request_url : str -> str -> result str.
Variable remove_tags : str -> str.
Variable netloc : str -> option str.
Variable str_lower : str -> str.
Variable decimal : char -> option N.
Variable detect : option (str -> option str).
Variable fromisoformat : str -> option date.
Variable int_of_str : str -> option Z.

(** [int(v)] *)
Definition py_int (v : pyval) : option Z :=
  match v with
  | PyStr s => int_of_str s
  | PyInt n => Some n
  | PyNone => None
  end.

(** [__init__]: the cutoff date of the run, [None] when the constructor
    raises. *)
Definition init_cutoff_date (cutoff cutoff_year : pyval) : option date :=
  if py_truthy cutoff then
    match cutoff with
    | PyStr s => fromisoformat s
    | _ => None
    end
  else if py_truthy cutoff_year then
    match py_int cutoff_year with
    | Some y => Date.new y 1 1
    | None => None
    end
  else Date.new 2025 1 1.

(** [response.urljoin(u)] *)
Definition response_urljoin (response : Response) (u : str) : result str :=
  urljoin (resp_base_url response) u.

(** [response.follow(href, callback=cb, meta={"section_url": ...,
    "article_count": ...})]: the link is resolved against the page, and
    the request is built with the encoding of the page. *)
Definition follow (response : Response) (href : str) (cb : callback)
           (section_url : option str) (article_count : Z) : result Request :=
  match response_urljoin response href with
  | Raises e => Raises e
  | Returns u =>
    match request_url (resp_encoding response) u with
    | Raises e => Raises e
    | Returns url => Returns (mkRequest url cb section_url article_count)
    end
  end.

(** The loop over the candidates that keeps those the store has not
    seen. *)
Fixpoint unseen (hrefs : list str) : Spider (list str) :=
  match hrefs with
  | [] => ret []
  | href :: r =>
    known <- seen_has href ;;
    rest <- unseen r ;;
    ret (if known then rest else href :: rest)
  end.

(** The loop that yields one article request per admitted URL and counts
    it; a link that [follow] raises on ends it. *)
Fixpoint dispatch_articles (response : Response) (section_url : option str)
         (article_count : Z) (hrefs : list str) : Outcome Request * Z :=
  match hrefs with
  | [] => (mkOutcome [] None, article_count)
  | href :: r =>
    match follow response href parse_article_cb section_url
                 (article_count + 1) with
    | Raises e => (mkOutcome [] (Some e), article_count)
    | Returns req =>
      let (o, n) :=
        dispatch_articles response section_url (article_count + 1) r in
      (mkOutcome (req :: yielded o) (raised o), n)
    end
  end.

Definition sel_next_class : str := lit "a.next.page-numbers::attr(href)".
Definition sel_next : str := lit "a.next::attr(href)".
Definition sel_rel_next : str := lit "link[rel='next']::attr(href)".

Definition next_page_link (response : Response) : Spider (option str) :=
  py_or (py_or (css_get response sel_next_class) (css_get response sel_next))
        (css_get response sel_rel_next).

(** [{response.urljoin(h) for h in hrefs}]: the comprehension raises when
    one of the links does. *)
Definition resolve_all (response : Response) (hrefs : list str)
  : result (list str) :=
  traverse (response_urljoin response) hrefs.

(** The resolved, distinct article URLs of a listing page, ascending. *)
Definition article_candidates (response : Response) (hrefs : list str)
  : result (list str) :=
  match resolve_all response
                    (filter (PyStr.contains (lit "/articles/")) hrefs) with
  | Raises e => Raises e
  | Returns l => Returns (sorted_set l)
  end.

Definition parse_section (response : Response) : Spider (Outcome Request) :=
  let section_url := meta_section_url response in
  let article_count :=
    match meta_article_count response with Some n => n | None => 0%Z end in
  h1 <- css_getall response (lit "h3.item-title a::attr(href)") ;;
  h2 <- css_getall response (lit "div.item-excerpt a::attr(href)") ;;
  h3 <- css_getall response (lit "a[href*='/articles/']::attr(href)") ;;
  let hrefs := h1 ++ h2 ++ h3 in
  match article_candidates response hrefs with
  | Raises e => ret (mkOutcome [] (Some e))
  | Returns candidates =>
    new_articles <- unseen candidates ;;
    let remaining := (5 - article_count)%Z in
    let (articles, article_count) :=
      dispatch_articles response section_url article_count
                        (slice_to new_articles remaining) in
    match raised articles with
    | Some e => ret articles
    | None =>
      if (article_count <? 5)%Z then
        next_page <- next_page_link response ;;
        match next_page with
        | Some np =>
          if PyStr.truthy np then
            match follow response np parse_section_cb section_url
                         article_count with
            | Raises e => ret (mkOutcome (yielded articles) (Some e))
            | Returns req => ret (mkOutcome (yielded articles ++ [req]) None)
            end
          else ret articles
        | None => ret articles
        end
      else ret articles
    end
  end.

Definition body_selectors : list str :=
  [lit "div.single-article-content"; lit "div.entry-content";
   lit "div.article-content"; lit "article"].

(** The loop over [body_selectors]; it stops at the first selector whose
    first element serialises to a non-empty string. *)
Fixpoint locate_body (response : Response) (sels : list str)
         (body : Body) (raw_html : str) : Spider (Body * str) :=
  match sels with
  | [] => ret (body, raw_html)
  | sel :: rest =>
    nodes <- css_nodes response sel ;;
    match nodes with
    | [] => locate_body response rest (body_nodes nodes) raw_html
    | n :: _ =>
      if PyStr.truthy (node_get n) then ret (body_nodes nodes, node_get n)
      else locate_body response rest (body_nodes nodes) (node_get n)
    end
  end.

(** [body.css("a::attr(href)").getall()] *)
Definition body_hrefs (response : Response) (body : Body)
  : Spider (list str) :=
  match body with
  | body_response => css_getall response (lit "a::attr(href)")
  | body_nodes nodes => nodes_getall nodes (lit "a::attr(href)")
  | body_unset => ret []
  end.

(** [[t.strip() for t in l if t.strip()]] *)
Definition stripped_nonempty (l : list str) : list str :=
  filter PyStr.truthy (map PyStr.strip l).

(** [x.strip() if x else None] *)
Definition strip_opt (x : option str) : option str :=
  match x with
  | Some s => if PyStr.truthy s then Some (PyStr.strip s) else None
  | None => None
  end.

(** [l or None] *)
Definition list_or_none {A : Type} (l : list A) : option (list A) :=
  match l with [] => None | _ :: _ => Some l end.

Definition too_old (parsed_date : option date) (cutoff_date : date) : bool :=
  match parsed_date with
  | Some d => Date.ltb d cutoff_date
  | None => false
  end.

Definition parse_article (cutoff_date : date) (now : SeenStore.timestamp)
           (response : Response) : Spider (Outcome Item) :=
  let section_url := meta_section_url response in
  title <- py_or (css_get response (lit "h1.page-title span::text"))
                 (css_get response (lit "h1.page-title::text")) ;;
  let title := strip_opt title in
  date_str <- css_get response (lit "#single-article-date::text") ;;
  let date_str := strip_opt date_str in
  let parsed_date :=
    match date_str with
    | Some s => if PyStr.truthy s then parse_date decimal s else None
    | None => None
    end in
  if too_old parsed_date cutoff_date then ret (mkOutcome [] None)
  else
    companies <- css_getall response (lit "div.article-company a::text") ;;
    let companies := stripped_nonempty companies in
    let company :=
      match companies with
      | [] => None
      | _ :: _ => Some (PyStr.join (lit ", ") companies)
      end in
    located <- locate_body response body_selectors body_unset [] ;;
    located <- (if negb (PyStr.truthy (snd located)) then
                  parts <- css_getall response (lit "p, li, h2, h3") ;;
                  ret (body_response, concat parts)
                else ret located) ;;
    let body := fst located in
    let raw_html := snd located in
    let text := to_plain_text remove_tags raw_html in
    tags <- css_getall response
              (lit "div.post-terms ul.post-tags a::text") ;;
    let tags := stripped_nonempty tags in
    hrefs <- body_hrefs response body ;;
    match collect_internal urljoin netloc str_lower (resp_url response)
                           hrefs with
    | Raises e => ret (mkOutcome [] (Some e))
    | Returns internal_links =>
      let internal_links := dedup_seen [] internal_links in
      let language :=
        match detect with
        | Some f => if PyStr.truthy text then f text else None
        | None => None
        end in
      let item :=
        mkItem (resp_url response) section_url title date_str
               (option_map Date.isoformat parsed_date)
               company text language
               (list_or_none tags) (list_or_none internal_links) in
      seen_add (resp_url response) now ;;;
      ret (mkOutcome [item] None)
    end.

End TMSectionsSpider.

(** ** The homepage callback *)

(** A request as [parse] builds it: [scrapy.Request(url,
    callback=self.parse_section, meta={"section_url": url})].  Its [meta]
    has no [article_count], and keeps the URL as it was given. *)
Record SectionRequest := mkSectionRequest {
  sreq_url : str;
  sreq_callback : callback;
  sreq_section_url : str }.

Definition sel_menu : str := lit "#menu-channels a::attr(href)".
Definition sel_header : str := lit "header a[href*='/channel/']::attr(href)".

Section HomePage.

Variable urljoin : str -> str -> result str.
Variable request_url : str -> str -> result str.

(** The loop that yields one request per URL; a URL that [scrapy.Request]
    raises on ends it.  The encoding of a request is UTF-8 unless one is
    given. *)
Fixpoint section_requests (urls : list str) : Outcome SectionRequest :=
  match urls with
  | [] => mkOutcome [] None
  | url :: r =>
    match request_url (lit "utf-8") url with
    | Raises e => mkOutcome [] (Some e)
    | Returns u =>
      let o := section_requests r in
      mkOutcome (mkSectionRequest u parse_section_cb url :: yielded o)
                (raised o)
    end
  end.

(** [parse]: the links of the menu, those of the header when the menu gives
    none; the ones that contain "/channel/" are resolved, and one request
    per distinct URL is yielded in ascending order. *)
Definition parse (response : Response) : Spider (Outcome SectionRequest) :=
  section_links <- css_getall response sel_menu ;;
  section_links <- (match section_links with
                    | [] => css_getall response sel_header
                    | _ :: _ => ret section_links
                    end) ;;
  match resolve_all urljoin response
                    (filter (PyStr.contains (lit "/channel/"))
                            section_links) with
  | Raises e => ret (mkOutcome [] (Some e))
  | Returns section_links => ret (section_requests (sorted_set section_links))
  end.

End HomePage.

(** ** The service that launches a crawl ([main.py]) *)

Module Service.

(** What [subprocess.run] does with the command: it raises
    [TimeoutExpired], raises another exception (with its text), or returns
    a completed process. *)
Inductive proc_outcome :=
| proc_timeout
| proc_raised (e : str)
| proc_completed (returncode : Z) (stderr : option str).

(** What opening and reading the output file gives: [open] raises (with
    the text of the exception), or the file yields lines, up to its end or
    up to a read that raises. *)
Inductive read_outcome :=
| open_raised (e : str)
| opened (lines : list str) (broken : option str).

(** What a request finds and leaves: the crawl lock, and the commands that
    were handed to [subprocess.run]. *)
Record State := mkState { locked : bool; attempted : list (list str) }.

Section Scrape.

(** [json] stands for the values [json.loads] returns; [json_loads] gives
    the value of a line or the text of the exception it raises;
    [fromisoformat] is [date.fromisoformat] ([None] for [ValueError]);
    [executable] is [sys.executable]; [subprocess_run] and [output_file]
    are what the operating system answers.  [JSONResponse(content=...)]
    renders the list when it is built: [render_error] is the text of the
    exception this raises for a list that JSON cannot express, [None] when
    the list is rendered. *)
Variable json : Type.
Variable json_loads : str -> json + str.
Variable fromisoformat : str -> option date.
Variable executable : str.
Variable subprocess_run : list str -> proc_outcome.
Variable output_file : read_outcome.
Variable render_error : list json -> option str.

(** What a request gets: the rendered list, the [HTTPException] the
    endpoint raises, or an exception that leaves the endpoint unhandled
    (the framework answers it with status 500). *)
Inductive reply :=
| JSONResponse (content : list json)
| HTTPException (status_code : Z) (detail : str)
| Unhandled (e : str).

(** The command line of the crawl. *)
Definition cmd (cutoff : str) : list str :=
  [executable; lit "-m"; lit "scrapy"; lit "crawl"; lit "tm_sections";
   lit "-a"; lit "cutoff=" ++ cutoff;
   lit "-O"; lit "res.jsonl";
   lit "-s"; lit "LOG_LEVEL=ERROR"].

(** The loop over the lines of the output file: blank lines are skipped,
    the first line that [json.loads] refuses ends the loop with its
    exception, and so does a read that raises after the lines. *)
Fixpoint load_lines (lines : list str) (broken : option str)
         (json_list : list json) : list json + str :=
  match lines with
  | [] => match broken with
          | Some e => inr e
          | None => inl json_list
          end
  | line :: r =>
    if PyStr.truthy (PyStr.strip line) then
      match json_loads line with
      | inl v => load_lines r broken (json_list ++ [v])
      | inr e => inr e
      end
    else load_lines r broken json_list
  end.

(** The body of [async with _crawl_lock]. *)
Definition crawl (cutoff : str) : reply :=
  match subprocess_run (cmd cutoff) with
  | proc_timeout => HTTPException 504 (lit "Scrape timed out")
  | proc_raised e => HTTPException 500 (lit "Failed to launch scrapy: " ++ e)
  | proc_completed returncode stderr =>
    if negb (returncode =? 0)%Z then
      let err := PyStr.strip (match stderr with
                              | Some s => if PyStr.truthy s then s else []
                              | None => []
                              end) in
      HTTPException 500 (lit "Scrapy failed: " ++ firstn 4000 err)
    else
      match output_file with
      | open_raised e =>
        HTTPException 500 (lit "Could not read/parse output file: " ++ e)
      | opened lines broken =>
        match load_lines lines broken [] with
        | inl json_list =>
          match render_error json_list with
          | Some e => Unhandled e
          | None => JSONResponse json_list
          end
        | inr e =>
          HTTPException 500 (lit "Could not read/parse output file: " ++ e)
        end
      end
  end.

(** [scrape(cutoff)]: the reply, and the state the request leaves. *)
Definition scrape (cutoff : str) (st : State) : reply * State :=
  match fromisoformat cutoff with
  | None =>
    (HTTPException 422 (lit "Invalid cutoff (expected YYYY-MM-DD)"), st)
  | Some _ =>
    if locked st then
      (HTTPException 409 (lit "Crawler is already running"), st)
    else
      (crawl cutoff, mkState false (attempted st ++ [cmd cutoff]))
  end.

End Scrape.

(** The status code of a reply; a [JSONResponse] is sent with 200. *)
Definition status {json : Type} (r : reply json) : Z :=
  match r with
  | JSONResponse _ => 200
  | HTTPException _ status_code _ => status_code
  | Unhandled _ _ => 500
  end.

(** [line.strip()] is truthy. *)
Definition nonblank (line : str) : bool := PyStr.truthy (PyStr.strip line).

End Service.

(** ** The stock quotes of the service ([main.py])

    The values of JSON are a parameter, with their truthiness and their
    rendering in a formatted string.  The client is taken to open and
    close without error; what is printed is left out. *)

Module Stocks.

(** What [json.loads(SYMBOLS_MAP).items()] gives: [JSONDecodeError],
    another exception (with its text), or the pairs of the object in
    order. *)
Inductive map_outcome (value : Type) :=
| map_decode_error
| map_raised (e : str)
| map_items (items : list (str * value)).
Arguments map_decode_error {value}.
Arguments map_raised {value} e.
Arguments map_items {value} items.

(** What [client.get(url)] gives: an exception, or a response with its
    status code and what [response.json()] returns ([None] when it
    raises). *)
Inductive get_outcome (value : Type) :=
| get_raised
| got (status_code : Z) (json : option value).
Arguments get_raised {value}.
Arguments got {value} status_code json.

(** The dictionary under the key "output" of one element of the reply. *)
Record output (value : Type) := mkOutput {
  company : str; symbol : value; data : value }.
Arguments mkOutput {value} company symbol data.
Arguments company {value} o.
Arguments symbol {value} o.
Arguments data {value} o.

Inductive reply (value : Type) :=
| JSONResponse (content : list (output value))
| HTTPException (status_code : Z) (detail : str).
Arguments JSONResponse {value} content.
Arguments HTTPException {value} status_code detail.

Section Stocks.

(** [truthy] is [bool(v)], [format] is the text of [v] in a formatted
    string; [api_key] is the text of the key there; [client_get n url] is
    the answer to the request for [url] made after [n] earlier requests;
    [render_error] is the text of the exception [JSONResponse] raises for
    a list that JSON cannot express. *)
Variable value : Type.
Variable truthy : value -> bool.
Variable format : value -> str.
Variable api_key : str.
Variable symbol_map : map_outcome value.
Variable client_get : nat -> str -> get_outcome value.
Variable render_error : list (output value) -> option str.

Definition url (symbol : value) : str :=
  lit "https://www.alphavantage.co/query?function=GLOBAL_QUOTE&symbol="
  ++ format symbol ++ lit "&apikey=" ++ api_key.

(** The loop over the pairs, with the list collected and the URLs
    requested so far. *)
Fixpoint loop (items : list (str * value))
         (successful_stocks : list (output value)) (requested : list str)
  : list (output value) * list str :=
  match items with
  | [] => (successful_stocks, requested)
  | (company, symbol) :: rest =>
    if negb (truthy symbol) then loop rest successful_stocks requested
    else
      match client_get (length requested) (url symbol) with
      | got status_code json =>
        if (status_code =? 200)%Z then
          match json with
          | Some stock_data =>
            loop rest
                 (successful_stocks ++ [mkOutput company symbol stock_data])
                 (requested ++ [url symbol])
          | None => loop rest successful_stocks (requested ++ [url symbol])
          end
        else loop rest successful_stocks (requested ++ [url symbol])
      | get_raised => loop rest successful_stocks (requested ++ [url symbol])
      end
  end.

(** [stocks()]: the reply, and the URLs requested. *)
Definition stocks : reply value * list str :=
  match symbol_map with
  | map_decode_error =>
    (HTTPException 500
       (lit "Invalid SYMBOL_MAP configuration in environment"), [])
  | map_raised e =>
    (HTTPException 500 (lit "Error processing stocks: " ++ e), [])
  | map_items items =>
    let (successful_stocks, requested) := loop items [] [] in
    match render_error successful_stocks with
    | Some e =>
      (HTTPException 500 (lit "Error processing stocks: " ++ e), requested)
    | None => (JSONResponse successful_stocks, requested)
    end
  end.

End Stocks.

End Stocks.

(** * Vocabulary of the properties *)

(** A digit table with its ASCII part read from [ascii_decimal]. *)
Definition ascii_first (decimal : char -> option N) (c : char) : option N :=
  if (c <? 128)%N then ascii_decimal c else decimal c.

(** ** Listing pages *)

(** The hrefs the three listing selectors return. *)
Definition listing_hrefs (response : Response) : list str :=
  resp_getall response (lit "h3.item-title a::attr(href)")
  ++ resp_getall response (lit "div.item-excerpt a::attr(href)")
  ++ resp_getall response (lit "a[href*='/articles/']::attr(href)").

(** The count a listing page starts from. *)
Definition count_before (response : Response) : Z :=
  match meta_article_count response with Some n => n | None => 0%Z end.

(** The first result of a selector when it is a non-empty string. *)
Definition first_link (response : Response) (q : str) : option str :=
  match hd_error (resp_getall response q) with
  | Some s => if PyStr.truthy s then Some s else None
  | None => None
  end.

(** The next-page link: the three selectors in their order. *)
Definition found_next (response : Response) : option str :=
  match first_link response sel_next_class with
  | Some s => Some s
  | None =>
    match first_link response sel_next with
    | Some s => Some s
    | None => first_link response sel_rel_next
    end
  end.

(** The candidates the store has not seen, the ones among them that the
    page admits, and the count after them. *)
Definition new_articles (w : World) (candidates : list str) : list str :=
  filter (fun u => negb (SeenStore.has (seen w) u)) candidates.

Definition admitted_urls (response : Response) (w : World)
           (candidates : list str) : list str :=
  slice_to (new_articles w candidates) (5 - count_before response).

Definition count_after (response : Response) (w : World)
           (candidates : list str) : Z :=
  (count_before response
   + Z.of_nat (length (admitted_urls response w candidates)))%Z.

Definition is_article_request (r : Request) : bool :=
  match req_callback r with
  | parse_article_cb => true
  | parse_section_cb => false
  end.

(** The article requests for the URLs [urls] of a section, numbered from
    [n + 1]. *)
Fixpoint article_requests (section_url : option str) (n : Z)
         (urls : list str) : list Request :=
  match urls with
  | [] => []
  | v :: r =>
    mkRequest v parse_article_cb section_url (n + 1)
    :: article_requests section_url (n + 1) r
  end.

(** The calls of [f] over [l] that return before the first that raises,
    and the exception of that one. *)
Fixpoint attempts {A B : Type} (f : A -> result B) (l : list A)
  : list B * option exn :=
  match l with
  | [] => ([], None)
  | a :: r =>
    match f a with
    | Raises e => ([], Some e)
    | Returns b => let (bs, e) := attempts f r in (b :: bs, e)
    end
  end.

(** The consecutive counts [n + 1], ..., [n + k]. *)
Fixpoint counts_from (n : Z) (k : nat) : list Z :=
  match k with
  | O => []
  | S k' => (n + 1)%Z :: counts_from (n + 1) k'
  end.

Section ListingVocabulary.

Variable urljoin : str -> str -> result str.
Variable request_url : str -> str -> result str.

(** The candidates of a listing page: its resolved article URLs, distinct
    and ascending, when every article link resolves. *)
Definition page_candidates (response : Response) : result (list str) :=
  article_candidates urljoin response (listing_hrefs response).

(** The URL a link of the page is requested with: the link resolved
    against the page, as [scrapy.Request] keeps it. *)
Definition requested_url (response : Response) (href : str) : result str :=
  match urljoin (resp_base_url response) href with
  | Raises e => Raises e
  | Returns u => request_url (resp_encoding response) u
  end.

(** The requests a listing page yields in a world. *)
Definition page_requests (p : Response * World) : list Request :=
  yielded (fst (run (parse_section urljoin request_url (fst p)) (snd p))).

(** [response] is a page fetched for the listing request [req]: the
    callback finds the [meta] of the request in it. *)
Definition answers_request (req : Request) (response : Response) : Prop :=
  req_callback req = parse_section_cb
  /\ meta_section_url response = req_section_url req
  /\ meta_article_count response = Some (req_article_count req).

(** The pages that follow [p] in a section: each one answers a listing
    request of the page before it. *)
Fixpoint follows (p : Response * World) (rest : list (Response * World))
  : Prop :=
  match rest with
  | [] => True
  | p' :: rest' =>
    (exists req, In req (page_requests p) /\ answers_request req (fst p'))
    /\ follows p' rest'
  end.

(** The article requests of a sequence of pages, in order. *)
Definition article_requests_of (pages : list (Response * World))
  : list Request :=
  flat_map (fun p => filter is_article_request (page_requests p)) pages.

End ListingVocabulary.

(** ** The homepage *)

(** The links [parse] works from: those of the menu, or those of the
    header when the menu has none. *)
Definition homepage_links (response : Response) : list str :=
  match resp_getall response sel_menu with
  | [] => resp_getall response sel_header
  | l => l
  end.

(** The channel links among them. *)
Definition channel_links (response : Response) : list str :=
  filter (PyStr.contains (lit "/channel/")) (homepage_links response).

(** ** Article pages *)

Definition sel_title_span : str := lit "h1.page-title span::text".
Definition sel_title : str := lit "h1.page-title::text".
Definition sel_date : str := lit "#single-article-date::text".
Definition sel_href : str := lit "a::attr(href)".
Definition sel_loose : str := lit "p, li, h2, h3".

(** The date string of an article: the first result of the date selector,
    trimmed; absent when there is none or it is empty. *)
Definition article_date_str (response : Response) : option str :=
  strip_opt (hd_error (resp_getall response sel_date)).

(** The elements of a container selector, when its first element
    serialises to a non-empty string. *)
Definition container (response : Response) (sel : str) : option (list Node) :=
  match resp_nodes response sel with
  | n :: _ => if PyStr.truthy (node_get n) then Some (resp_nodes response sel)
              else None
  | [] => None
  end.

(** The located body: the elements of the first container selector that
    has some, or the whole page. *)
Definition located_body (response : Response) : option (list Node) :=
  first_some (container response) body_selectors.

(** The href targets the callback takes: those within every element of
    the located body, or those of the whole page when no container is
    found. *)
Definition article_body_hrefs (response : Response) : list str :=
  match located_body response with
  | Some nodes => flat_map (fun n => node_css n sel_href) nodes
  | None => resp_getall response sel_href
  end.

(** The href targets within the paragraph, list-item and heading elements
    of the page. *)
Definition loose_body_hrefs (response : Response) : list str :=
  flat_map (fun n => node_css n sel_href) (resp_nodes response sel_loose).

(** The serialisation the text of an article is made from: that of the
    first element of the located body, or the fragments of the whole page
    put together. *)
Definition article_raw_html (response : Response) : str :=
  match located_body response with
  | Some (n :: _) => node_get n
  | _ => concat (resp_getall response sel_loose)
  end.

(** [l'] lists elements of [l] in the order of their first occurrence in
    [l]: whenever [u] comes before [v] in [l'], [u] occurs in [l] before
    any [v] does. *)
Definition first_seen_order (l l' : list str) : Prop :=
  forall l1 u l2 v l3,
    l' = l1 ++ u :: l2 ++ v :: l3 ->
    exists p q, l = p ++ u :: q /\ ~ In u p /\ ~ In v p.

(** The selector queries that extract the title. *)
Definition title_queries (response : Response) : list str :=
  if truthy_opt (hd_error (resp_getall response sel_title_span))
  then [sel_title_span] else [sel_title_span; sel_title].

(** [a <= b] on dates. *)
Definition date_le (a b : date) : Prop := a = b \/ Date.ltb a b = true.

Section ArticleVocabulary.

Variable urljoin : str -> str -> result str.
Variable netloc : str -> option str.
Variable str_lower : str -> str.
Variable decimal : char -> option N.

(** The date the date string parses to, if any. *)
Definition article_parsed_date (response : Response) : option date :=
  match article_date_str response with
  | Some s => parse_date decimal s
  | None => None
  end.

(** The non-empty hrefs of [l] resolved against [url]; the loop raises
    when one of them does. *)
Definition resolved_links (url : str) (l : list str) : result (list str) :=
  traverse (urljoin url) (filter PyStr.truthy l).

(** The resolved links that are kept: the internal ones. *)
Definition internal_targets (resolved : list str) : list str :=
  filter (fun u => PyStr.truthy u && is_internal netloc str_lower u) resolved.

End ArticleVocabulary.

(** ** The text normaliser *)

(** The matcher of [text.replace("&nbsp;", "")]. *)
Definition nbsp_matcher : Scan.matcher := Scan.replace_matcher NBSP [].

(** The steps of [to_plain_text] after the deletion of "&nbsp;". *)
Definition finish (text : str) : str :=
  Scan.sub newlines_matcher (Scan.sub hspace_matcher (PyStr.strip text)).

(** The steps of [to_plain_text] after the test for an empty input. *)
Definition plain_steps (remove_tags : str -> str) (html : str) : str :=
  finish (Scan.sub nbsp_matcher (remove_tags html)).

(** [s] is [t] with some characters deleted. *)
Inductive subseq : str -> str -> Prop :=
| subseq_nil : subseq [] []
| subseq_keep c s t : subseq s t -> subseq (c :: s) (c :: t)
| subseq_drop c s t : subseq s t -> subseq s (c :: t).

(** What every version of [remove_tags] does: it deletes the tags it
    finds, and changes nothing else. *)
Definition deletes_only (remove_tags : str -> str) : Prop :=
  forall s, subseq (remove_tags s) s.

Module Normal.
Import Scan.

(** A position is settled for [m] when [m] finds no match there, or one
    that rewrites the character into itself. *)
Definition settled (m : matcher) (c : char) (r : str) : Prop :=
  m (c :: r) = None \/ m (c :: r) = Some (1, [c]).

(** A text is trimmed when neither its first nor its last character is
    whitespace. *)
Definition head_ok (s : str) : Prop :=
  match s with c :: _ => PyStr.is_space c = false | [] => True end.

Definition last_ok (s : str) : Prop := head_ok (rev s).

(** The class of the pattern [\n{3,}]. *)
Definition is_nl : char -> bool := N.eqb PyStr.NL.

(** The normal form of the steps after the removal of tags and of
    "&nbsp;". *)
Record normal (y : str) : Prop := {
  normal_head : head_ok y;
  normal_last : last_ok y;
  normal_hspace : stable hspace_matcher y;
  normal_newlines : stable newlines_matcher y }.

End Normal.

(** ** One tag remover

    The pattern [</?([^ >/]+).*?>] (flags DOTALL, IGNORECASE) that
    [remove_tags] compiled in w3lib up to version 2.4, every match of which
    is deleted.  It serves as an instance where a concrete tag remover is
    needed. *)

Module W3lib24.

Definition LT : char := 60%N.
Definition GT : char := 62%N.
Definition SLASH : char := 47%N.

(** The class [[^ >/]]. *)
Definition name_char (c : char) : bool :=
  negb ((c =? PyStr.SP) || (c =? GT) || (c =? SLASH))%N.

(** Index of the first occurrence of [c] in [s]. *)
Fixpoint find (c : char) (s : str) : option nat :=
  match s with
  | [] => None
  | x :: r => if N.eqb x c then Some 0 else option_map S (find c r)
  end.

(** After the opening angle bracket: an optional slash, then at least one
    character of [[^ >/]]. *)
Definition tag_open (r : str) : bool :=
  match (match r with
         | c :: r' => if N.eqb c SLASH then r' else r
         | [] => r
         end) with
  | c :: _ => name_char c
  | [] => false
  end.

(** The lazy [.*?>] stops at the first closing angle bracket, which the
    opening characters cannot contain. *)
Definition tag_matcher : Scan.matcher :=
  fun s =>
    match s with
    | c :: r =>
      if N.eqb c LT && tag_open r then
        match find GT r with
        | Some i => Some (i + 2, [])
        | None => None
        end
      else None
    | [] => None
    end.

Definition remove_tags (text : str) : str := Scan.sub tag_matcher text.

End W3lib24.

(** ** Sample pages *)

Module Sample.

Definition site : str := lit "https://www.themanufacturer.com".

(** The host of an https URL, for the samples. *)
Definition netloc (url : str) : option str :=
  match PyStr.strip_prefix (lit "https://") url with
  | Some r => Some (firstn (Scan.run (fun c => negb (N.eqb c (ch "/"))) r) r)
  | None => Some []
  end.

(** A link that starts with letters and a colon has a scheme. *)
Definition has_scheme (href : str) : bool :=
  let n := Scan.run (fun c => Strptime.in_range 97 122 c
                              || Strptime.in_range 65 90 c) href in
  match n, skipn n href with
  | S _, c :: _ => N.eqb c (ch ":")
  | _, _ => false
  end.

(** A resolver for the samples: a link whose host opens a bracket that is
    never closed is refused, a link with a scheme is kept as it is, and an
    absolute path is put after the scheme and host of the base. *)
Definition join (base href : str) : result str :=
  if PyStr.startswith href (lit "//[") then Raises ValueError
  else if has_scheme href then Returns href
  else match netloc base with
       | Some host => Returns (lit "https://" ++ host ++ href)
       | None => Returns href
       end.

(** The request constructor for the samples, whose URLs need no
    encoding: a URL without "://" is refused, unless it starts with
    "about:" or "data:". *)
Definition request_url (encoding url : str) : result str :=
  if PyStr.contains (lit "://") url
     || PyStr.startswith url (lit "about:")
     || PyStr.startswith url (lit "data:")
  then Returns url else Raises ValueError.

Definition answers (table : list (str * list str)) (q : str) : list str :=
  match List.find (fun e => PyStr.eqb (fst e) q) table with
  | Some e => snd e
  | None => []
  end.

Definition listing (url : str) (count : option Z)
           (table : list (str * list str)) : Response :=
  mkResponse url site (lit "utf-8")
             (Some (site ++ lit "/channel/leadership/")) count
             (answers table) (fun _ => []).

(** A listing page with six article links and a next-page link. *)
Definition listing6 : Response :=
  listing (site ++ lit "/channel/leadership/") None
          [(lit "h3.item-title a::attr(href)",
            [lit "/articles/f"; lit "/articles/b"; lit "/articles/d";
             lit "/about/"]);
           (lit "div.item-excerpt a::attr(href)",
            [lit "/articles/b"; lit "/articles/a"]);
           (lit "a[href*='/articles/']::attr(href)",
            [lit "/articles/e"; lit "/articles/c"; lit "/articles/f"]);
           (lit "a.next::attr(href)",
            [lit "/channel/leadership/page/2/"])].

(** A listing page with two article links, reached with count 1, whose
    next-page link is found by the second selector. *)
Definition listing2 : Response :=
  listing (site ++ lit "/channel/leadership/page/2/") (Some 1%Z)
          [(lit "h3.item-title a::attr(href)",
            [lit "/articles/h"; lit "/articles/g"]);
           (lit "a.next.page-numbers::attr(href)", [[]]);
           (lit "a.next::attr(href)",
            [lit "/channel/leadership/page/3/"])].

(** A listing page with six article links, one of which has a scheme of
    its own and no "://". *)
Definition listing_odd_scheme : Response :=
  listing (site ++ lit "/channel/leadership/") None
          [(lit "h3.item-title a::attr(href)",
            [lit "a:/articles/0"; lit "/articles/b"; lit "/articles/d"]);
           (lit "div.item-excerpt a::attr(href)", [lit "/articles/a"]);
           (lit "a[href*='/articles/']::attr(href)",
            [lit "/articles/e"; lit "/articles/c"])].

(** A listing page with one article link, whose next-page link is a
    script. *)
Definition listing_script_next : Response :=
  listing (site ++ lit "/channel/leadership/") None
          [(lit "h3.item-title a::attr(href)", [lit "/articles/g"]);
           (lit "a.next::attr(href)", [lit "javascript:void(0)"])].

(** The world of a first run: a store without a file, nothing queried. *)
Definition first_run : World := mkWorld (SeenStore.init None) [].

End Sample.

Module SampleArticle.

Definition lower (s : str) : str :=
  map (fun c => if Strptime.in_range 65 90 c then (c + 32)%N else c) s.

Definition cutoff : date := mkdate 2025 1 1.

Definition now : SeenStore.timestamp := lit "2025-06-01T08:00:00".

Definition body_of (hrefs : list str) : Node :=
  mkNode (lit "<div class='entry-content'><p>Text</p></div>")
         (Sample.answers [(lit "a::attr(href)", hrefs)]).

Definition body : Node :=
  body_of [lit "/articles/x"; lit "https://example.org/"; [];
           lit "/tag/y"; lit "/articles/x";
           lit "https://WWW.TheManufacturer.com/z"].

Definition page_of (date_text : list str) (b : Node) : Response :=
  mkResponse (Sample.site ++ lit "/articles/p/") Sample.site (lit "utf-8")
             (Some (Sample.site ++ lit "/channel/leadership/")) (Some 1%Z)
             (Sample.answers
                [(lit "h1.page-title::text", [lit " A title "]);
                 (lit "#single-article-date::text", date_text)])
             (fun q => if PyStr.eqb q (lit "div.entry-content") then [b]
                       else []).

Definition page (date_text : list str) : Response := page_of date_text body.

(** An article of 2021, one with a date that does not parse, and one of
    June 2025. *)
Definition old_page : Response := page [lit " 3rd March 2021 "].
Definition undated_page : Response := page [lit "Spring 2024"].
Definition recent_page : Response := page [lit "June 2, 2025"].

(** An undated article whose body has a link that cannot be resolved. *)
Definition broken_link_page : Response :=
  page_of [lit "Spring 2024"] (body_of [lit "/articles/x"; lit "//[x"]).

(** An article without any of the containers: its paragraph has no link,
    the navigation of the page has one. *)
Definition loose_page : Response :=
  mkResponse (Sample.site ++ lit "/articles/q/") Sample.site (lit "utf-8")
             (Some (Sample.site ++ lit "/channel/leadership/")) (Some 1%Z)
             (Sample.answers
                [(lit "h1.page-title::text", [lit "A title"]);
                 (lit "p, li, h2, h3", [lit "<p>Text</p>"]);
                 (lit "a::attr(href)", [lit "/about/"])])
             (fun q => if PyStr.eqb q (lit "p, li, h2, h3")
                       then [mkNode (lit "<p>Text</p>") (fun _ => [])]
                       else []).

End SampleArticle.

(** The text of the sample for the normaliser, with a tab in it. *)
Definition sample_html : str :=
  lit "  <p>Hello&nbsp;<b>big</b> " ++ [PyStr.TAB]
  ++ lit " world </p> ".

Module SampleHome.

(** A homepage whose menu has two channel links (one of them twice) and a
    link that is no channel. *)
Definition home : Response :=
  mkResponse (Sample.site ++ lit "/") Sample.site (lit "utf-8") None None
             (Sample.answers
                [(lit "#menu-channels a::attr(href)",
                  [lit "/channel/supply-chain/"; lit "/events/";
                   lit "/channel/leadership/"; lit "/channel/supply-chain/"]);
                 (lit "header a[href*='/channel/']::attr(href)",
                  [lit "/channel/innovation/"])])
             (fun _ => []).

(** A homepage whose menu has links, none of them to a channel, while the
    header has one. *)
Definition home_no_channel : Response :=
  mkResponse (Sample.site ++ lit "/") Sample.site (lit "utf-8") None None
             (Sample.answers
                [(lit "#menu-channels a::attr(href)",
                  [lit "/events/"; lit "/about/"]);
                 (lit "header a[href*='/channel/']::attr(href)",
                  [lit "/channel/innovation/"])])
             (fun _ => []).

(** The first page of a section, reached from the homepage: one article
    link and a link to the second page. *)
Definition listing1 : Response :=
  mkResponse (Sample.site ++ lit "/channel/leadership/") Sample.site
             (lit "utf-8")
             (Some (Sample.site ++ lit "/channel/leadership/")) None
             (Sample.answers
                [(lit "h3.item-title a::attr(href)", [lit "/articles/a"]);
                 (lit "a.next::attr(href)",
                  [lit "/channel/leadership/page/2/"])])
             (fun _ => []).

(** A later run: the store already holds the two articles of
    [Sample.listing2]. *)
Definition later_run : World :=
  mkWorld (SeenStore.add
             (SeenStore.add (SeenStore.init None)
                            (Sample.site ++ lit "/articles/g")
                            (lit "2025-06-01T08:00:00"))
             (Sample.site ++ lit "/articles/h")
             (lit "2025-06-01T08:00:01"))
          [].

End SampleHome.

(** ** The quotes of the stocks endpoint *)

Section StocksVocabulary.

Variable value : Type.
Variable truthy : value -> bool.
Variable format : value -> str.
Variable api_key : str.
Variable client_get : nat -> str -> Stocks.get_outcome value.

(** The quote a request brings back: the body of an answer with status
    200 that parses. *)
Definition quote (n : nat) (company : str) (symbol : value)
  : list (Stocks.output value) :=
  match client_get n (Stocks.url format api_key symbol) with
  | Stocks.got status_code (Some stock_data) =>
    if (status_code =? 200)%Z
    then [Stocks.mkOutput company symbol stock_data] else []
  | _ => []
  end.

(** The quotes that come back for the pairs of the map, one request per
    truthy symbol, the first of them after [n] earlier requests. *)
Fixpoint quotes (n : nat) (items : list (str * value))
  : list (Stocks.output value) :=
  match items with
  | [] => []
  | (company, symbol) :: rest =>
    if truthy symbol then quote n company symbol ++ quotes (S n) rest
    else quotes n rest
  end.

End StocksVocabulary.

Module SampleService.

(** A reader of lines for the samples: a line that starts with a brace
    is its own value (trimmed), any other line is refused. *)
Definition loads (line : str) : str + str :=
  if PyStr.startswith (PyStr.strip line) (lit "{") then inl (PyStr.strip line)
  else inr (lit "Expecting value").

(** A reader of dates for the samples: ten characters make a date. *)
Definition iso (s : str) : option date :=
  if Nat.eqb (length s) 10 then Some (mkdate 2025 1 1) else None.

Definition python : str := lit "/usr/bin/python3".

Definition completes (_ : list str) : Service.proc_outcome :=
  Service.proc_completed 0 (Some []).

Definition idle : Service.State := Service.mkState false [].

End SampleService.

(** ** Dates as they are written *)

Definition COMMA : char := ch ",".

(** The English month names, capitalised. *)
Definition month_names : list str :=
  [lit "January"; lit "February"; lit "March"; lit "April"; lit "May";
   lit "June"; lit "July"; lit "August"; lit "September"; lit "October";
   lit "November"; lit "December"].

Definition month_name (m : Z) : str := nth (Z.to_nat (m - 1)) month_names [].

(** The day of the month in decimal, without padding. *)
Definition day_text (d : Z) : str :=
  if (d <? 10)%Z then [Date.digit d] else Date.pad2 d.

(** A date written day first, as in 5 March 2024, and month first with a
    comma, as in March 5, 2024; the year has four digits. *)
Definition long_date (d : date) : str :=
  day_text (day d) ++ PyStr.SP :: month_name (month d)
  ++ PyStr.SP :: Date.pad4 (year d).

Definition us_date (d : date) : str :=
  month_name (month d) ++ PyStr.SP :: day_text (day d)
  ++ COMMA :: PyStr.SP :: Date.pad4 (year d).

(** The days of a month and the months of a year. *)
Definition days31 : list Z :=
  [1; 2; 3; 4; 5; 6; 7; 8; 9; 10; 11; 12; 13; 14; 15; 16; 17; 18; 19; 20;
   21; 22; 23; 24; 25; 26; 27; 28; 29; 30; 31]%Z.

Definition months12 : list Z := [1; 2; 3; 4; 5; 6; 7; 8; 9; 10; 11; 12]%Z.

(** An ASCII decimal digit. *)
Definition isdigit (c : char) : Prop := exists k, (k < 10)%N /\ c = (48 + k)%N.

(** A text whose first character is not whitespace. *)
Definition starts_nonspace (s : str) : Prop :=
  match s with
  | c :: _ => PyStr.is_space c = false
  | [] => False
  end.

Section WrittenDateChecks.

Variable decimal : char -> option N.

Import Strptime.

(** What a day of the month, written without padding and followed by a
    space, gives the day directive: the whole day first, and after it only
    candidates that leave a digit before the space; and the number [int]
    reads in it. *)
Definition day_ok (dd : Z) : Prop :=
  (forall g r,
      hd_error (candidates decimal Dir_d g (day_text dd ++ PyStr.SP :: r))
      = Some (mkfound (Some (day_text dd)) (grp_b g) (grp_B g) (grp_Y g),
              PyStr.SP :: r))
  /\ (forall g r,
         forallb (fun p => match snd p with
                           | c0 :: _ => negb (PyStr.is_space c0)
                           | [] => false
                           end)
                 (tl (candidates decimal Dir_d g
                                 (day_text dd ++ PyStr.SP :: r)))
         = true)
  /\ int_group decimal (day_text dd) = Some dd.

(** What the name of a month, followed by a space, gives the three
    directives, the month the groups are read as, and the characters of
    the name. *)
Definition month_ok (m : Z) : Prop :=
  (forall g r,
      candidates decimal Dir_B g (month_name m ++ PyStr.SP :: r)
      = [(mkfound (grp_d g) (grp_b g) (Some (month_name m)) (grp_Y g),
          PyStr.SP :: r)])
  /\ (forall g r,
         candidates decimal Dir_b g (month_name m ++ PyStr.SP :: r)
         = [(mkfound (grp_d g) (Some (firstn 3 (month_name m))) (grp_B g)
                     (grp_Y g),
             skipn 3 (month_name m) ++ PyStr.SP :: r)])
  /\ (forall g r,
         candidates decimal Dir_d g (month_name m ++ PyStr.SP :: r) = [])
  /\ (forall gd gb gY,
         month_of (mkfound gd gb (Some (month_name m)) gY) = Some m)
  /\ (forall gd gY,
         month_of (mkfound gd (Some (firstn 3 (month_name m))) None gY)
         = Some m)
  /\ forallb (fun c => negb (is_decimal decimal c) && negb (N.eqb COMMA c)
                       && negb (PyStr.is_space c))
             (month_name m) = true
  /\ starts_nonspace (month_name m)
  /\ (if (m =? 5)%Z then skipn 3 (month_name m) = []
      else starts_nonspace (skipn 3 (month_name m))).

End WrittenDateChecks.

(** * Properties *)

(** ** The date parser depends on the digit table pointwise *)

Section DigitTables.

Variables d1 d2 : char -> option N.
Hypothesis same : forall c, d1 c = d2 c.

Lemma is_decimal_ext c : is_decimal d1 c = is_decimal d2 c.
Proof. unfold is_decimal. now rewrite same. Qed.

Lemma int_digits_ext s : forall acc, int_digits d1 acc s = int_digits d2 acc s.
Proof.
  induction s as [|c r IH]; intros acc; simpl; [reflexivity|].
  rewrite same. destruct (d2 c); auto.
Qed.

Lemma ordinal_matcher_ext s : ordinal_matcher d1 s = ordinal_matcher d2 s.
Proof.
  unfold ordinal_matcher. destruct s as [|a [|b r]]; auto;
    now rewrite !is_decimal_ext.
Qed.

Lemma sub_skip_ext (m1 m2 : Scan.matcher) :
  (forall s, m1 s = m2 s) ->
  forall s k, Scan.sub_skip m1 k s = Scan.sub_skip m2 k s.
Proof.
  intros Hm s. induction s as [|c r IH]; intros k; simpl; [reflexivity|].
  destruct k; [|apply IH].
  rewrite Hm. destruct (m2 (c :: r)) as [[[|n] rep]|]; now rewrite IH.
Qed.

Lemma strip_ordinals_ext s : strip_ordinals d1 s = strip_ordinals d2 s.
Proof. apply sub_skip_ext, ordinal_matcher_ext. Qed.

Lemma candidates_ext d g s :
  Strptime.candidates d1 d g s = Strptime.candidates d2 d g s.
Proof.
  destruct d; simpl; try reflexivity; f_equal.
  - unfold Strptime.day_candidates.
    destruct s as [|a [|b r]]; auto. now rewrite is_decimal_ext.
  - unfold Strptime.year_candidates.
    destruct s as [|a [|b [|c [|d r]]]]; auto. now rewrite !is_decimal_ext.
Qed.

Lemma regex_match_ext fmt :
  forall g s, Strptime.regex_match d1 fmt g s = Strptime.regex_match d2 fmt g s.
Proof.
  induction fmt as [|d fmt IH]; intros g s; simpl; [reflexivity|].
  rewrite candidates_ext.
  induction (Strptime.candidates d2 d g s) as [|[g' r] l IHl]; simpl; auto.
  now rewrite IH, IHl.
Qed.

Lemma convert_ext g : Strptime.convert d1 g = Strptime.convert d2 g.
Proof.
  unfold Strptime.convert, Strptime.int_group.
  destruct (Strptime.grp_Y g) as [y|], (Strptime.grp_d g) as [d|];
    repeat match goal with
           | |- context [PyStr.strip ?t] => destruct (PyStr.strip t)
           end;
    rewrite ?int_digits_ext; reflexivity.
Qed.

Lemma strptime_date_ext s fmt :
  Strptime.strptime_date d1 s fmt = Strptime.strptime_date d2 s fmt.
Proof.
  unfold Strptime.strptime_date. rewrite regex_match_ext.
  destruct (Strptime.regex_match d2 fmt Strptime.no_group s) as [[g [|]]|];
    auto using convert_ext.
Qed.

Lemma parse_date_ext s : parse_date d1 s = parse_date d2 s.
Proof.
  unfold parse_date. destruct (negb (PyStr.truthy s)); [reflexivity|].
  rewrite strip_ordinals_ext.
  induction fmts as [|f l IH]; simpl; [reflexivity|].
  now rewrite strptime_date_ext, IH.
Qed.

End DigitTables.

Lemma ascii_first_same decimal :
  agrees_on_ascii decimal -> forall c, decimal c = ascii_first decimal c.
Proof.
  intros H c. unfold ascii_first.
  destruct (N.ltb_spec c 128); auto.
Qed.

(** C8: with a digit table that reads the ASCII digits as usual, the parser
    maps "21st March 2024" and "March 21 2024" to the date 2024-03-21 (whose
    ISO form is the string 2024-03-21), and "Spring 2024" to no date. *)
Theorem parse_date_examples (decimal : char -> option N) :
  agrees_on_ascii decimal ->
  parse_date decimal (lit "21st March 2024") = Some (mkdate 2024 3 21)
  /\ parse_date decimal (lit "March 21 2024") = Some (mkdate 2024 3 21)
  /\ parse_date decimal (lit "Spring 2024") = None
  /\ Date.isoformat (mkdate 2024 3 21) = lit "2024-03-21".
Proof.
  intros H.
  rewrite !(parse_date_ext _ _ (ascii_first_same H)).
  repeat split; vm_compute; reflexivity.
Qed.

Lemma parse_date_examples_witness :
  agrees_on_ascii ascii_decimal
  /\ parse_date ascii_decimal (lit "21st March 2024") = Some (mkdate 2024 3 21).
Proof.
  assert (H : agrees_on_ascii ascii_decimal) by (intros c _; reflexivity).
  split; [exact H | exact (proj1 (parse_date_examples H))].
Defined.

(** ** Strings: equality and order *)

Module PyStrFacts.

Lemma eqb_eq a : forall b, PyStr.eqb a b = true <-> a = b.
Proof.
  induction a as [|x a IH]; intros [|y b]; simpl; split; try easy.
  - rewrite andb_true_iff, N.eqb_eq, IH. now intros [-> ->].
  - intros [= -> ->]. rewrite N.eqb_refl. now apply IH.
Qed.

Lemma eqb_refl a : PyStr.eqb a a = true.
Proof. now apply eqb_eq. Qed.

Lemma eqb_neq a b : PyStr.eqb a b = false <-> a <> b.
Proof.
  rewrite <- eqb_eq. destruct (PyStr.eqb a b); split; congruence.
Qed.

Lemma compare_eq a : forall b, PyStr.compare a b = Eq <-> a = b.
Proof.
  induction a as [|x a IH]; intros [|y b]; simpl; split; try easy.
  - destruct (N.compare_spec x y); try easy.
    subst. intros H. apply IH in H. now subst.
  - intros [= -> ->]. rewrite N.compare_refl. now apply IH.
Qed.

Lemma compare_antisym a :
  forall b, PyStr.compare b a = CompOpp (PyStr.compare a b).
Proof.
  induction a as [|x a IH]; intros [|y b]; simpl; try easy.
  rewrite (N.compare_antisym x y).
  destruct (N.compare x y); simpl; auto.
Qed.

Lemma lt_trans a : forall b c, PyStr.lt a b -> PyStr.lt b c -> PyStr.lt a c.
Proof.
  unfold PyStr.lt.
  induction a as [|x a IH]; intros [|y b] [|z c]; simpl; try easy.
  destruct (N.compare_spec x y), (N.compare_spec y z); subst; try easy.
  - rewrite N.compare_refl. apply IH.
  - intros _ _. now apply N.compare_lt_iff in H0 as ->.
  - intros _ _. now apply N.compare_lt_iff in H as ->.
  - intros _ _. assert (Hxz : (x < z)%N) by lia.
    now apply N.compare_lt_iff in Hxz as ->.
Qed.

Lemma gt_lt a b : PyStr.compare a b = Gt -> PyStr.lt b a.
Proof. unfold PyStr.lt. rewrite (compare_antisym a b). now intros ->. Qed.

End PyStrFacts.

(** ** The seen-URL store *)

Module SeenStoreFacts.
Import SeenStore.

Lemma has_row_app rows rows' u :
  has_row (rows ++ rows') u = has_row rows u || has_row rows' u.
Proof. unfold has_row. apply existsb_app. Qed.

Lemma has_row_In rows u : has_row rows u = true <-> In u (map fst rows).
Proof.
  unfold has_row. rewrite existsb_exists, in_map_iff. split.
  - intros [r [Hr E]]. apply PyStrFacts.eqb_eq in E. eauto.
  - intros [r [E Hr]]. exists r. split; auto. now apply PyStrFacts.eqb_eq.
Qed.

Lemma has_add s u now v :
  has (add s u now) v = has s v || PyStr.eqb u v.
Proof.
  unfold has, add, insert_or_ignore.
  destruct (has_row (view s) u) eqn:E; simpl.
  - destruct (PyStr.eqb u v) eqn:Euv; [|now rewrite orb_false_r].
    apply PyStrFacts.eqb_eq in Euv. subst. now rewrite E.
  - rewrite has_row_app. simpl. now rewrite orb_false_r.
Qed.

Lemma committed_init_empty : committed (init None).
Proof. split; [reflexivity | constructor]. Qed.

Lemma committed_add s u now : committed s -> committed (add s u now).
Proof.
  intros [Hf Hn]. unfold add, insert_or_ignore.
  destruct (has_row (view s) u) eqn:E; simpl; split; auto.
  unfold commit; simpl. rewrite map_app. simpl.
  apply NoDup_app; auto.
  - repeat constructor. easy.
  - intros x Hx [<-|[]].
    apply has_row_In in Hx. congruence.
Qed.

Lemma reopen_committed s : committed s -> reopen s = s.
Proof. intros [Hf _]. destruct s as [f v]; simpl in *. now subst. Qed.

Lemma reopen_add s u now : reopen (add s u now) = add s u now.
Proof. reflexivity. Qed.

Lemma committed_after history : committed (after history).
Proof.
  unfold after. generalize committed_init_empty.
  generalize (init None).
  induction history as [|o h IH]; intros s Hs; simpl; auto.
  apply IH. destruct o; simpl.
  - now apply committed_add.
  - now rewrite reopen_committed.
Qed.

Lemma has_after history u :
  has (after history) u = true <-> In u (added history).
Proof.
  unfold after.
  assert (G : forall s, committed s ->
                        (has (fold_left step history s) u = true
                         <-> has s u = true \/ In u (added history))).
  { induction history as [|o h IH]; intros s Hs; simpl; [tauto|].
    rewrite in_app_iff. destruct o as [v now|]; simpl.
    - rewrite IH by now apply committed_add.
      rewrite has_add, orb_true_iff, PyStrFacts.eqb_eq. intuition.
    - rewrite reopen_committed by assumption. rewrite IH by assumption.
      tauto. }
  rewrite G by apply committed_init_empty.
  unfold has; simpl. intuition discriminate.
Qed.

Lemma add_twice s u now now' :
  add (add s u now) u now' = add s u now.
Proof.
  assert (H : has (add s u now) u = true)
    by (rewrite has_add, PyStrFacts.eqb_refl; apply orb_true_r).
  unfold add at 1. unfold insert_or_ignore.
  unfold has in H. rewrite H. reflexivity.
Qed.

Lemma entries_absent (rows : table) u :
  has_row rows u = false ->
  filter (fun r => PyStr.eqb (fst r) u) rows = [].
Proof.
  induction rows as [|r rows IH]; simpl; auto.
  destruct (PyStr.eqb (fst r) u); simpl; [discriminate|auto].
Qed.

Lemma entries_nodup (rows : table) u :
  NoDup (map fst rows) -> has_row rows u = true ->
  length (filter (fun r => PyStr.eqb (fst r) u) rows) = 1.
Proof.
  induction rows as [|r rows IH]; simpl; [discriminate|].
  intros Hn. inversion Hn as [|? ? Hnotin Hn']; subst.
  destruct (PyStr.eqb (fst r) u) eqn:E; simpl.
  - intros _. apply PyStrFacts.eqb_eq in E. subst.
    rewrite entries_absent; auto.
    destruct (has_row rows (fst r)) eqn:Hh; auto.
    apply has_row_In in Hh. contradiction.
  - now apply IH.
Qed.

Lemma find_has_row (rows : table) u :
  has_row rows u = false ->
  List.find (fun r => PyStr.eqb (fst r) u) rows = None.
Proof.
  induction rows as [|r rows IH]; simpl; auto.
  destruct (PyStr.eqb (fst r) u); simpl; [discriminate|auto].
Qed.

Lemma find_app_miss (rows rows' : table) u :
  List.find (fun r => PyStr.eqb (fst r) u) rows = None ->
  List.find (fun r => PyStr.eqb (fst r) u) (rows ++ rows')
  = List.find (fun r => PyStr.eqb (fst r) u) rows'.
Proof.
  induction rows as [|r0 rows IH]; simpl; auto.
  destruct (PyStr.eqb (fst r0) u); [discriminate|auto].
Qed.

Lemma first_seen_add s u now :
  first_seen (add s u now) u =
  match first_seen s u with Some t0 => Some t0 | None => Some now end.
Proof.
  unfold first_seen, add, insert_or_ignore.
  destruct (has_row (view s) u) eqn:E; simpl.
  - destruct (List.find (fun r => PyStr.eqb (fst r) u) (view s)) eqn:F;
      [reflexivity|].
    unfold has_row in E. apply existsb_exists in E as [r [Hr Er]].
    apply (find_none _ _ F) in Hr. congruence.
  - rewrite (find_has_row _ _ E), find_app_miss by now apply find_has_row.
    simpl. now rewrite PyStrFacts.eqb_refl.
Qed.

End SeenStoreFacts.

(** C5: over any history of additions and process restarts that starts
    without a file, [has u] holds exactly when [u] was added before; after
    [add u] it holds, also in a fresh process that reopens the file; a
    second [add u] changes nothing, so [u] has one row and keeps the
    timestamp it was first given. *)
Theorem ledger_contract (history : list SeenStore.op) (u : str)
        (now now' : SeenStore.timestamp) :
  let s := SeenStore.after history in
  (SeenStore.has s u = true <-> In u (SeenStore.added history))
  /\ SeenStore.has (SeenStore.add s u now) u = true
  /\ SeenStore.has (SeenStore.reopen (SeenStore.add s u now)) u = true
  /\ SeenStore.add (SeenStore.add s u now) u now' = SeenStore.add s u now
  /\ SeenStore.entries (SeenStore.add (SeenStore.add s u now) u now') u = 1
  /\ SeenStore.first_seen (SeenStore.add (SeenStore.add s u now) u now') u
     = match SeenStore.first_seen s u with
       | Some t0 => Some t0
       | None => Some now
       end.
Proof.
  intros s.
  assert (Hs : SeenStore.committed s)
    by apply SeenStoreFacts.committed_after.
  assert (Ha : SeenStore.has (SeenStore.add s u now) u = true).
  { rewrite SeenStoreFacts.has_add, PyStrFacts.eqb_refl. apply orb_true_r. }
  assert (Hc := SeenStoreFacts.committed_add u now Hs).
  repeat split.
  - now apply SeenStoreFacts.has_after.
  - now apply SeenStoreFacts.has_after.
  - exact Ha.
  - now rewrite SeenStoreFacts.reopen_committed.
  - apply SeenStoreFacts.add_twice.
  - rewrite SeenStoreFacts.add_twice.
    apply SeenStoreFacts.entries_nodup; [apply Hc | exact Ha].
  - rewrite SeenStoreFacts.add_twice. apply SeenStoreFacts.first_seen_add.
Qed.

(** ** The constructor *)

(** C10: built with neither [cutoff] nor [cutoff_year], the spider takes
    2025-01-01 as its cutoff date; built with [cutoff_year] only, a value
    that [int] reads as a year [y] of the calendar (1 to 9999), it takes the
    first of January of [y]. *)
Theorem init_cutoff_date_default
        (fromisoformat : str -> option date) (int_of_str : str -> option Z) :
  init_cutoff_date fromisoformat int_of_str PyNone PyNone
  = Some (mkdate 2025 1 1)
  /\ forall (cutoff_year : pyval) (y : Z),
      py_truthy cutoff_year = true ->
      py_int int_of_str cutoff_year = Some y ->
      (1 <= y <= 9999)%Z ->
      init_cutoff_date fromisoformat int_of_str PyNone cutoff_year
      = Some (mkdate y 1 1).
Proof.
  split; [reflexivity|]. intros cutoff_year y Ht Hy Hr.
  unfold init_cutoff_date. simpl. rewrite Ht, Hy.
  unfold Date.new, Date.days_in_month. simpl.
  destruct (Z.leb_spec 1 y), (Z.leb_spec y 9999); try lia. reflexivity.
Qed.

Lemma init_cutoff_date_default_witness :
  init_cutoff_date (fun _ => None) (int_digits ascii_decimal 0)
                   PyNone (PyStr (lit "2024"))
  = Some (mkdate 2024 1 1)
  /\ init_cutoff_date (fun _ => None) (int_digits ascii_decimal 0)
                      PyNone (PyInt 1999)
     = Some (mkdate 1999 1 1).
Proof.
  destruct (init_cutoff_date_default
              (fun _ => None) (int_digits ascii_decimal 0)) as [_ H].
  split.
  - apply (H (PyStr (lit "2024")) 2024%Z); [reflexivity|reflexivity|lia].
  - apply (H (PyInt 1999) 1999%Z); [reflexivity|reflexivity|lia].
Defined.

(** ** [sorted(set(l))] *)

Module SortedSet.
Import PyStrFacts.

Lemma insert_In x y l : In x (insert_sorted y l) <-> x = y \/ In x l.
Proof.
  induction l as [|z l IH]; simpl; [intuition|].
  destruct (PyStr.compare y z) eqn:E; simpl.
  - apply compare_eq in E. subst. intuition.
  - intuition.
  - rewrite IH. intuition.
Qed.

Lemma In_sorted_set x l : In x (sorted_set l) <-> In x l.
Proof.
  induction l as [|y l IH]; simpl; [tauto|].
  rewrite insert_In, IH. intuition.
Qed.

Lemma insert_sorted_sorted x l :
  StronglySorted PyStr.lt l -> StronglySorted PyStr.lt (insert_sorted x l).
Proof.
  induction 1 as [|z l Hs IH Hz]; simpl.
  - repeat constructor.
  - destruct (PyStr.compare x z) eqn:E.
    + now constructor.
    + constructor; [now constructor|].
      constructor; [exact E|].
      eapply Forall_impl; [|exact Hz].
      intros a Ha. eapply lt_trans; eauto.
    + constructor; [exact IH|].
      apply Forall_forall. intros a Ha.
      apply insert_In in Ha as [->|Ha].
      * now apply gt_lt.
      * rewrite Forall_forall in Hz. auto.
Qed.

Lemma sorted_set_sorted l : StronglySorted PyStr.lt (sorted_set l).
Proof.
  induction l as [|x l IH]; simpl; [constructor|].
  now apply insert_sorted_sorted.
Qed.

End SortedSet.

(** ** Loops that can raise *)

Module LoopFacts.

Lemma traverse_attempts {A B : Type} (f : A -> result B) l : forall bs,
  traverse f l = Returns bs -> attempts f l = (bs, None).
Proof.
  induction l as [|a l IH]; simpl; intros bs H.
  - now injection H as <-.
  - destruct (f a) as [b|e]; [|discriminate].
    destruct (traverse f l) as [bs'|e]; [|discriminate].
    injection H as <-. now rewrite (IH bs' eq_refl).
Qed.

Lemma traverse_length {A B : Type} (f : A -> result B) l : forall bs,
  traverse f l = Returns bs -> length bs = length l.
Proof.
  induction l as [|a l IH]; simpl; intros bs H.
  - now injection H as <-.
  - destruct (f a) as [b|e]; [|discriminate].
    destruct (traverse f l) as [bs'|e]; [|discriminate].
    injection H as <-. simpl. now rewrite (IH bs' eq_refl).
Qed.

Lemma traverse_In {A B : Type} (f : A -> result B) l : forall bs,
  traverse f l = Returns bs ->
  forall b, In b bs <-> exists a, In a l /\ f a = Returns b.
Proof.
  induction l as [|a l IH]; simpl; intros bs H b.
  - injection H as <-. simpl. split; [tauto|]. now intros [a [[] _]].
  - destruct (f a) as [b0|e] eqn:Ea; [|discriminate].
    destruct (traverse f l) as [bs'|e]; [|discriminate].
    injection H as <-. simpl. rewrite (IH bs' eq_refl b). split.
    + intros [<-|[a' [Hin Hf]]]; [exists a; auto|exists a'; auto].
    + intros [a' [[<-|Hin] Hf]].
      * left. congruence.
      * right. eauto.
Qed.

Lemma traverse_all {A B : Type} (f : A -> result B) l :
  (forall a, In a l -> exists b, f a = Returns b) ->
  exists bs, traverse f l = Returns bs.
Proof.
  induction l as [|a l IH]; simpl; intros H; [eauto|].
  destruct (H a (or_introl eq_refl)) as [b ->].
  destruct IH as [bs ->]; eauto.
Qed.

Lemma traverse_raise {A B : Type} (f : A -> result B) l a e :
  In a l -> f a = Raises e -> exists e', traverse f l = Raises e'.
Proof.
  induction l as [|x l IH]; simpl; intros Hin Hf; [contradiction|].
  destruct Hin as [->|Hin].
  - rewrite Hf. eauto.
  - destruct (f x); [|eauto].
    destruct (IH Hin Hf) as [e' ->]. eauto.
Qed.

Lemma attempts_length {A B : Type} (f : A -> result B) l :
  length (fst (attempts f l)) <= length l.
Proof.
  induction l as [|a l IH]; simpl; [lia|].
  destruct (f a); simpl; [|lia].
  destruct (attempts f l). simpl in *. lia.
Qed.

Lemma attempts_done {A B : Type} (f : A -> result B) l :
  snd (attempts f l) = None -> length (fst (attempts f l)) = length l.
Proof.
  induction l as [|a l IH]; simpl; [reflexivity|].
  destruct (f a); simpl; [|discriminate].
  destruct (attempts f l). simpl in *. intros H. now rewrite IH.
Qed.

End LoopFacts.

(** ** Listing pages *)

Section ListingPages.

Variable urljoin : str -> str -> result str.
Variable request_url : str -> str -> result str.

Lemma unseen_run l : forall w,
  unseen l w = (filter (fun u => negb (SeenStore.has (seen w) u)) l, w).
Proof.
  induction l as [|u l IH]; intros w; simpl; [reflexivity|].
  unfold bind, seen_has. rewrite IH. simpl.
  destruct (SeenStore.has (seen w) u); reflexivity.
Qed.

Lemma follow_spec response href cb section_url n :
  follow urljoin request_url response href cb section_url n
  = match requested_url urljoin request_url response href with
    | Returns v => Returns (mkRequest v cb section_url n)
    | Raises e => Raises e
    end.
Proof.
  unfold follow, requested_url, response_urljoin.
  destruct (urljoin (resp_base_url response) href); [|reflexivity].
  destruct (request_url (resp_encoding response) a); reflexivity.
Qed.

Lemma dispatch_articles_spec response section_url l : forall n,
  dispatch_articles urljoin request_url response section_url n l
  = let (vs, e) :=
      attempts (requested_url urljoin request_url response) l in
    (mkOutcome (article_requests section_url n vs) e,
     (n + Z.of_nat (length vs))%Z).
Proof.
  induction l as [|u l IH]; intros n; simpl dispatch_articles.
  - simpl. f_equal. lia.
  - rewrite follow_spec. simpl attempts.
    destruct (requested_url urljoin request_url response u) as [v|e].
    + rewrite IH.
      destruct (attempts (requested_url urljoin request_url response) l)
        as [vs e].
      simpl. f_equal. lia.
    + simpl. f_equal. lia.
Qed.

Lemma next_page_link_run response w :
  let r := next_page_link response w in
  seen (snd r) = seen w
  /\ (match fst r with
      | Some np => if PyStr.truthy np then Some np else None
      | None => None
      end) = found_next response.
Proof.
  unfold next_page_link, py_or, css_get, css_getall, bind, ret, found_next,
    first_link, truthy_opt. simpl.
  destruct (hd_error (resp_getall response sel_next_class)) as [a|];
    [destruct (PyStr.truthy a) eqn:Ea|]; simpl; rewrite ?Ea; auto;
  (destruct (hd_error (resp_getall response sel_next)) as [b|];
    [destruct (PyStr.truthy b) eqn:Eb|]; simpl; rewrite ?Eb; auto).
  all: rewrite ?Ea, ?Eb; auto.
Qed.

(** What a listing page yields and what it leaves of the store. *)
Lemma parse_section_run response w :
  let out := run (parse_section urljoin request_url response) w in
  seen (snd out) = seen w
  /\ fst out =
     match page_candidates urljoin response with
     | Raises e => mkOutcome [] (Some e)
     | Returns cands =>
       let (vs, e) := attempts (requested_url urljoin request_url response)
                               (admitted_urls response w cands) in
       let arts := article_requests (meta_section_url response)
                                    (count_before response) vs in
       let n := (count_before response + Z.of_nat (length vs))%Z in
       match e with
       | Some e => mkOutcome arts (Some e)
       | None =>
         if (n <? 5)%Z then
           match found_next response with
           | Some np =>
             match requested_url urljoin request_url response np with
             | Returns v =>
               mkOutcome (arts ++ [mkRequest v parse_section_cb
                                             (meta_section_url response) n])
                         None
             | Raises e => mkOutcome arts (Some e)
             end
           | None => mkOutcome arts None
           end
         else mkOutcome arts None
       end
     end.
Proof.
  unfold run, parse_section, bind, css_getall, page_candidates. simpl.
  fold (listing_hrefs response). fold (count_before response).
  destruct (article_candidates urljoin response (listing_hrefs response))
    as [cands|e]; [|simpl; auto].
  rewrite unseen_run. simpl. rewrite dispatch_articles_spec.
  unfold admitted_urls, new_articles. simpl.
  destruct (attempts _ _) as [vs e]. simpl.
  destruct e as [e|]; [simpl; auto|].
  set (n := (count_before response + _)%Z).
  destruct (n <? 5)%Z; [|auto].
  match goal with |- context [next_page_link response ?w0] =>
    destruct (next_page_link_run response w0) as [Hs Hn];
    destruct (next_page_link response w0) as [o w1] end.
  simpl in *. rewrite <- Hn.
  destruct o as [np|]; [destruct (PyStr.truthy np)|]; simpl; auto.
  rewrite follow_spec.
  destruct (requested_url urljoin request_url response np); simpl; auto.
Qed.

(** The same when the loop over the admitted URLs completes. *)
Lemma parse_section_done response w cands vs :
  page_candidates urljoin response = Returns cands ->
  traverse (requested_url urljoin request_url response)
           (admitted_urls response w cands) = Returns vs ->
  let out := run (parse_section urljoin request_url response) w in
  let arts := article_requests (meta_section_url response)
                               (count_before response) vs in
  let n := count_after response w cands in
  fst out =
  if (n <? 5)%Z then
    match found_next response with
    | Some np =>
      match requested_url urljoin request_url response np with
      | Returns v =>
        mkOutcome (arts ++ [mkRequest v parse_section_cb
                                      (meta_section_url response) n])
                  None
      | Raises e => mkOutcome arts (Some e)
      end
    | None => mkOutcome arts None
    end
  else mkOutcome arts None.
Proof.
  intros Hc Hv out arts n.
  destruct (parse_section_run response w) as [_ Hout].
  fold out in Hout. rewrite Hc in Hout.
  rewrite (LoopFacts.traverse_attempts _ _ Hv) in Hout.
  unfold n, count_after.
  now rewrite <- (LoopFacts.traverse_length _ _ Hv).
Qed.

End ListingPages.

Section ListingFacts.

Variable urljoin : str -> str -> result str.

Lemma candidates_spec response cands :
  page_candidates urljoin response = Returns cands ->
  forall x,
    In x cands
    <-> exists h, In h (listing_hrefs response)
                  /\ PyStr.contains (lit "/articles/") h = true
                  /\ urljoin (resp_base_url response) h = Returns x.
Proof.
  unfold page_candidates, article_candidates, resolve_all.
  destruct (traverse _ _) as [l|e] eqn:El; [|discriminate].
  intros H x. injection H as <-.
  rewrite SortedSet.In_sorted_set, (LoopFacts.traverse_In _ _ El). split.
  - intros [h [Hh Hx]]. apply filter_In in Hh as [Hin Hc]. eauto.
  - intros [h [Hin [Hc Hx]]]. exists h. split; auto.
    apply filter_In. auto.
Qed.

Lemma candidates_sorted response cands :
  page_candidates urljoin response = Returns cands ->
  StronglySorted PyStr.lt cands.
Proof.
  unfold page_candidates, article_candidates.
  destruct (resolve_all _ _ _) as [l|e]; [|discriminate].
  intros H. injection H as <-. apply SortedSet.sorted_set_sorted.
Qed.

Lemma filter_all {A : Type} (p : A -> bool) l :
  (forall x, In x l -> p x = true) -> filter p l = l.
Proof.
  induction l as [|a l IH]; simpl; intros H; [reflexivity|].
  rewrite (H a) by auto. f_equal. auto.
Qed.

Lemma article_requests_length section_url l : forall n,
  length (article_requests section_url n l) = length l.
Proof. induction l; intros n; simpl; auto. Qed.

Lemma article_requests_callback section_url l : forall n,
  Forall (fun r => req_callback r = parse_article_cb)
         (article_requests section_url n l).
Proof. induction l; intros n; simpl; constructor; auto. Qed.

End ListingFacts.



(** C2: when the loop over the admitted URLs of a listing page completes
    and the count after the page is below 5, the page yields its article
    requests and then, if one of the selectors for the next page
    (next-class, then generic next, then rel=next) gives a non-empty link
    that can be requested, one request for that page carrying the same
    section URL and the count after the page; if the link cannot be
    requested, the callback raises after the article requests; if no
    selector gives a link, nothing follows the article requests. *)
Theorem listing_pagination
        (urljoin request_url : str -> str -> result str)
        (response : Response) (w : World) (cands vs : list str) :
  let requested := requested_url urljoin request_url response in
  let out := fst (run (parse_section urljoin request_url response) w) in
  let arts := article_requests (meta_section_url response)
                               (count_before response) vs in
  page_candidates urljoin response = Returns cands ->
  traverse requested (admitted_urls response w cands) = Returns vs ->
  (count_after response w cands < 5)%Z ->
  Forall (fun r => req_callback r = parse_article_cb) arts
  /\ count_after response w cands
     = (count_before response + Z.of_nat (length arts))%Z
  /\ (forall np, found_next response = Some np ->
                 match requested np with
                 | Returns v =>
                   out = mkOutcome
                           (arts ++ [mkRequest v parse_section_cb
                                       (meta_section_url response)
                                       (count_after response w cands)])
                           None
                 | Raises e => out = mkOutcome arts (Some e)
                 end)
  /\ (found_next response = None -> out = mkOutcome arts None).
Proof.
  intros requested out arts Hc Hv Hlt.
  assert (Hout := parse_section_done urljoin request_url response w Hc Hv).
  simpl in Hout. fold out arts in Hout.
  apply Z.ltb_lt in Hlt. rewrite Hlt in Hout.
  split; [apply article_requests_callback|].
  split; [|split].
  - unfold arts, count_after. rewrite article_requests_length.
    now rewrite (LoopFacts.traverse_length _ _ Hv).
  - intros np Hnp. rewrite Hnp in Hout. unfold requested.
    now destruct (requested_url urljoin request_url response np).
  - intros Hnone. now rewrite Hnone in Hout.
Qed.

(** C2, as the specification states it, fails: on a page with one article
    link whose next link is found by the generic selector and is a script
    ("javascript:void(0)"), the count after the page is 1 and the article
    request is yielded, but no listing request follows: [response.follow]
    raises on the link. *)
Lemma listing_next_not_requested :
  count_after Sample.listing_script_next Sample.first_run
              [Sample.site ++ lit "/articles/g"] = 1%Z
  /\ found_next Sample.listing_script_next = Some (lit "javascript:void(0)")
  /\ fst (run (parse_section Sample.join Sample.request_url
                             Sample.listing_script_next)
              Sample.first_run)
     = mkOutcome [mkRequest (Sample.site ++ lit "/articles/g")
                            parse_article_cb
                            (Some (Sample.site ++ lit "/channel/leadership/"))
                            1]
                 (Some ValueError).
Proof. vm_compute. repeat split. Qed.


Lemma listing_pagination_witness :
  fst (run (parse_section Sample.join Sample.request_url Sample.listing2)
           Sample.first_run)
  = mkOutcome
      [mkRequest (Sample.site ++ lit "/articles/g") parse_article_cb
                 (Some (Sample.site ++ lit "/channel/leadership/")) 2;
       mkRequest (Sample.site ++ lit "/articles/h") parse_article_cb
                 (Some (Sample.site ++ lit "/channel/leadership/")) 3;
       mkRequest (Sample.site ++ lit "/channel/leadership/page/3/")
                 parse_section_cb
                 (Some (Sample.site ++ lit "/channel/leadership/")) 3]
      None.
Proof.
  destruct (@listing_pagination
              Sample.join Sample.request_url Sample.listing2 Sample.first_run
              [Sample.site ++ lit "/articles/g";
               Sample.site ++ lit "/articles/h"]
              [Sample.site ++ lit "/articles/g";
               Sample.site ++ lit "/articles/h"])
    as (_ & _ & Hnext & _).
  - vm_compute. reflexivity.
  - vm_compute. reflexivity.
  - vm_compute. reflexivity.
  - assert (E : requested_url Sample.join Sample.request_url
                              Sample.listing2
                              (lit "/channel/leadership/page/3/")
                = Returns (Sample.site ++ lit "/channel/leadership/page/3/"))
      by (vm_compute; reflexivity).
    assert (H := Hnext (lit "/channel/leadership/page/3/") eq_refl).
    cbv zeta in H. rewrite E in H. rewrite H. vm_compute. reflexivity.
Defined.

(** ** Article pages *)

Module DedupFacts.

Lemma mem_In u seen_u : existsb (PyStr.eqb u) seen_u = true <-> In u seen_u.
Proof.
  rewrite existsb_exists. split.
  - intros [x [Hx E]]. apply PyStrFacts.eqb_eq in E. now subst.
  - intros H. exists u. split; auto. apply PyStrFacts.eqb_refl.
Qed.

Lemma dedup_seen_In l : forall seen_u u,
  In u (dedup_seen seen_u l) <-> In u l /\ ~ In u seen_u.
Proof.
  induction l as [|a l IH]; intros seen_u u; simpl; [tauto|].
  destruct (existsb (PyStr.eqb a) seen_u) eqn:E.
  - apply mem_In in E. rewrite IH. split.
    + tauto.
    + intros [[->|H] Hn]; tauto.
  - assert (Ha : ~ In a seen_u) by (rewrite <- mem_In; congruence).
    simpl. rewrite IH. simpl. split.
    + intros [<-|[H Hn]]; tauto.
    + intros [[->|H] Hn]; [tauto|].
      destruct (PyStr.eqb a u) eqn:Eau.
      * apply PyStrFacts.eqb_eq in Eau. tauto.
      * apply PyStrFacts.eqb_neq in Eau. right. tauto.
Qed.

Lemma dedup_seen_NoDup l : forall seen_u, NoDup (dedup_seen seen_u l).
Proof.
  induction l as [|a l IH]; intros seen_u; simpl; [constructor|].
  destruct (existsb (PyStr.eqb a) seen_u); auto.
  constructor; auto.
  rewrite dedup_seen_In. simpl. tauto.
Qed.

Lemma in_split_both (l1 l2 l3 : list str) u v :
  In u (l1 ++ u :: l2 ++ v :: l3) /\ In v (l1 ++ u :: l2 ++ v :: l3).
Proof.
  split; apply in_or_app; right; [now left|].
  right. apply in_or_app. right. now left.
Qed.

Lemma dedup_seen_order l : forall seen_u,
  first_seen_order l (dedup_seen seen_u l).
Proof.
  unfold first_seen_order.
  induction l as [|a l IH]; intros seen_u l1 u l2 v l3 E; simpl in E.
  - now destruct l1.
  - destruct (existsb (PyStr.eqb a) seen_u) eqn:Ea.
    + apply mem_In in Ea.
      destruct (in_split_both l1 l2 l3 u v) as [Hu Hv].
      rewrite <- E in Hu, Hv.
      apply dedup_seen_In in Hu as [_ Hu], Hv as [_ Hv].
      destruct (IH _ _ _ _ _ _ E) as (p & q & -> & Hp & Hq).
      exists (a :: p), q. simpl. repeat split; auto.
      * intros [->|H]; tauto.
      * intros [->|H]; tauto.
    + destruct l1 as [|b l1]; simpl in E; injection E as <- E.
      * exists [], l. simpl. tauto.
      * destruct (in_split_both l1 l2 l3 u v) as [Hu Hv].
        rewrite <- E in Hu, Hv.
        apply dedup_seen_In in Hu as [_ Hu], Hv as [_ Hv]. simpl in Hu, Hv.
        destruct (IH _ _ _ _ _ _ E) as (p & q & -> & Hp & Hq).
        exists (a :: p), q. simpl. repeat split; auto.
        -- intros [->|H]; tauto.
        -- intros [->|H]; tauto.
Qed.

End DedupFacts.

Section ArticleFacts.

Variable urljoin : str -> str -> result str.
Variable netloc : str -> option str.
Variable str_lower : str -> str.

(** The loop over the hrefs of the body raises when one of its non-empty
    hrefs does not resolve, and collects the internal links otherwise. *)
Lemma collect_internal_targets url l :
  collect_internal urljoin netloc str_lower url l
  = match resolved_links urljoin url l with
    | Returns resolved => Returns (internal_targets netloc str_lower resolved)
    | Raises e => Raises e
    end.
Proof.
  unfold resolved_links, internal_targets.
  induction l as [|a l IH]; simpl; [reflexivity|].
  unfold absolutize. destruct (PyStr.truthy a); simpl.
  - destruct (urljoin url a) as [u|e]; [|reflexivity].
    rewrite IH. destruct (traverse (urljoin url) (filter PyStr.truthy l));
      [|reflexivity].
    simpl. destruct (PyStr.truthy u && _); reflexivity.
  - rewrite IH. destruct (traverse (urljoin url) (filter PyStr.truthy l));
      reflexivity.
Qed.

Lemma internal_targets_spec url l resolved :
  resolved_links urljoin url l = Returns resolved ->
  forall u,
    In u (internal_targets netloc str_lower resolved)
    <-> exists a, In a l /\ a <> [] /\ urljoin url a = Returns u /\ u <> []
                  /\ is_internal netloc str_lower u = true.
Proof.
  intros Hr u. unfold internal_targets.
  rewrite filter_In, (LoopFacts.traverse_In _ _ Hr), andb_true_iff. split.
  - intros [[a [Ha Hu]] [Ht Hi]]. apply filter_In in Ha as [Ha Hta].
    exists a. repeat split; auto.
    + intros ->. discriminate.
    + intros E. rewrite E in Ht. discriminate.
  - intros [a (Ha & Hne & Hu & Hune & Hi)]. repeat split; auto.
    + exists a. split; auto. apply filter_In. split; auto.
      destruct a; [contradiction|reflexivity].
    + destruct u; [contradiction|reflexivity].
Qed.

Lemma truthy_false s : PyStr.truthy s = false -> s = [].
Proof. now destruct s. Qed.

(** The loop over the container selectors changes nothing in the store and
    ends on the first container, or with an empty serialisation. *)
Lemma locate_body_run response sels : forall body w,
  let r := locate_body response sels body [] w in
  seen (snd r) = seen w
  /\ match first_some (container response) sels with
     | Some nodes => fst (fst r) = body_nodes nodes
                     /\ PyStr.truthy (snd (fst r)) = true
     | None => snd (fst r) = []
     end.
Proof.
  induction sels as [|sel sels IH]; intros body w; simpl.
  - auto.
  - unfold bind, css_nodes, container. simpl.
    destruct (resp_nodes response sel) as [|n nodes] eqn:En.
    + exact (IH _ (mkWorld (seen w) (queries w ++ [sel]))).
    + destruct (PyStr.truthy (node_get n)) eqn:Et; simpl.
      * auto.
      * rewrite (truthy_false _ Et).
        exact (IH _ (mkWorld (seen w) (queries w ++ [sel]))).
Qed.

End ArticleFacts.

Section ArticleRuns.

Variable urljoin : str -> str -> result str.
Variable remove_tags : str -> str.
Variable netloc : str -> option str.
Variable str_lower : str -> str.
Variable decimal : char -> option N.
Variable detect : option (str -> option str).

Lemma parsed_date_eq response :
  match article_date_str response with
  | Some s => if PyStr.truthy s then parse_date decimal s else None
  | None => None
  end = article_parsed_date decimal response.
Proof.
  unfold article_parsed_date.
  destruct (article_date_str response) as [[|c s]|]; reflexivity.
Qed.

(** An article older than the cutoff: nothing is yielded, and only the
    title and the date were looked up. *)
Lemma parse_article_skip cutoff now response w :
  too_old (article_parsed_date decimal response) cutoff = true ->
  run (parse_article urljoin remove_tags netloc str_lower decimal detect
                     cutoff now response) w
  = (mkOutcome [] None,
     mkWorld (seen w) (queries w ++ title_queries response ++ [sel_date])).
Proof.
  intros Hold. unfold run, parse_article.
  unfold bind, py_or, css_get, css_getall, ret, bind.
  cbn beta iota zeta.
  fold sel_title_span sel_title sel_date.
  fold (article_date_str response).
  rewrite parsed_date_eq, Hold. unfold title_queries.
  destruct (truthy_opt (hd_error (resp_getall response sel_title_span)));
    simpl; rewrite <- ?app_assoc; reflexivity.
Qed.

(** Any other article: when a link of the body does not resolve, the
    callback raises before it yields and the store is as it was;
    otherwise one item is yielded and its URL is added to the store. *)
Lemma parse_article_keep cutoff now response w :
  too_old (article_parsed_date decimal response) cutoff = false ->
  match resolved_links urljoin (resp_url response)
                       (article_body_hrefs response) with
  | Raises e =>
    exists qs,
      run (parse_article urljoin remove_tags netloc str_lower decimal detect
                         cutoff now response) w
      = (mkOutcome [] (Some e), mkWorld (seen w) qs)
  | Returns resolved =>
    exists item qs,
      run (parse_article urljoin remove_tags netloc str_lower decimal detect
                         cutoff now response) w
      = (mkOutcome [item] None,
         mkWorld (SeenStore.add (seen w) (resp_url response) now) qs)
      /\ item_url item = resp_url response
      /\ item_section item = meta_section_url response
      /\ item_date item = article_date_str response
      /\ item_date_iso item
         = option_map Date.isoformat (article_parsed_date decimal response)
      /\ item_internal_links item
         = list_or_none
             (dedup_seen [] (internal_targets netloc str_lower resolved))
  end.
Proof.
  intros Hold.
  destruct (run (parse_article urljoin remove_tags netloc str_lower decimal
                               detect cutoff now response) w)
    as [items wout] eqn:E.
  unfold run, parse_article in E.
  unfold bind, py_or, css_get, css_getall, ret, bind in E.
  cbn beta iota zeta in E.
  fold sel_title_span sel_title sel_date in E.
  fold (article_date_str response) in E.
  rewrite parsed_date_eq, Hold in E.
  destruct (truthy_opt (hd_error (resp_getall response sel_title_span)));
    cbn beta iota zeta in E; simpl seen in E;
    (match type of E with
     | context [locate_body response body_selectors body_unset [] ?w0] =>
       pose proof (locate_body_run response body_selectors body_unset w0)
         as Hl;
       cbv zeta in Hl; destruct Hl as [Hs Hb];
       destruct (locate_body response body_selectors body_unset [] w0)
         as [[body raw] w2]
     end);
    cbn [fst snd] in Hb; simpl in Hs;
    unfold article_body_hrefs, located_body;
    fold sel_href in E; revert Hb;
    (destruct (first_some (container response) body_selectors) as [nodes|];
     [intros [-> Hraw]; simpl in E; rewrite Hraw in E
     |intros Hb; rewrite Hb in E]);
    simpl in E; rewrite collect_internal_targets in E; cbn beta iota;
    (match goal with
     | |- context [resolved_links urljoin ?u ?l] =>
       match type of E with
       | context [resolved_links urljoin ?u' ?l'] =>
         change (resolved_links urljoin u' l')
           with (resolved_links urljoin u l) in E
       end;
       destruct (resolved_links urljoin u l) as [resolved|e]
     end);
    simpl in E; injection E as <- <-;
    (eexists; try eexists; try split;
     [simpl; rewrite ?Hs; reflexivity|..]); simpl; repeat split.
Qed.

End ArticleRuns.

(** C3: when the date string of an article parses to a date strictly
    earlier than the cutoff, the callback yields no record and raises
    nothing, the store is what it was (the URL is not added), and the only
    selector queries it evaluated are those of the title and the one of
    the date. *)
Theorem old_article_skipped
        (urljoin : str -> str -> result str) (remove_tags : str -> str)
        (netloc : str -> option str)
        (str_lower : str -> str) (decimal : char -> option N)
        (detect : option (str -> option str))
        (cutoff : date) (now : SeenStore.timestamp)
        (response : Response) (w : World) (s : str) (d : date) :
  let out := run (parse_article urljoin remove_tags netloc str_lower decimal
                                detect cutoff now response) w in
  article_date_str response = Some s ->
  parse_date decimal s = Some d ->
  Date.ltb d cutoff = true ->
  fst out = mkOutcome [] None
  /\ seen (snd out) = seen w
  /\ queries (snd out) = queries w ++ title_queries response ++ [sel_date]
  /\ (forall q, In q (title_queries response) ->
                q = sel_title_span \/ q = sel_title).
Proof.
  intros out Hs Hd Hlt. subst out.
  rewrite parse_article_skip.
  - repeat split. unfold title_queries.
    destruct (truthy_opt _); simpl; intuition.
  - unfold article_parsed_date. now rewrite Hs, Hd.
Qed.

(** C4: when the article has no date string, or one that does not parse,
    the cutoff plays no role.  If every non-empty href of the body
    resolves, one record is yielded, its [date_iso] is null, and the URL of
    the article is in the store afterwards, also for a process that
    reopens the file.  If [urljoin] raises on one of them, the callback
    raises: it yields no record and the store is what it was. *)
Theorem undated_article_kept
        (urljoin : str -> str -> result str) (remove_tags : str -> str)
        (netloc : str -> option str)
        (str_lower : str -> str) (decimal : char -> option N)
        (detect : option (str -> option str))
        (cutoff : date) (now : SeenStore.timestamp)
        (response : Response) (w : World) :
  let out := run (parse_article urljoin remove_tags netloc str_lower decimal
                                detect cutoff now response) w in
  (forall s, article_date_str response = Some s ->
             parse_date decimal s = None) ->
  match resolved_links urljoin (resp_url response)
                       (article_body_hrefs response) with
  | Returns _ =>
    exists item,
      fst out = mkOutcome [item] None
      /\ item_url item = resp_url response
      /\ item_date item = article_date_str response
      /\ item_date_iso item = None
      /\ seen (snd out) = SeenStore.add (seen w) (resp_url response) now
      /\ SeenStore.has (seen (snd out)) (resp_url response) = true
      /\ SeenStore.has (SeenStore.reopen (seen (snd out))) (resp_url response)
         = true
  | Raises e =>
    fst out = mkOutcome [] (Some e) /\ seen (snd out) = seen w
  end.
Proof.
  intros out Hnone. subst out.
  assert (Hp : article_parsed_date decimal response = None).
  { unfold article_parsed_date.
    destruct (article_date_str response) as [s|]; auto. }
  assert (Hk := parse_article_keep urljoin remove_tags netloc str_lower
                                   decimal detect cutoff now response w).
  rewrite Hp in Hk. specialize (Hk eq_refl).
  destruct (resolved_links urljoin (resp_url response)
                           (article_body_hrefs response)) as [resolved|e].
  - destruct Hk as (item & qs & -> & Hu & _ & Hd & Hiso & _).
    exists item. simpl.
    assert (Hhas : SeenStore.has (SeenStore.add (seen w) (resp_url response)
                                                now)
                                 (resp_url response) = true).
    { rewrite SeenStoreFacts.has_add, PyStrFacts.eqb_refl.
      apply orb_true_r. }
    rewrite SeenStoreFacts.reopen_add. repeat split; auto.
  - destruct Hk as (qs & ->). split; reflexivity.
Qed.

(** C4, as the specification states it, fails: an article without a date
    that parses, whose body has an href that [urljoin] raises on ("//[x"),
    gives no record, and its URL is not in the store afterwards. *)
Lemma undated_article_lost :
  article_parsed_date ascii_decimal SampleArticle.broken_link_page = None
  /\ fst (run (parse_article Sample.join W3lib24.remove_tags Sample.netloc
                             SampleArticle.lower ascii_decimal None
                             SampleArticle.cutoff SampleArticle.now
                             SampleArticle.broken_link_page)
              Sample.first_run)
     = mkOutcome [] (Some ValueError)
  /\ SeenStore.has
       (seen (snd (run (parse_article Sample.join W3lib24.remove_tags
                                      Sample.netloc SampleArticle.lower
                                      ascii_decimal None SampleArticle.cutoff
                                      SampleArticle.now
                                      SampleArticle.broken_link_page)
                       Sample.first_run)))
       (resp_url SampleArticle.broken_link_page)
     = false.
Proof. vm_compute. repeat split. Qed.

(** C9: for an article that passes the cutoff gate, the hrefs taken are
    those within every element of the first container selector that
    matches, or those of the whole page when none matches.  If [urljoin]
    raises on one of the non-empty ones, the callback raises and yields no
    record.  Otherwise the links kept are these hrefs, each resolved
    against the URL of the article, that are internal: [internal_links] is
    null when there is none, and lists exactly these links, each once, in
    the order in which they first occur, when there are some. *)
Theorem internal_links_of_article
        (urljoin : str -> str -> result str) (remove_tags : str -> str)
        (netloc : str -> option str)
        (str_lower : str -> str) (decimal : char -> option N)
        (detect : option (str -> option str))
        (cutoff : date) (now : SeenStore.timestamp)
        (response : Response) (w : World) :
  let out := run (parse_article urljoin remove_tags netloc str_lower decimal
                                detect cutoff now response) w in
  too_old (article_parsed_date decimal response) cutoff = false ->
  match resolved_links urljoin (resp_url response)
                       (article_body_hrefs response) with
  | Raises e => fst out = mkOutcome [] (Some e)
  | Returns resolved =>
    let targets := internal_targets netloc str_lower resolved in
    (forall u, In u targets <->
               exists a, In a (article_body_hrefs response) /\ a <> []
                         /\ urljoin (resp_url response) a = Returns u
                         /\ u <> []
                         /\ is_internal netloc str_lower u = true)
    /\ exists item,
        fst out = mkOutcome [item] None
        /\ match item_internal_links item with
           | None => targets = []
           | Some links =>
             links <> [] /\ NoDup links
             /\ (forall u, In u links <-> In u targets)
             /\ first_seen_order targets links
           end
  end.
Proof.
  intros out Hpass. subst out.
  assert (Hk := parse_article_keep urljoin remove_tags netloc str_lower
                                   decimal detect cutoff now response w
                                   Hpass).
  destruct (resolved_links urljoin (resp_url response)
                           (article_body_hrefs response))
    as [resolved|e] eqn:Hr.
  - intros targets. split.
    + exact (internal_targets_spec urljoin netloc str_lower _ _ Hr).
    + destruct Hk as (item & qs & -> & _ & _ & _ & _ & Hl).
      exists item. split; [reflexivity|]. rewrite Hl. fold targets.
      pose proof (DedupFacts.dedup_seen_In targets [] ) as Hin.
      pose proof (DedupFacts.dedup_seen_NoDup targets []) as Hnd.
      pose proof (DedupFacts.dedup_seen_order targets []) as Hord.
      destruct (dedup_seen [] targets) as [|x l] eqn:E; simpl.
      * destruct targets as [|t ts]; auto.
        specialize (Hin t). simpl in Hin. tauto.
      * repeat split; auto; try discriminate.
        -- intros H. apply Hin in H. tauto.
        -- intros H. apply Hin. simpl. tauto.
  - destruct Hk as (qs & ->). reflexivity.
Qed.

(** C9, as the specification states it, fails: on a page without any of
    the containers, the loose body (the paragraph, list-item and heading
    elements) has no link, yet the record has an internal link: the one of
    the navigation, taken from the whole page. *)
Lemma internal_links_outside_body :
  too_old (article_parsed_date ascii_decimal SampleArticle.loose_page)
          SampleArticle.cutoff = false
  /\ located_body SampleArticle.loose_page = None
  /\ loose_body_hrefs SampleArticle.loose_page = []
  /\ map item_internal_links
         (yielded
            (fst (run (parse_article Sample.join W3lib24.remove_tags
                                     Sample.netloc SampleArticle.lower
                                     ascii_decimal None SampleArticle.cutoff
                                     SampleArticle.now
                                     SampleArticle.loose_page)
                      Sample.first_run)))
     = [Some [Sample.site ++ lit "/about/"]].
Proof. vm_compute. repeat split. Qed.

Lemma old_article_skipped_witness :
  run (parse_article Sample.join W3lib24.remove_tags Sample.netloc
                     SampleArticle.lower
                     ascii_decimal None SampleArticle.cutoff SampleArticle.now
                     SampleArticle.old_page) Sample.first_run
  = (mkOutcome [] None,
     mkWorld (SeenStore.init None) [sel_title_span; sel_title; sel_date]).
Proof.
  pose proof (old_article_skipped
                Sample.join W3lib24.remove_tags Sample.netloc
                SampleArticle.lower
                ascii_decimal None SampleArticle.cutoff SampleArticle.now
                SampleArticle.old_page Sample.first_run
                (s := lit "3rd March 2021") (d := mkdate 2021 3 3)
                eq_refl eq_refl eq_refl) as H.
  cbv zeta in H. destruct H as (Hout & Hseen & Hq & _).
  destruct (run _ _) as [items [st qs]]. simpl in *.
  subst. reflexivity.
Defined.

Lemma undated_article_kept_witness :
  exists item,
    fst (run (parse_article Sample.join W3lib24.remove_tags Sample.netloc
                            SampleArticle.lower ascii_decimal None
                            SampleArticle.cutoff SampleArticle.now
                            SampleArticle.undated_page) Sample.first_run)
    = mkOutcome [item] None
    /\ item_date_iso item = None.
Proof.
  assert (H := undated_article_kept
              Sample.join W3lib24.remove_tags Sample.netloc
              SampleArticle.lower
              ascii_decimal None SampleArticle.cutoff SampleArticle.now
              SampleArticle.undated_page Sample.first_run).
  cbv zeta in H.
  assert (Hr : resolved_links Sample.join
                              (resp_url SampleArticle.undated_page)
                              (article_body_hrefs SampleArticle.undated_page)
               = Returns [Sample.site ++ lit "/articles/x";
                          lit "https://example.org/";
                          Sample.site ++ lit "/tag/y";
                          Sample.site ++ lit "/articles/x";
                          lit "https://WWW.TheManufacturer.com/z"])
    by (vm_compute; reflexivity).
  rewrite Hr in H.
  destruct H as (item & Hout & _ & _ & Hiso & _).
  - intros s Hs. vm_compute in Hs. injection Hs as <-. reflexivity.
  - exists item. split; assumption.
Defined.

Lemma internal_links_of_article_witness :
  exists item,
    fst (run (parse_article Sample.join W3lib24.remove_tags Sample.netloc
                            SampleArticle.lower ascii_decimal None
                            SampleArticle.cutoff SampleArticle.now
                            SampleArticle.recent_page) Sample.first_run)
    = mkOutcome [item] None
    /\ item_internal_links item
       = Some [Sample.site ++ lit "/articles/x"; Sample.site ++ lit "/tag/y";
               lit "https://WWW.TheManufacturer.com/z"].
Proof.
  assert (H := internal_links_of_article
              Sample.join W3lib24.remove_tags Sample.netloc
              SampleArticle.lower
              ascii_decimal None SampleArticle.cutoff SampleArticle.now
              SampleArticle.recent_page Sample.first_run).
  cbv zeta in H.
  assert (Hr : resolved_links Sample.join
                              (resp_url SampleArticle.recent_page)
                              (article_body_hrefs SampleArticle.recent_page)
               = Returns [Sample.site ++ lit "/articles/x";
                          lit "https://example.org/";
                          Sample.site ++ lit "/tag/y";
                          Sample.site ++ lit "/articles/x";
                          lit "https://WWW.TheManufacturer.com/z"])
    by (vm_compute; reflexivity).
  rewrite Hr in H.
  destruct H as (_ & item & Hout & _).
  - reflexivity.
  - exists item. split; [exact Hout|].
    vm_compute in Hout. injection Hout as <-. vm_compute. reflexivity.
Defined.

(** ** Scanning substitution: general facts *)

Module ScanFacts.
Import Scan.

(** Skipping a whole prefix resumes the scan after it. *)
Lemma sub_skip_app m p : forall s,
  sub_skip m (length p) (p ++ s) = sub m s.
Proof. induction p as [|c p IH]; intros s; simpl; [destruct s|]; auto. Qed.

(** A prefix at whose characters no match can start is copied. *)
Lemma sub_app_inert m p s :
  (forall c t, In c p -> m (c :: t) = None) ->
  sub m (p ++ s) = p ++ sub m s.
Proof.
  unfold sub. induction p as [|c p IH]; intros H; simpl; [reflexivity|].
  rewrite (H c) by now left. f_equal. apply IH. intros; apply H; now right.
Qed.

(** Where a match starts, its replacement is emitted and the scan resumes
    after it. *)
Lemma sub_match m p s rep :
  p <> [] -> m (p ++ s) = Some (length p, rep) ->
  sub m (p ++ s) = rep ++ sub m s.
Proof.
  destruct p as [|c p]; [congruence|]. intros _ H.
  unfold sub at 1. simpl in *. rewrite H. f_equal. apply sub_skip_app.
Qed.

Lemma stable_sub_skip m s : forall k, k = 0 -> stable m s -> sub_skip m k s = s.
Proof.
  induction s as [|c r IH]; intros k -> H; simpl; [reflexivity|].
  destruct H as [[H|H] Hr]; rewrite H; simpl; f_equal; auto.
Qed.

Lemma stable_sub m s : stable m s -> sub m s = s.
Proof. now apply stable_sub_skip. Qed.

Lemma stable_app_r m p s : stable m (p ++ s) -> stable m s.
Proof. induction p; simpl; tauto. Qed.

(** The characters of the result come from the subject or from a
    replacement. *)
Lemma In_sub_skip m x s : forall k,
  In x (sub_skip m k s) ->
  In x s \/ exists t n rep, m t = Some (n, rep) /\ In x rep.
Proof.
  induction s as [|c r IH]; intros k H; simpl in H; [tauto|].
  destruct k as [|k].
  - destruct (m (c :: r)) as [[[|n] rep]|] eqn:E.
    + destruct H as [<-|H]; [left; now left|].
      apply IH in H as [H|H]; [left; now right|now right].
    + apply in_app_or in H as [H|H].
      * right. eauto.
      * apply IH in H as [H|H]; [left; now right|now right].
    + destruct H as [<-|H]; [left; now left|].
      apply IH in H as [H|H]; [left; now right|now right].
  - apply IH in H as [H|H]; [left; now right|now right].
Qed.

End ScanFacts.

(** ** Deleting characters *)

Module SubseqFacts.
Import Scan.

Lemma subseq_refl s : subseq s s.
Proof. induction s; constructor; auto. Qed.

Lemma subseq_length s t : subseq s t -> length s <= length t.
Proof. induction 1; simpl; lia. Qed.

Lemma subseq_same_length s t :
  subseq s t -> length s = length t -> s = t.
Proof.
  induction 1 as [|c s t H IH|c s t H IH]; simpl; intros E.
  - reflexivity.
  - f_equal. apply IH. lia.
  - apply subseq_length in H. lia.
Qed.

Lemma subseq_In s t x : subseq s t -> In x s -> In x t.
Proof.
  induction 1 as [|c s t H IH|c s t H IH]; simpl; intros Hx; auto.
  destruct Hx as [->|Hx]; auto.
Qed.

Lemma subseq_nil_inv s : subseq s [] -> s = [].
Proof. intros H. apply subseq_length in H. now destruct s. Qed.

(** A substitution that puts nothing in the place of its matches only
    deletes. *)
Lemma sub_skip_subseq m :
  (forall s k rep, m s = Some (k, rep) -> rep = []) ->
  forall s k, subseq (sub_skip m k s) s.
Proof.
  intros Hm s. induction s as [|c r IH]; intros k; cbn [sub_skip].
  - constructor.
  - destruct k as [|k]; [|constructor; apply IH].
    destruct (m (c :: r)) as [[[|n] rep]|] eqn:E.
    + constructor. apply IH.
    + rewrite (Hm _ _ _ E). simpl. constructor. apply IH.
    + constructor. apply IH.
Qed.

Lemma tag_matcher_erases t n rep :
  W3lib24.tag_matcher t = Some (n, rep) -> rep = [].
Proof.
  destruct t as [|c r]; [discriminate|]. unfold W3lib24.tag_matcher.
  destruct (N.eqb c W3lib24.LT && W3lib24.tag_open r); [|discriminate].
  destruct (W3lib24.find W3lib24.GT r); [|discriminate].
  intros H. now injection H as _ <-.
Qed.

Lemma remove_tags_deletes : deletes_only W3lib24.remove_tags.
Proof. intros s. apply sub_skip_subseq. exact tag_matcher_erases. Qed.

End SubseqFacts.

(** ** The text normaliser *)

Module TextFacts.
Import Scan ScanFacts.

Lemma to_plain_text_steps remove_tags html :
  html <> [] -> to_plain_text remove_tags html = plain_steps remove_tags html.
Proof. destruct html; [congruence|reflexivity]. Qed.

Lemma plain_steps_nil remove_tags :
  remove_tags [] = [] -> plain_steps remove_tags [] = [].
Proof. unfold plain_steps. now intros ->. Qed.

(** With a remover that only deletes, the test for an empty input changes
    nothing. *)
Lemma to_plain_text_plain_steps remove_tags html :
  deletes_only remove_tags ->
  to_plain_text remove_tags html = plain_steps remove_tags html.
Proof.
  intros Hd. destruct html as [|c r]; [|reflexivity].
  rewrite plain_steps_nil; [reflexivity|].
  apply SubseqFacts.subseq_nil_inv, Hd.
Qed.

Lemma nbsp_matcher_hit t : nbsp_matcher (NBSP ++ t) = Some (length NBSP, []).
Proof. reflexivity. Qed.

(** No occurrence of "&nbsp;" overlaps another: one that starts inside
    [a] lies inside [a]. *)
Lemma startswith_nbsp_app c a t :
  PyStr.startswith ((c :: a) ++ NBSP ++ t) NBSP
  = PyStr.startswith (c :: a) NBSP.
Proof.
  unfold PyStr.startswith.
  assert (E : NBSP = [38; 110; 98; 115; 112; 59]%N) by reflexivity.
  rewrite E. clear E.
  destruct a as [|c2 [|c3 [|c4 [|c5 [|c6 a]]]]];
    cbn [app PyStr.strip_prefix];
    repeat match goal with
           | |- context [N.eqb ?x ?y] =>
             destruct (N.eqb_spec x y); try subst; try discriminate;
               cbn [PyStr.strip_prefix]
           end; reflexivity.
Qed.

Lemma startswith_length s p :
  PyStr.startswith s p = true -> length p <= length s.
Proof.
  unfold PyStr.startswith. revert s.
  induction p as [|x p IH]; intros [|y s]; simpl; try lia; try discriminate.
  destruct (N.eqb x y); [|discriminate]. intros H. apply IH in H. lia.
Qed.

Lemma nbsp_matcher_app c a t :
  nbsp_matcher ((c :: a) ++ NBSP ++ t) = nbsp_matcher (c :: a).
Proof.
  unfold nbsp_matcher, replace_matcher. now rewrite startswith_nbsp_app.
Qed.

Lemma nbsp_matcher_inside s k rep :
  nbsp_matcher s = Some (k, rep) -> k <= length s.
Proof.
  unfold nbsp_matcher, replace_matcher.
  destruct (PyStr.startswith s NBSP) eqn:E; [|discriminate].
  intros H. injection H as <- _. exact (startswith_length _ _ E).
Qed.

(** The scan deletes an occurrence of "&nbsp;" wherever one is, and goes
    on after it as it would on the rest alone. *)
Lemma nbsp_scan_split a b : forall k,
  k <= length a ->
  sub_skip nbsp_matcher k (a ++ NBSP ++ b)
  = sub_skip nbsp_matcher k a ++ sub nbsp_matcher b.
Proof.
  induction a as [|c a IH]; intros k Hk.
  - simpl in Hk. assert (k = 0) as -> by lia.
    change ([] ++ NBSP ++ b) with (NBSP ++ b).
    exact (@sub_match nbsp_matcher NBSP b [] ltac:(discriminate)
                      (nbsp_matcher_hit b)).
  - destruct k as [|k].
    + change (sub_skip nbsp_matcher 0 ((c :: a) ++ NBSP ++ b))
        with (match nbsp_matcher ((c :: a) ++ NBSP ++ b) with
              | Some (S k, rep) =>
                rep ++ sub_skip nbsp_matcher k (a ++ NBSP ++ b)
              | _ => c :: sub_skip nbsp_matcher 0 (a ++ NBSP ++ b)
              end).
      rewrite nbsp_matcher_app. cbn [sub_skip].
      destruct (nbsp_matcher (c :: a)) as [[[|n] rep]|] eqn:E.
      * rewrite IH by lia. reflexivity.
      * apply nbsp_matcher_inside in E. simpl in E.
        rewrite IH by lia. now rewrite app_assoc.
      * rewrite IH by lia. reflexivity.
    + change (sub_skip nbsp_matcher (S k) ((c :: a) ++ NBSP ++ b))
        with (sub_skip nbsp_matcher k (a ++ NBSP ++ b)).
      cbn [sub_skip]. apply IH. simpl in Hk. lia.
Qed.

Lemma replace_nbsp_split a b :
  Scan.replace NBSP [] (a ++ NBSP ++ b)
  = Scan.replace NBSP [] a ++ Scan.replace NBSP [] b.
Proof. apply nbsp_scan_split. lia. Qed.

End TextFacts.

(** C7, as the code has it: a literal "&nbsp;" is deleted, nothing is put
    in its place.  Whatever the input, for every occurrence of "&nbsp;" in
    the text the removal of the tags leaves, the result is what the steps
    after the deletion (trimming, collapse of spaces and tabs, collapse of
    newlines) make of the text before the occurrence and the text after
    it, each with its own "&nbsp;" deleted, put side by side. *)
Theorem nbsp_deleted (remove_tags : str -> str) (html a b : str) :
  deletes_only remove_tags ->
  remove_tags html = a ++ NBSP ++ b ->
  to_plain_text remove_tags html
  = finish (Scan.replace NBSP [] a ++ Scan.replace NBSP [] b).
Proof.
  intros Hd E. rewrite (TextFacts.to_plain_text_plain_steps _ Hd).
  unfold plain_steps. rewrite E.
  change (Scan.sub nbsp_matcher (a ++ NBSP ++ b))
    with (Scan.replace NBSP [] (a ++ NBSP ++ b)).
  now rewrite TextFacts.replace_nbsp_split.
Qed.

Lemma nbsp_deleted_witness :
  to_plain_text W3lib24.remove_tags (lit "<p>Hello&nbsp;<b>world</b></p>")
  = lit "Helloworld".
Proof.
  rewrite (@nbsp_deleted W3lib24.remove_tags
                         (lit "<p>Hello&nbsp;<b>world</b></p>")
                         (lit "Hello") (lit "world")
                         SubseqFacts.remove_tags_deletes).
  - vm_compute. reflexivity.
  - vm_compute. reflexivity.
Defined.

(** C7, as the specification states it, fails: "a&nbsp;b", in which no
    remover finds a tag, is normalised to "ab", which is not what "a b" is
    normalised to. *)
Lemma nbsp_not_a_space :
  to_plain_text W3lib24.remove_tags (lit "a&nbsp;b") = lit "ab"
  /\ to_plain_text W3lib24.remove_tags (lit "a&nbsp;b")
     <> to_plain_text W3lib24.remove_tags (lit "a b").
Proof. split; [reflexivity|]. vm_compute. discriminate. Qed.

(** ** The normal form of the text normaliser *)

Module NormalFacts.
Import Scan ScanFacts Normal.

Lemma exists_last_or_nil (s : str) : s = [] \/ exists r d, s = r ++ [d].
Proof.
  destruct s as [|c s]; [now left|right].
  destruct (@exists_last _ (c :: s)) as (r & d & E); [discriminate|eauto].
Qed.

(** *** Stability is kept by a substitution that leaves alone what the
    other matcher looks at *)

Lemma stable_app_inert m rep s :
  (forall x t, In x rep -> m (x :: t) = None) ->
  stable m s -> stable m (rep ++ s).
Proof.
  intros H Hs. induction rep as [|x rep IH]; simpl; auto.
  split; [left; apply H; now left|].
  apply IH. intros; apply H; now right.
Qed.

Lemma sub_keeps_stable mA mB :
  (forall s k rep x t, mB s = Some (k, rep) -> In x rep -> mA (x :: t) = None) ->
  (forall c r, settled mA c r -> settled mA c (sub mB r)) ->
  forall s k, stable mA s -> stable mA (sub_skip mB k s).
Proof.
  intros Hrep Hcopy s.
  induction s as [|c r IH]; intros k Hs; simpl; auto.
  destruct Hs as [Hc Hr].
  destruct k as [|k]; [|now apply IH].
  destruct (mB (c :: r)) as [[[|n] rep]|] eqn:E.
  - simpl. split; [now apply Hcopy|now apply IH].
  - apply stable_app_inert; [|now apply IH].
    intros x t Hx. eapply Hrep; eauto.
  - simpl. split; [now apply Hcopy|now apply IH].
Qed.

(** *** The matchers of the two collapses *)

Lemma copy_at m c r : m (c :: r) = None -> sub m (c :: r) = c :: sub m r.
Proof. intros H. unfold sub. simpl. now rewrite H. Qed.

Lemma newlines_matcher_other c r :
  c <> PyStr.NL -> newlines_matcher (c :: r) = None.
Proof.
  intros H. unfold newlines_matcher. cbn [run].
  destruct (N.eqb_spec PyStr.NL c); [congruence|reflexivity].
Qed.

Lemma newlines_matcher_rep s k rep :
  newlines_matcher s = Some (k, rep) -> rep = [PyStr.NL; PyStr.NL].
Proof.
  unfold newlines_matcher. destruct (3 <=? _); [|discriminate].
  now intros [= _ <-].
Qed.

Lemma hspace_matcher_other c r : hspace c = false -> hspace_matcher (c :: r) = None.
Proof. intros H. unfold hspace_matcher. cbn [run]. now rewrite H. Qed.

Lemma hspace_matcher_hit c r :
  hspace c = true ->
  hspace_matcher (c :: r) = Some (S (run hspace r), [PyStr.SP]).
Proof. intros H. unfold hspace_matcher. cbn [run]. now rewrite H. Qed.

Lemma hspace_matcher_rep s k rep :
  hspace_matcher s = Some (k, rep) -> rep = [PyStr.SP].
Proof.
  unfold hspace_matcher. destruct (run hspace s); [discriminate|].
  now intros [= _ <-].
Qed.

(** *** Trimming *)

Lemma lstrip_suffix s : exists p, s = p ++ PyStr.lstrip s.
Proof.
  induction s as [|c r [p IH]]; simpl; [now exists []|].
  destruct (PyStr.is_space c).
  - exists (c :: p). simpl. now f_equal.
  - now exists [].
Qed.

Lemma lstrip_head_ok s : head_ok (PyStr.lstrip s).
Proof.
  induction s as [|c r IH]; simpl; auto.
  destruct (PyStr.is_space c) eqn:E; auto.
Qed.

Lemma lstrip_id s : head_ok s -> PyStr.lstrip s = s.
Proof. destruct s as [|c r]; simpl; auto. now intros ->. Qed.

Lemma rstrip_prefix s : exists t, s = PyStr.rstrip s ++ t.
Proof.
  unfold PyStr.rstrip. destruct (lstrip_suffix (rev s)) as [p E].
  exists (rev p). rewrite <- rev_app_distr, <- E. now rewrite rev_involutive.
Qed.

Lemma rstrip_last_ok s : last_ok (PyStr.rstrip s).
Proof.
  unfold last_ok, PyStr.rstrip. rewrite rev_involutive. apply lstrip_head_ok.
Qed.

Lemma rstrip_id s : last_ok s -> PyStr.rstrip s = s.
Proof.
  unfold last_ok, PyStr.rstrip. intros H.
  rewrite lstrip_id by assumption. apply rev_involutive.
Qed.

Lemma rstrip_head_ok s : head_ok s -> head_ok (PyStr.rstrip s).
Proof.
  destruct (rstrip_prefix s) as [t E]. revert E.
  destruct (PyStr.rstrip s) as [|c r]; simpl; auto.
  intros -> H. exact H.
Qed.

Lemma strip_ok s : head_ok (PyStr.strip s) /\ last_ok (PyStr.strip s).
Proof.
  unfold PyStr.strip. split.
  - apply rstrip_head_ok, lstrip_head_ok.
  - apply rstrip_last_ok.
Qed.

Lemma strip_id s : head_ok s -> last_ok s -> PyStr.strip s = s.
Proof.
  intros Hh Hl. unfold PyStr.strip. rewrite lstrip_id by assumption.
  now apply rstrip_id.
Qed.

(** *** The ends of a trimmed text survive the two collapses *)

Lemma hspace_is_space c : hspace c = true -> PyStr.is_space c = true.
Proof.
  unfold hspace. rewrite orb_true_iff, !N.eqb_eq. now intros [->| ->].
Qed.

Lemma hspace_not_space c : PyStr.is_space c = false -> hspace c = false.
Proof.
  intros H. destruct (hspace c) eqn:E; auto.
  apply hspace_is_space in E. congruence.
Qed.

Lemma newline_not_space c : PyStr.is_space c = false -> c <> PyStr.NL.
Proof. intros H ->. discriminate. Qed.

Lemma run_snoc p s d : p d = false -> run p (s ++ [d]) = run p s.
Proof.
  intros H. induction s as [|c r IH]; simpl; [now rewrite H|].
  destruct (p c); auto.
Qed.

Lemma run_le p s : run p s <= length s.
Proof. induction s as [|c r IH]; simpl; [lia|]. destruct (p c); lia. Qed.

Lemma sub_snoc m d :
  m [d] = None ->
  (forall c s, m (c :: s ++ [d]) = m (c :: s)) ->
  (forall s k rep, m s = Some (k, rep) -> k <= length s) ->
  forall s k, k <= length s -> sub_skip m k (s ++ [d]) = sub_skip m k s ++ [d].
Proof.
  intros Hd Hm Hb s. induction s as [|c r IH]; intros k Hk.
  - simpl in Hk. assert (k = 0) as -> by lia. simpl. now rewrite Hd.
  - cbn [app sub_skip]. destruct k as [|k].
    + rewrite Hm. destruct (m (c :: r)) as [[[|n] rep]|] eqn:E.
      * simpl. now rewrite IH by lia.
      * apply Hb in E. simpl in E. rewrite IH by lia. now rewrite app_assoc.
      * simpl. now rewrite IH by lia.
    + simpl in Hk. apply IH. lia.
Qed.

Lemma hspace_sub_snoc s d :
  PyStr.is_space d = false ->
  sub hspace_matcher (s ++ [d]) = sub hspace_matcher s ++ [d].
Proof.
  intros H. apply hspace_not_space in H. unfold sub. apply sub_snoc; try lia.
  - now apply hspace_matcher_other.
  - intros c r. unfold hspace_matcher.
    change (c :: r ++ [d]) with ((c :: r) ++ [d]). now rewrite run_snoc.
  - intros r k rep. unfold hspace_matcher.
    pose proof (run_le hspace r).
    destruct (run hspace r); [discriminate|]. intros [= <- _]. lia.
Qed.

Lemma newlines_sub_snoc s d :
  PyStr.is_space d = false ->
  sub newlines_matcher (s ++ [d]) = sub newlines_matcher s ++ [d].
Proof.
  intros H. apply newline_not_space in H. unfold sub. apply sub_snoc; try lia.
  - now apply newlines_matcher_other.
  - intros c r. unfold newlines_matcher.
    change (c :: r ++ [d]) with ((c :: r) ++ [d]). rewrite run_snoc; auto.
    now apply N.eqb_neq.
  - intros r k rep. unfold newlines_matcher.
    pose proof (run_le (N.eqb PyStr.NL) r).
    destruct (3 <=? _); [|discriminate]. intros [= <- _]. lia.
Qed.

Lemma last_ok_snoc s d : last_ok (s ++ [d]) <-> PyStr.is_space d = false.
Proof. unfold last_ok. rewrite rev_unit. reflexivity. Qed.

Lemma sub_keeps_ends m s :
  (forall c r, PyStr.is_space c = false -> m (c :: r) = None) ->
  (forall r d, PyStr.is_space d = false -> sub m (r ++ [d]) = sub m r ++ [d]) ->
  head_ok s -> last_ok s -> head_ok (sub m s) /\ last_ok (sub m s).
Proof.
  intros Hnone Hsnoc Hh Hl. split.
  - destruct s as [|c r]; simpl in *; auto.
    rewrite copy_at by auto. exact Hh.
  - destruct (exists_last_or_nil s) as [->|(r & d & ->)]; auto.
    apply last_ok_snoc in Hl. rewrite Hsnoc by assumption.
    now apply last_ok_snoc.
Qed.

(** *** What the two collapses return is stable for them *)

Lemma hspace_normal s :
  (stable hspace_matcher (sub_skip hspace_matcher (run hspace s) s)
   /\ run hspace (sub_skip hspace_matcher (run hspace s) s) = 0)
  /\ stable hspace_matcher (sub hspace_matcher s).
Proof.
  induction s as [|c r [[IH1 IH0] IH2]]; [simpl; auto|].
  assert (Hcopy : hspace c = false ->
                  stable hspace_matcher (c :: sub hspace_matcher r)
                  /\ run hspace (c :: sub hspace_matcher r) = 0).
  { intros E. cbn [stable run]. rewrite E.
    repeat split; auto. left. now apply hspace_matcher_other. }
  unfold sub. cbn [run sub_skip]. destruct (hspace c) eqn:E.
  - split; [auto|].
    rewrite hspace_matcher_hit by assumption.
    cbn [app stable]. split; [|exact IH1].
    right. rewrite hspace_matcher_hit by reflexivity. now rewrite IH0.
  - rewrite hspace_matcher_other by assumption.
    destruct (Hcopy eq_refl) as [H1 H2]. auto.
Qed.

Lemma newlines_settled c r :
  run is_nl (c :: r) < 3 -> newlines_matcher (c :: r) = None.
Proof.
  intros H. unfold newlines_matcher. fold is_nl.
  destruct (Nat.leb_spec 3 (run is_nl (c :: r))); [lia|reflexivity].
Qed.

Lemma run_nl_hit r : run is_nl (PyStr.NL :: r) = S (run is_nl r).
Proof. reflexivity. Qed.

Lemma run_nl_other c r : c <> PyStr.NL -> run is_nl (c :: r) = 0.
Proof.
  intros H. cbn [run]. unfold is_nl.
  destruct (N.eqb_spec PyStr.NL c); [congruence|reflexivity].
Qed.

Lemma newlines_matcher_hit r :
  3 <= S (run is_nl r) ->
  newlines_matcher (PyStr.NL :: r)
  = Some (S (run is_nl r), [PyStr.NL; PyStr.NL]).
Proof.
  intros H. unfold newlines_matcher. fold is_nl. rewrite run_nl_hit.
  destruct (Nat.leb_spec 3 (S (run is_nl r))); [reflexivity|lia].
Qed.

Lemma newlines_normal s :
  (stable newlines_matcher (sub_skip newlines_matcher (run is_nl s) s)
   /\ run is_nl (sub_skip newlines_matcher (run is_nl s) s) = 0)
  /\ (stable newlines_matcher (sub newlines_matcher s)
      /\ run is_nl (sub newlines_matcher s) = Nat.min (run is_nl s) 2).
Proof.
  induction s as [|c r [[IH1 IH0] [IH2 IHm]]]; [simpl; auto|].
  unfold sub in *. destruct (N.eqb_spec c PyStr.NL) as [->|Hc].
  - rewrite run_nl_hit. cbn [sub_skip]. split; [auto|].
    destruct (Nat.le_gt_cases 3 (S (run is_nl r))) as [H3|H3].
    + rewrite newlines_matcher_hit by assumption.
      cbn [app stable]. rewrite !run_nl_hit, IH0.
      repeat split; auto; try lia.
      * left. apply newlines_settled. rewrite !run_nl_hit, IH0. lia.
      * left. apply newlines_settled. rewrite run_nl_hit, IH0. lia.
    + rewrite newlines_settled by (rewrite run_nl_hit; lia).
      cbn [stable]. rewrite run_nl_hit, IHm. repeat split; auto; [|lia].
      left. apply newlines_settled. rewrite run_nl_hit, IHm. lia.
  - rewrite run_nl_other by assumption. cbn [sub_skip].
    rewrite newlines_matcher_other by assumption.
    cbn [stable]. rewrite run_nl_other by assumption.
    repeat split; auto; left; now apply newlines_matcher_other.
Qed.

Lemma newlines_keeps_head d r :
  exists X, sub newlines_matcher (d :: r) = d :: X.
Proof.
  unfold sub. cbn [sub_skip].
  destruct (newlines_matcher (d :: r)) as [[[|n] rep]|] eqn:E; eauto.
  pose proof (newlines_matcher_rep _ E) as ->.
  destruct (N.eqb_spec d PyStr.NL) as [->|Hd].
  - simpl. eauto.
  - rewrite newlines_matcher_other in E by assumption. discriminate.
Qed.

Lemma newlines_keep_hspace_stable s :
  stable hspace_matcher s -> stable hspace_matcher (sub newlines_matcher s).
Proof.
  apply sub_keeps_stable.
  - intros t k rep x u E Hx. apply newlines_matcher_rep in E as ->.
    apply hspace_matcher_other.
    destruct Hx as [<-|[<-|[]]]; reflexivity.
  - intros c r. unfold settled. destruct (hspace c) eqn:E.
    + rewrite !hspace_matcher_hit by assumption.
      intros [H|H]; [discriminate|]. right.
      injection H as Hrun Hc. rewrite <- Hc. f_equal. f_equal. f_equal.
      destruct r as [|d r]; [reflexivity|].
      destruct (newlines_keeps_head d r) as [X ->].
      simpl in *. destruct (hspace d); [discriminate|reflexivity].
    + intros _. left. now apply hspace_matcher_other.
Qed.

Lemma no_nbsp_stable s :
  PyStr.contains NBSP s = false -> stable nbsp_matcher s.
Proof.
  induction s as [|c r IH]; cbn [PyStr.contains stable]; auto.
  rewrite orb_false_iff. intros [H1 H2]. split; auto.
  left. unfold nbsp_matcher, replace_matcher. now rewrite H1.
Qed.

Lemma plain_steps_normal remove_tags x : normal (plain_steps remove_tags x).
Proof.
  unfold plain_steps, finish.
  set (u := sub nbsp_matcher (remove_tags x)).
  set (w := PyStr.strip u).
  set (v := sub hspace_matcher w).
  destruct (strip_ok u) as [Hwh Hwl]. fold w in Hwh, Hwl.
  destruct (sub_keeps_ends hspace_matcher w) as [Hvh Hvl]; auto.
  { intros c r Hc. now apply hspace_matcher_other, hspace_not_space. }
  { intros r d Hd. now apply hspace_sub_snoc. }
  fold v in Hvh, Hvl.
  destruct (sub_keeps_ends newlines_matcher v) as [Hyh Hyl]; auto.
  { intros c r Hc. now apply newlines_matcher_other, newline_not_space. }
  { intros r d Hd. now apply newlines_sub_snoc. }
  split; auto.
  - apply newlines_keep_hspace_stable. apply hspace_normal.
  - apply newlines_normal.
Qed.

Lemma plain_steps_fixed remove_tags y :
  remove_tags y = y ->
  normal y -> PyStr.contains NBSP y = false -> plain_steps remove_tags y = y.
Proof.
  intros Ht [Hh Hl Hs Hn] Hnb. unfold plain_steps, finish. rewrite Ht.
  rewrite (stable_sub _ _ (no_nbsp_stable _ Hnb)).
  rewrite strip_id by assumption.
  rewrite (stable_sub _ _ Hs). now apply stable_sub.
Qed.

End NormalFacts.

(** *** A text that still contains "&nbsp;" gets shorter *)

Module ShrinkFacts.
Import Scan ScanFacts Normal NormalFacts.

(** When every match lies inside the text and its replacement is not
    longer than the match, the substitution does not lengthen the text. *)
Lemma length_sub_skip m :
  (forall s k rep, m s = Some (k, rep) -> length rep <= k <= length s) ->
  forall s k, length (sub_skip m k s) <= length s - k.
Proof.
  intros Hm s. induction s as [|c r IH]; intros k; cbn [sub_skip].
  - simpl. lia.
  - destruct k as [|k]; [|apply IH].
    destruct (m (c :: r)) as [[[|n] rep]|] eqn:E.
    + specialize (IH 0). simpl in *. lia.
    + apply Hm in E. specialize (IH n). rewrite length_app. simpl in *. lia.
    + specialize (IH 0). simpl in *. lia.
Qed.

Lemma strip_prefix_length p : forall s r,
  PyStr.strip_prefix p s = Some r -> length s = length p + length r.
Proof.
  induction p as [|x p IH]; intros [|y s] r; simpl; try discriminate.
  - now intros [= <-].
  - now intros [= <-].
  - destruct (N.eqb x y); [|discriminate]. intros H. apply IH in H. lia.
Qed.

Lemma nbsp_matcher_bounds s k rep :
  nbsp_matcher s = Some (k, rep) -> length rep <= k <= length s.
Proof.
  unfold nbsp_matcher, replace_matcher, PyStr.startswith.
  destruct (PyStr.strip_prefix NBSP s) as [r|] eqn:E; [|discriminate].
  intros [= <- <-]. apply strip_prefix_length in E. simpl in *. lia.
Qed.

Lemma hspace_matcher_bounds s k rep :
  hspace_matcher s = Some (k, rep) -> length rep <= k <= length s.
Proof.
  unfold hspace_matcher. pose proof (run_le hspace s).
  destruct (run hspace s); [discriminate|]. intros [= <- <-]. simpl. lia.
Qed.

Lemma newlines_matcher_bounds s k rep :
  newlines_matcher s = Some (k, rep) -> length rep <= k <= length s.
Proof.
  unfold newlines_matcher. pose proof (run_le (N.eqb PyStr.NL) s).
  destruct (Nat.leb_spec 3 (run (N.eqb PyStr.NL) s)); [|discriminate].
  intros [= <- <-]. simpl. lia.
Qed.

Lemma length_sub m s :
  (forall s k rep, m s = Some (k, rep) -> length rep <= k <= length s) ->
  length (sub m s) <= length s.
Proof. intros H. pose proof (@length_sub_skip m H s 0). unfold sub. lia. Qed.

(** Deleting "&nbsp;" shortens a text that contains it. *)
Lemma nbsp_shrinks s :
  PyStr.contains NBSP s = true -> length (sub nbsp_matcher s) < length s.
Proof.
  induction s as [|c r IH]; cbn [PyStr.contains].
  - discriminate.
  - unfold sub. cbn [sub_skip]. unfold nbsp_matcher at 1, replace_matcher.
    destruct (PyStr.startswith (c :: r) NBSP) eqn:E.
    + intros _. cbn [length NBSP lit]. simpl length.
      pose proof (@length_sub_skip _ nbsp_matcher_bounds r 5). lia.
    + simpl. intros H. apply IH in H. unfold sub in H. lia.
Qed.

Lemma length_strip s : length (PyStr.strip s) <= length s.
Proof.
  unfold PyStr.strip.
  destruct (rstrip_prefix (PyStr.lstrip s)) as [t E].
  destruct (lstrip_suffix s) as [p E'].
  apply (f_equal (@length _)) in E, E'. rewrite length_app in E, E'. lia.
Qed.

(** The steps do not lengthen the text the remover returns. *)
Lemma plain_steps_length remove_tags y :
  length (plain_steps remove_tags y) <= length (remove_tags y).
Proof.
  unfold plain_steps, finish.
  pose proof (@length_sub nbsp_matcher (remove_tags y) nbsp_matcher_bounds).
  pose proof (length_strip (sub nbsp_matcher (remove_tags y))).
  pose proof (@length_sub _ (PyStr.strip (sub nbsp_matcher (remove_tags y)))
                          hspace_matcher_bounds).
  pose proof (@length_sub _
                (sub hspace_matcher
                     (PyStr.strip (sub nbsp_matcher (remove_tags y))))
                newlines_matcher_bounds).
  lia.
Qed.

Lemma plain_steps_shrinks remove_tags y :
  remove_tags y = y ->
  PyStr.contains NBSP y = true ->
  length (plain_steps remove_tags y) < length y.
Proof.
  intros Ht Hc. unfold plain_steps, finish. rewrite Ht.
  pose proof (nbsp_shrinks _ Hc).
  pose proof (length_strip (sub nbsp_matcher y)).
  pose proof (@length_sub _ (PyStr.strip (sub nbsp_matcher y))
                          hspace_matcher_bounds).
  pose proof (@length_sub _
                (sub hspace_matcher (PyStr.strip (sub nbsp_matcher y)))
                newlines_matcher_bounds).
  lia.
Qed.

(** A text that the steps return unchanged has no tag for the remover and
    no "&nbsp;". *)
Lemma plain_steps_fixed_inv remove_tags y :
  deletes_only remove_tags ->
  plain_steps remove_tags y = y ->
  remove_tags y = y /\ PyStr.contains NBSP y = false.
Proof.
  intros Hd E.
  assert (Ht : remove_tags y = y).
  { apply SubseqFacts.subseq_same_length; [apply Hd|].
    pose proof (SubseqFacts.subseq_length (Hd y)).
    pose proof (plain_steps_length remove_tags y). rewrite E in *. lia. }
  split; [exact Ht|].
  destruct (PyStr.contains NBSP y) eqn:Hc; [|reflexivity].
  pose proof (plain_steps_shrinks _ Ht Hc) as Hlt.
  rewrite E in Hlt. lia.
Qed.

End ShrinkFacts.

(** C6, as the code has it: normalising twice gives what normalising once
    gives exactly when the normalised text has no tag left for
    [remove_tags] and contains no "&nbsp;". *)
Theorem to_plain_text_idempotent (remove_tags : str -> str) (x : str) :
  deletes_only remove_tags ->
  let y := to_plain_text remove_tags x in
  to_plain_text remove_tags y = y
  <-> remove_tags y = y /\ PyStr.contains NBSP y = false.
Proof.
  intros Hd y. unfold y.
  rewrite !(TextFacts.to_plain_text_plain_steps _ Hd).
  pose proof (NormalFacts.plain_steps_normal remove_tags x) as Hn. split.
  - now apply ShrinkFacts.plain_steps_fixed_inv.
  - intros [Ht Hc]. now apply NormalFacts.plain_steps_fixed.
Qed.

Lemma to_plain_text_idempotent_witness :
  to_plain_text W3lib24.remove_tags
                (to_plain_text W3lib24.remove_tags sample_html)
  = to_plain_text W3lib24.remove_tags sample_html.
Proof.
  apply (proj2 (@to_plain_text_idempotent W3lib24.remove_tags sample_html
                                          SubseqFacts.remove_tags_deletes)).
  vm_compute. split; reflexivity.
Defined.

(** C6, as the specification states it, fails: the single scan of
    [str.replace] leaves a new "&nbsp;" behind where it deleted one inside
    another, and the second normalisation deletes that one.  The text has
    no angle bracket, so that no remover finds a tag in it. *)
Lemma to_plain_text_not_idempotent :
  to_plain_text W3lib24.remove_tags (lit "&nb&nbsp;sp;") = lit "&nbsp;"
  /\ to_plain_text W3lib24.remove_tags
                   (to_plain_text W3lib24.remove_tags (lit "&nb&nbsp;sp;"))
     = []
  /\ to_plain_text W3lib24.remove_tags
                   (to_plain_text W3lib24.remove_tags (lit "&nb&nbsp;sp;"))
     <> to_plain_text W3lib24.remove_tags (lit "&nb&nbsp;sp;").
Proof. repeat split. vm_compute. discriminate. Qed.

(** ** The normal form, in terms of the characters of the text *)

Module ShapeFacts.
Import Scan Normal NormalFacts.

Lemma hspace_cases c : hspace c = true -> c = PyStr.SP \/ c = PyStr.TAB.
Proof.
  unfold hspace. rewrite orb_true_iff, !N.eqb_eq. tauto.
Qed.

Lemma hspace_stable_iff s :
  stable hspace_matcher s
  <-> ~ In PyStr.TAB s /\ forall p q, s <> p ++ PyStr.SP :: PyStr.SP :: q.
Proof.
  induction s as [|c r IH].
  - split; [intros _|intros _; exact I].
    split; [intros []|intros [|] ? ?; discriminate].
  - cbn [stable]. split.
    + intros [Hc Hr]. apply IH in Hr. destruct Hr as [Ht Hd]. split.
      * intros [->|Hin]; [|auto].
        rewrite hspace_matcher_hit in Hc by reflexivity.
        destruct Hc as [Hc|Hc]; discriminate.
      * intros [|x p] q E; cbn [app] in E.
        -- injection E as -> ->.
           rewrite hspace_matcher_hit in Hc by reflexivity.
           destruct Hc as [Hc|Hc]; [discriminate|].
           cbn [run] in Hc. change (hspace PyStr.SP) with true in Hc.
           discriminate.
        -- injection E as _ E. exact (Hd _ _ E).
    + intros [Ht Hd]. split.
      * destruct (hspace c) eqn:Hh.
        -- right. rewrite hspace_matcher_hit by exact Hh.
           destruct (hspace_cases _ Hh) as [->| ->];
             [|exfalso; apply Ht; left; reflexivity].
           destruct r as [|d r']; [reflexivity|].
           cbn [run]. destruct (hspace d) eqn:Hd'; [|reflexivity].
           exfalso. destruct (hspace_cases _ Hd') as [->| ->].
           ++ exact (Hd [] r' eq_refl).
           ++ apply Ht. right. left. reflexivity.
        -- left. apply hspace_matcher_other. exact Hh.
      * apply IH. split.
        -- intros Hin. apply Ht. right. exact Hin.
        -- intros p q E. apply (Hd (c :: p) q). rewrite E. reflexivity.
Qed.

Lemma run_nl_three s :
  3 <= run is_nl s -> exists q, s = PyStr.NL :: PyStr.NL :: PyStr.NL :: q.
Proof.
  assert (step : forall t n, S n <= run is_nl t ->
                             exists t', t = PyStr.NL :: t' /\ n <= run is_nl t').
  { intros [|c t] n H; cbn [run] in H; [lia|].
    destruct (is_nl c) eqn:E; [|lia].
    apply N.eqb_eq in E. subst c. exists t. split; [reflexivity|lia]. }
  intros H.
  destruct (step _ _ H) as (t1 & -> & H1).
  destruct (step _ _ H1) as (t2 & -> & H2).
  destruct (step _ _ H2) as (t3 & -> & _).
  exists t3. reflexivity.
Qed.

Lemma newlines_stable_iff s :
  stable newlines_matcher s
  <-> forall p q, s <> p ++ PyStr.NL :: PyStr.NL :: PyStr.NL :: q.
Proof.
  induction s as [|c r IH].
  - split; [intros _ [|] ? ?; discriminate|intros _; exact I].
  - cbn [stable]. split.
    + intros [Hc Hr] [|x p] q E; cbn [app] in E.
      * injection E as -> ->.
        rewrite newlines_matcher_hit in Hc
          by (rewrite !run_nl_hit; lia).
        destruct Hc as [Hc|Hc]; discriminate.
      * injection E as _ E. rewrite IH in Hr. exact (Hr _ _ E).
    + intros Hd. split.
      * left. apply newlines_settled.
        destruct (Nat.lt_ge_cases (run is_nl (c :: r)) 3) as [Hlt|Hge];
          [exact Hlt|].
        exfalso. destruct (run_nl_three _ Hge) as [q E].
        exact (Hd [] q E).
      * apply IH. intros p q E. apply (Hd (c :: p) q). rewrite E. reflexivity.
Qed.

Lemma trimmed_iff s : head_ok s /\ last_ok s <-> PyStr.strip s = s.
Proof.
  split.
  - intros [Hh Hl]. apply NormalFacts.strip_id; assumption.
  - intros E. rewrite <- E. apply NormalFacts.strip_ok.
Qed.

(** The normal form, read on the characters. *)
Lemma normal_iff y :
  normal y
  <-> PyStr.strip y = y
      /\ ~ In PyStr.TAB y
      /\ (forall p q, y <> p ++ PyStr.SP :: PyStr.SP :: q)
      /\ (forall p q, y <> p ++ PyStr.NL :: PyStr.NL :: PyStr.NL :: q).
Proof.
  rewrite <- trimmed_iff, <- newlines_stable_iff.
  split.
  - intros [Hh Hl Hs Hn]. apply hspace_stable_iff in Hs.
    tauto.
  - intros ([Hh Hl] & Htab & Hd & Hn).
    constructor; try assumption.
    apply hspace_stable_iff. tauto.
Qed.

End ShapeFacts.

(** X1: whatever the input and the tag remover, the text [to_plain_text]
    returns has no whitespace at either end, no tab, no two adjacent
    spaces and no three adjacent newlines. *)
Theorem to_plain_text_shape (remove_tags : str -> str) (html : str) :
  let y := to_plain_text remove_tags html in
  PyStr.strip y = y
  /\ ~ In PyStr.TAB y
  /\ (forall p q, y <> p ++ PyStr.SP :: PyStr.SP :: q)
  /\ (forall p q, y <> p ++ PyStr.NL :: PyStr.NL :: PyStr.NL :: q).
Proof.
  cbv zeta. destruct html as [|c r].
  - simpl. repeat split; auto; intros [|? ?] ? ?; discriminate.
  - rewrite TextFacts.to_plain_text_steps by discriminate.
    apply ShapeFacts.normal_iff. apply NormalFacts.plain_steps_normal.
Qed.

(** X2: the texts [to_plain_text] returns unchanged are exactly those
    with no tag (the remover leaves them as they are), no literal
    "&nbsp;", no whitespace at either end, no tab, no two adjacent spaces
    and no three adjacent newlines. *)
Theorem to_plain_text_fixed_points (remove_tags : str -> str) (y : str) :
  deletes_only remove_tags ->
  to_plain_text remove_tags y = y
  <-> remove_tags y = y
      /\ PyStr.contains NBSP y = false
      /\ PyStr.strip y = y
      /\ ~ In PyStr.TAB y
      /\ (forall p q, y <> p ++ PyStr.SP :: PyStr.SP :: q)
      /\ (forall p q, y <> p ++ PyStr.NL :: PyStr.NL :: PyStr.NL :: q).
Proof.
  intros Hd. rewrite (TextFacts.to_plain_text_plain_steps _ Hd). split.
  - intros E.
    assert (Hn : Normal.normal y)
      by (rewrite <- E; apply NormalFacts.plain_steps_normal).
    destruct (ShrinkFacts.plain_steps_fixed_inv Hd E) as [Ht Hc].
    apply ShapeFacts.normal_iff in Hn. tauto.
  - intros (Ht & Hc & Hrest).
    apply NormalFacts.plain_steps_fixed; [exact Ht| |exact Hc].
    apply ShapeFacts.normal_iff. tauto.
Qed.

Lemma to_plain_text_fixed_points_witness :
  to_plain_text W3lib24.remove_tags (lit "Hello big world")
  = lit "Hello big world".
Proof.
  apply (proj2 (@to_plain_text_fixed_points
                  W3lib24.remove_tags (lit "Hello big world")
                  SubseqFacts.remove_tags_deletes)).
  split; [reflexivity|]. split; [reflexivity|]. split; [reflexivity|].
  split; [|split].
  - vm_compute. intuition discriminate.
  - intros p q E.
    do 15 (destruct p as [|? p]; [discriminate|];
           injection E as _ E).
    destruct p; discriminate.
  - intros p q E.
    do 15 (destruct p as [|? p]; [discriminate|];
           injection E as _ E).
    destruct p; discriminate.
Defined.

(** X3: [to_plain_text] never returns a text longer than its input. *)
Theorem to_plain_text_length (remove_tags : str -> str) (html : str) :
  deletes_only remove_tags ->
  length (to_plain_text remove_tags html) <= length html.
Proof.
  intros Hd. rewrite (TextFacts.to_plain_text_plain_steps _ Hd).
  pose proof (ShrinkFacts.plain_steps_length remove_tags html).
  pose proof (SubseqFacts.subseq_length (Hd html)). lia.
Qed.

Lemma to_plain_text_length_witness :
  length (to_plain_text W3lib24.remove_tags sample_html)
  <= length sample_html.
Proof.
  apply (@to_plain_text_length W3lib24.remove_tags sample_html
                               SubseqFacts.remove_tags_deletes).
Defined.

(** ** The date parser: what it returns, and what it ignores *)

Module DateFacts.

Lemma first_some_inv {A B : Type} (f : A -> option B) l b :
  first_some f l = Some b -> exists a, In a l /\ f a = Some b.
Proof.
  induction l as [|a l IH]; cbn [first_some]; [discriminate|].
  destruct (f a) as [b'|] eqn:E.
  - intros H. injection H as <-. exists a. split; [left; reflexivity|exact E].
  - intros H. destruct (IH H) as (a' & Hin & Ha).
    exists a'. split; [right; exact Hin|exact Ha].
Qed.

Lemma new_inv y m d dt :
  Date.new y m d = Some dt ->
  dt = mkdate y m d
  /\ (1 <= y <= 9999 /\ 1 <= m <= 12 /\ 1 <= d <= Date.days_in_month y m)%Z.
Proof.
  unfold Date.new.
  destruct ((1 <=? y)%Z && (y <=? 9999)%Z && (1 <=? m)%Z && (m <=? 12)%Z
            && (1 <=? d)%Z && (d <=? Date.days_in_month y m)%Z) eqn:E;
    [|discriminate].
  intros H. injection H as <-.
  rewrite !andb_true_iff, !Z.leb_le in E. split; [reflexivity|lia].
Qed.

Lemma strptime_date_valid decimal s fmt dt :
  Strptime.strptime_date decimal s fmt = Some dt ->
  Date.new (year dt) (month dt) (day dt) = Some dt.
Proof.
  unfold Strptime.strptime_date, Strptime.convert.
  destruct (Strptime.regex_match decimal fmt Strptime.no_group s)
    as [[g [|]]|]; try discriminate.
  destruct (match Strptime.grp_Y g with
            | Some t => Strptime.int_group decimal t
            | None => Some 1900%Z
            end) as [y|]; [|discriminate].
  destruct (Strptime.month_of g) as [m|]; [|discriminate].
  destruct (match Strptime.grp_d g with
            | Some t => Strptime.int_group decimal t
            | None => Some 1%Z
            end) as [d|]; [|discriminate].
  intros H. destruct (new_inv _ _ _ H) as [-> _]. exact H.
Qed.

Lemma strip_strip s : PyStr.strip (PyStr.strip s) = PyStr.strip s.
Proof.
  apply NormalFacts.strip_id; apply NormalFacts.strip_ok.
Qed.

Lemma parse_date_blank decimal s :
  PyStr.strip s = [] -> parse_date decimal s = None.
Proof.
  intros E. unfold parse_date.
  destruct (negb (PyStr.truthy s)); [reflexivity|].
  rewrite E. reflexivity.
Qed.

End DateFacts.

(** X4: a date that [parse_date] returns exists in the calendar: its year
    is between 1 and 9999, its month between 1 and 12, and its day
    between 1 and the number of days of that month in that year. *)
Theorem parse_date_valid (decimal : char -> option N) (date_str : str) (d : date) :
  parse_date decimal date_str = Some d ->
  (1 <= year d <= 9999
   /\ 1 <= month d <= 12
   /\ 1 <= day d <= Date.days_in_month (year d) (month d))%Z.
Proof.
  unfold parse_date.
  destruct (negb (PyStr.truthy date_str)); [discriminate|].
  intros H. apply DateFacts.first_some_inv in H.
  destruct H as (fmt & _ & H).
  apply DateFacts.strptime_date_valid in H.
  apply DateFacts.new_inv in H. tauto.
Qed.

Lemma parse_date_valid_witness :
  parse_date ascii_decimal (lit "29 February 2024") = Some (mkdate 2024 2 29)
  /\ (1 <= 2024 <= 9999 /\ 1 <= 2 <= 12
      /\ 1 <= 29 <= Date.days_in_month 2024 2)%Z.
Proof.
  assert (H : parse_date ascii_decimal (lit "29 February 2024")
              = Some (mkdate 2024 2 29)) by (vm_compute; reflexivity).
  split; [exact H|exact (parse_date_valid _ _ H)].
Defined.

(** X5: [parse_date] ignores whitespace around the text, and gives no date
    for a text that is empty or all whitespace. *)
Theorem parse_date_strip (decimal : char -> option N) (date_str : str) :
  parse_date decimal (PyStr.strip date_str) = parse_date decimal date_str
  /\ (PyStr.strip date_str = [] -> parse_date decimal date_str = None).
Proof.
  split; [|apply DateFacts.parse_date_blank].
  destruct (PyStr.strip date_str) as [|c r] eqn:E.
  - rewrite (DateFacts.parse_date_blank decimal date_str E). reflexivity.
  - unfold parse_date at 1. cbn [PyStr.truthy negb].
    rewrite <- E, DateFacts.strip_strip.
    unfold parse_date.
    destruct date_str as [|x t]; [discriminate E|].
    reflexivity.
Qed.

(** ** The homepage *)

Module HomeFacts.

Lemma lt_irrefl a : ~ PyStr.lt a a.
Proof.
  unfold PyStr.lt. induction a as [|x a IH]; cbn [PyStr.compare];
    [discriminate|].
  rewrite N.compare_refl. exact IH.
Qed.

Lemma sorted_NoDup l : StronglySorted PyStr.lt l -> NoDup l.
Proof.
  induction 1 as [|a l Hs IH Ha]; constructor; [|exact IH].
  intros Hin. rewrite Forall_forall in Ha.
  exact (lt_irrefl (Ha _ Hin)).
Qed.

(** What the calls of a loop that return, and the exception that ends it,
    are. *)
Lemma attempts_spec {A B : Type} (f : A -> result B) l :
  Forall2 (fun a b => f a = Returns b)
          (firstn (length (fst (attempts f l))) l) (fst (attempts f l))
  /\ match snd (attempts f l) with
     | None => length (fst (attempts f l)) = length l
     | Some x =>
       exists a, nth_error l (length (fst (attempts f l))) = Some a
                 /\ f a = Raises x
     end.
Proof.
  induction l as [|a l [IH1 IH2]]; cbn [attempts].
  - simpl. split; [constructor|reflexivity].
  - destruct (f a) as [b|x] eqn:E.
    + destruct (attempts f l) as [bs e]. cbn [fst snd length firstn] in *.
      split; [constructor; assumption|].
      destruct e as [x|]; [exact IH2|now rewrite IH2].
    + simpl. split; [constructor|]. exists a. split; [reflexivity|exact E].
Qed.

Lemma section_requests_spec request_url urls :
  section_requests request_url urls
  = mkOutcome
      (map (fun p => mkSectionRequest (snd p) parse_section_cb (fst p))
           (combine urls (fst (attempts (request_url (lit "utf-8")) urls))))
      (snd (attempts (request_url (lit "utf-8")) urls)).
Proof.
  induction urls as [|u urls IH]; cbn [section_requests attempts].
  - reflexivity.
  - destruct (request_url (lit "utf-8") u) as [v|e]; [|reflexivity].
    rewrite IH.
    destruct (attempts (request_url (lit "utf-8")) urls) as [vs e].
    reflexivity.
Qed.

Lemma parse_run urljoin request_url response w :
  run (parse urljoin request_url response) w
  = (match traverse (urljoin (resp_base_url response))
                    (channel_links response) with
     | Raises e => mkOutcome [] (Some e)
     | Returns resolved =>
       section_requests request_url (sorted_set resolved)
     end,
     mkWorld (seen w)
             (queries w ++ sel_menu
                :: match resp_getall response sel_menu with
                   | [] => [sel_header]
                   | _ :: _ => []
                   end)).
Proof.
  unfold run, parse, bind, css_getall, ret, channel_links, homepage_links,
    resolve_all, response_urljoin.
  cbn beta iota zeta.
  destruct (resp_getall response sel_menu) as [|a l]; cbn [seen queries].
  - rewrite <- app_assoc.
    destruct (traverse _ _); reflexivity.
  - destruct (traverse _ _); reflexivity.
Qed.

End HomeFacts.

(** X6: the homepage callback takes the links that contain "/channel/"
    from the menu, or from the header when the menu has no link at all,
    and resolves them against the page; when [urljoin] raises on one of
    them it raises and yields nothing.  Otherwise it goes through the
    distinct resolved URLs in strictly ascending order and yields one
    request for the listing callback per URL, up to the first URL that
    [scrapy.Request] raises on (one without scheme), where it raises.
    Each request carries the URL as [scrapy.Request] keeps it, and the
    URL as it was resolved as section URL.  The store is left as it
    was. *)
Theorem parse_requests
        (urljoin request_url : str -> str -> result str)
        (response : Response) (w : World) :
  let out := run (parse urljoin request_url response) w in
  seen (snd out) = seen w
  /\ match traverse (urljoin (resp_base_url response))
                    (channel_links response) with
     | Raises e => fst out = mkOutcome [] (Some e)
     | Returns resolved =>
       let urls := sorted_set resolved in
       StronglySorted PyStr.lt urls
       /\ NoDup urls
       /\ (forall u, In u urls <->
                     exists h, In h (homepage_links response)
                               /\ PyStr.contains (lit "/channel/") h = true
                               /\ urljoin (resp_base_url response) h
                                  = Returns u)
       /\ exists vs,
           yielded (fst out)
           = map (fun p => mkSectionRequest (snd p) parse_section_cb (fst p))
                 (combine urls vs)
           /\ Forall2 (fun u v => request_url (lit "utf-8") u = Returns v)
                      (firstn (length vs) urls) vs
           /\ match raised (fst out) with
              | None => length vs = length urls
              | Some e =>
                exists u, nth_error urls (length vs) = Some u
                          /\ request_url (lit "utf-8") u = Raises e
              end
     end.
Proof.
  cbv zeta. rewrite HomeFacts.parse_run. cbn [fst snd seen].
  split; [reflexivity|].
  destruct (traverse (urljoin (resp_base_url response))
                     (channel_links response)) as [resolved|e] eqn:Hr;
    [|reflexivity].
  assert (Hs := SortedSet.sorted_set_sorted resolved).
  split; [exact Hs|]. split; [exact (HomeFacts.sorted_NoDup Hs)|].
  split.
  - intros u.
    rewrite SortedSet.In_sorted_set, (LoopFacts.traverse_In _ _ Hr).
    unfold channel_links. split.
    + intros [h [Hh Hu]]. apply filter_In in Hh as [Hin Hc].
      exists h. repeat split; assumption.
    + intros [h (Hin & Hc & Hu)]. exists h. split; [|exact Hu].
      apply filter_In. split; assumption.
  - rewrite HomeFacts.section_requests_spec. cbn [yielded raised].
    exists (fst (attempts (request_url (lit "utf-8")) (sorted_set resolved))).
    split; [reflexivity|].
    exact (HomeFacts.attempts_spec (request_url (lit "utf-8"))
                                   (sorted_set resolved)).
Qed.

(** X7: when the menu has links but none of them contains "/channel/",
    the homepage callback yields nothing, and it does not look at the
    header: the only selector it evaluated is the one of the menu. *)
Theorem parse_menu_without_channel
        (urljoin request_url : str -> str -> result str)
        (response : Response) (w : World) :
  resp_getall response sel_menu <> [] ->
  (forall h, In h (resp_getall response sel_menu) ->
             PyStr.contains (lit "/channel/") h = false) ->
  run (parse urljoin request_url response) w
  = (mkOutcome [] None, mkWorld (seen w) (queries w ++ [sel_menu])).
Proof.
  intros Hne Hnone. rewrite HomeFacts.parse_run.
  unfold channel_links, homepage_links.
  destruct (resp_getall response sel_menu) as [|a l] eqn:E;
    [contradiction|].
  assert (Hf : filter (PyStr.contains (lit "/channel/")) (a :: l) = []).
  { clear E Hne. induction (a :: l) as [|x t IH]; [reflexivity|].
    cbn [filter]. rewrite (Hnone x) by (left; reflexivity).
    apply IH. intros h Hh. apply Hnone. right. exact Hh. }
  rewrite Hf. reflexivity.
Qed.

Lemma parse_menu_without_channel_witness :
  run (parse Sample.join Sample.request_url SampleHome.home_no_channel)
      Sample.first_run
  = (mkOutcome [] None, mkWorld (SeenStore.init None) [sel_menu]).
Proof.
  apply (@parse_menu_without_channel
           Sample.join Sample.request_url SampleHome.home_no_channel
           Sample.first_run).
  - vm_compute. discriminate.
  - intros h Hh. vm_compute in Hh.
    destruct Hh as [<-|[<-|[]]]; vm_compute; reflexivity.
Defined.

(** ** The pages of a section *)

Lemma slice_to_prefix {A : Type} (l : list A) stop :
  exists n, slice_to l stop = firstn n l.
Proof. unfold slice_to. destruct (0 <=? stop)%Z; eexists; reflexivity. Qed.

Lemma In_firstn {A : Type} (x : A) l : forall n, In x (firstn n l) -> In x l.
Proof.
  induction l as [|a l IH]; intros [|n]; cbn [firstn In]; try tauto.
  intros [->|H]; [left; reflexivity|right; exact (IH _ H)].
Qed.

Lemma filter_sorted (p : str -> bool) l :
  StronglySorted PyStr.lt l -> StronglySorted PyStr.lt (filter p l).
Proof.
  induction 1 as [|a l Hl IH Ha]; cbn [filter]; [constructor|].
  destruct (p a); [|exact IH].
  constructor; [exact IH|].
  apply Forall_forall. intros x Hx. apply filter_In in Hx.
  rewrite Forall_forall in Ha. apply Ha. tauto.
Qed.

Lemma firstn_sorted l :
  StronglySorted PyStr.lt l -> forall n, StronglySorted PyStr.lt (firstn n l).
Proof.
  induction 1 as [|a l Hl IH Ha]; intros [|n]; cbn [firstn];
    try constructor.
  - apply IH.
  - apply Forall_forall. intros x Hx. apply In_firstn in Hx.
    rewrite Forall_forall in Ha. auto.
Qed.

Lemma slice_to_length {A : Type} (l : list A) stop :
  (0 <= stop)%Z -> (Z.of_nat (length (slice_to l stop)) <= stop)%Z.
Proof.
  intros H. unfold slice_to.
  destruct (Z.leb_spec 0 stop) as [_|Hlt]; [|lia].
  rewrite length_firstn. lia.
Qed.

Section SectionFacts.

Variable urljoin : str -> str -> result str.
Variable request_url : str -> str -> result str.

Lemma article_requests_counts section_url l : forall n,
  map req_article_count (article_requests section_url n l)
  = counts_from n (length l).
Proof.
  induction l as [|u l IH]; intros n; cbn [article_requests map length
    counts_from]; [reflexivity|].
  rewrite IH. reflexivity.
Qed.

Lemma article_requests_urls section_url l : forall n,
  map req_url (article_requests section_url n l) = l.
Proof.
  induction l as [|u l IH]; intros n; cbn [article_requests map];
    [reflexivity|].
  rewrite IH. reflexivity.
Qed.

Lemma article_requests_section section_url l : forall n,
  Forall (fun r => req_section_url r = section_url)
         (article_requests section_url n l).
Proof.
  induction l as [|u l IH]; intros n; cbn [article_requests];
    constructor; [reflexivity|apply IH].
Qed.

Lemma article_requests_filter section_url l : forall n,
  filter is_article_request (article_requests section_url n l)
  = article_requests section_url n l.
Proof.
  induction l as [|u l IH]; intros n; cbn [article_requests filter];
    [reflexivity|].
  cbn. rewrite IH. reflexivity.
Qed.

(** The article requests of a page: those for a prefix of its admitted
    URLs; and its listing request if any. *)
Lemma page_split response w :
  let out := yielded (fst (run (parse_section urljoin request_url response)
                               w)) in
  exists us vs,
    filter is_article_request out
    = article_requests (meta_section_url response) (count_before response) vs
    /\ Forall2 (fun u v => requested_url urljoin request_url response u
                           = Returns v) us vs
    /\ ((exists cands n,
            page_candidates urljoin response = Returns cands
            /\ us = firstn n (new_articles w cands)
            /\ length us <= length (admitted_urls response w cands))
        \/ us = [])
    /\ forall req, In req out -> is_article_request req = false ->
                   (count_before response + Z.of_nat (length vs) < 5)%Z
                   /\ req_section_url req = meta_section_url response
                   /\ req_article_count req
                      = (count_before response + Z.of_nat (length vs))%Z.
Proof.
  cbv zeta.
  destruct (parse_section_run urljoin request_url response w) as [_ Hout].
  cbv zeta in Hout. rewrite Hout. clear Hout.
  destruct (page_candidates urljoin response) as [cands|e] eqn:Hc.
  2:{ exists [], []. cbn. repeat split; auto; try constructor; contradiction. }
  pose proof (HomeFacts.attempts_spec
                (requested_url urljoin request_url response)
                (admitted_urls response w cands)) as [Hvs _].
  pose proof (LoopFacts.attempts_length
                (requested_url urljoin request_url response)
                (admitted_urls response w cands)) as Hlen.
  destruct (attempts (requested_url urljoin request_url response)
                     (admitted_urls response w cands)) as [vs e].
  cbn [fst snd] in Hvs, Hlen.
  set (arts := article_requests (meta_section_url response)
                                (count_before response) vs).
  assert (Hf : filter is_article_request arts = arts)
    by apply article_requests_filter.
  assert (Hart : forall req, In req arts -> is_article_request req = true).
  { intros req Hin. rewrite <- Hf in Hin. apply filter_In in Hin. tauto. }
  assert (Hus : exists cands0 n,
             Returns cands = Returns cands0
             /\ firstn (length vs) (admitted_urls response w cands)
                = firstn n (new_articles w cands0)
             /\ length (firstn (length vs) (admitted_urls response w cands))
                <= length (admitted_urls response w cands0)).
  { unfold admitted_urls in *.
    destruct (slice_to_prefix (new_articles w cands)
                              (5 - count_before response)) as [n En].
    exists cands, (Nat.min (length vs) n). rewrite En in *.
    split; [reflexivity|]. split; [apply firstn_firstn|].
    rewrite length_firstn. lia. }
  exists (firstn (length vs) (admitted_urls response w cands)), vs.
  assert (Hnone : forall req, In req arts -> is_article_request req = false ->
                   (count_before response + Z.of_nat (length vs) < 5)%Z
                   /\ req_section_url req = meta_section_url response
                   /\ req_article_count req
                      = (count_before response + Z.of_nat (length vs))%Z).
  { intros req Hin Hno. rewrite (Hart _ Hin) in Hno. discriminate. }
  destruct e as [e|]; cbn [yielded].
  { split; [exact Hf|]. split; [exact Hvs|]. split; [left; exact Hus|].
    exact Hnone. }
  destruct (Z.ltb_spec (count_before response + Z.of_nat (length vs)) 5)
    as [Hlt|Hge]; cbn [yielded].
  - destruct (found_next response) as [np|]; cbn [yielded].
    + destruct (requested_url urljoin request_url response np) as [v|e];
        cbn [yielded].
      * rewrite filter_app, Hf. cbn [filter is_article_request req_callback].
        rewrite app_nil_r.
        split; [reflexivity|]. split; [exact Hvs|]. split; [left; exact Hus|].
        intros req Hin Hno. apply in_app_or in Hin.
        destruct Hin as [Hin|[<-|[]]].
        -- rewrite (Hart _ Hin) in Hno. discriminate.
        -- repeat split. exact Hlt.
      * split; [exact Hf|]. split; [exact Hvs|]. split; [left; exact Hus|].
        exact Hnone.
    + split; [exact Hf|]. split; [exact Hvs|]. split; [left; exact Hus|].
      exact Hnone.
  - split; [exact Hf|]. split; [exact Hvs|]. split; [left; exact Hus|].
    exact Hnone.
Qed.

Lemma admitted_bound response w cands :
  (count_before response <= 5)%Z ->
  (count_before response
   + Z.of_nat (length (admitted_urls response w cands)) <= 5)%Z.
Proof.
  intros H. unfold admitted_urls.
  pose proof (slice_to_length (new_articles w cands)
                (stop := (5 - count_before response)%Z)) as Hl.
  lia.
Qed.

(** The counts of a page: its article requests are numbered from the
    count it starts from and stay within 5. *)
Lemma page_counts response w :
  (count_before response <= 5)%Z ->
  let out := yielded (fst (run (parse_section urljoin request_url response)
                               w)) in
  let arts := filter is_article_request out in
  map req_article_count arts
  = counts_from (count_before response) (length arts)
  /\ (count_before response + Z.of_nat (length arts) <= 5)%Z
  /\ Forall (fun r => req_section_url r = meta_section_url response) arts
  /\ forall req, In req out -> is_article_request req = false ->
                 (count_before response + Z.of_nat (length arts) < 5)%Z
                 /\ req_section_url req = meta_section_url response
                 /\ req_article_count req
                    = (count_before response + Z.of_nat (length arts))%Z.
Proof.
  intros Hc. cbv zeta.
  destruct (page_split response w) as (us & vs & Harts & Hvs & Hus & Hlist).
  cbv zeta in *. rewrite Harts.
  rewrite article_requests_counts, article_requests_length.
  split; [reflexivity|]. split; [|split; [apply article_requests_section|
                                          exact Hlist]].
  pose proof (Forall2_length Hvs) as Hl.
  destruct Hus as [(cands & n & _ & _ & Hle)| ->].
  - pose proof (admitted_bound response w cands Hc). lia.
  - simpl in Hl. rewrite <- Hl. simpl. lia.
Qed.

Lemma counts_from_app n k k' :
  counts_from n (k + k') = counts_from n k ++ counts_from (n + Z.of_nat k) k'.
Proof.
  revert n. induction k as [|k IH]; intros n.
  - cbn [counts_from Nat.add app]. f_equal. cbn. lia.
  - cbn [counts_from Nat.add app]. rewrite IH. do 3 f_equal. lia.
Qed.

(** The invariant of the pages of a section: the count a page starts from
    is at most 5, and the article requests are numbered from it. *)
Lemma follows_counts rest : forall p,
  (count_before (fst p) <= 5)%Z ->
  follows urljoin request_url p rest ->
  let arts := article_requests_of urljoin request_url (p :: rest) in
  map req_article_count arts
  = counts_from (count_before (fst p)) (length arts)
  /\ (count_before (fst p) + Z.of_nat (length arts) <= 5)%Z
  /\ Forall (fun r => req_section_url r = meta_section_url (fst p)) arts.
Proof.
  induction rest as [|p' rest IH]; intros [response w] Hc Hf; cbv zeta;
    unfold article_requests_of; cbn [flat_map fst snd] in *;
    destruct (page_counts response w Hc) as (Hnum & Hb & Hsec0 & Hlist);
    cbv zeta in *;
    change (yielded (fst (run (parse_section urljoin request_url response)
                              w)))
      with (page_requests urljoin request_url (response, w))
      in Hnum, Hb, Hsec0, Hlist.
  - rewrite app_nil_r. repeat split; assumption.
  - destruct Hf as [[req (Hin & Hcb & Hsec & Hcnt)] Hf].
    assert (Hno : is_article_request req = false)
      by (unfold is_article_request; rewrite Hcb; reflexivity).
    destruct (Hlist req Hin Hno) as (Hlt & Hs & Hn).
    assert (Hc' : count_before (fst p')
                  = (count_before response
                     + Z.of_nat (length (filter is_article_request
                          (page_requests urljoin request_url
                                         (response, w)))))%Z)
      by (unfold count_before at 1; rewrite Hcnt, Hn; reflexivity).
    assert (Hle : (count_before (fst p') <= 5)%Z) by lia.
    specialize (IH p' Hle Hf). cbv zeta in IH.
    unfold article_requests_of in IH. cbn [flat_map] in IH.
    destruct IH as (IH1 & IH2 & IH3).
    rewrite map_app, length_app, counts_from_app, IH1, Hnum.
    rewrite Hc' in *.
    repeat split.
    + lia.
    + apply Forall_app. split; [exact Hsec0|].
      eapply Forall_impl; [|exact IH3].
      cbn beta. intros r Hr. rewrite Hr, Hsec, Hs. reflexivity.
Qed.

End SectionFacts.

(** X8: on a listing page that starts from a count of at most 5, the
    article requests are numbered consecutively from that count, the last
    number is at most 5, and a request for a further listing page, if
    there is one, carries that last number, which is then below 5. *)
Theorem parse_section_counts
        (urljoin request_url : str -> str -> result str)
        (response : Response) (w : World) :
  let out := yielded (fst (run (parse_section urljoin request_url response)
                               w)) in
  let arts := filter is_article_request out in
  (count_before response <= 5)%Z ->
  map req_article_count arts
  = counts_from (count_before response) (length arts)
  /\ (count_before response + Z.of_nat (length arts) <= 5)%Z
  /\ forall req, In req out -> req_callback req = parse_section_cb ->
                 req_article_count req
                 = (count_before response + Z.of_nat (length arts))%Z
                 /\ (req_article_count req < 5)%Z.
Proof.
  cbv zeta. intros Hc.
  destruct (page_counts urljoin request_url response w Hc)
    as (Hnum & Hb & _ & Hlist).
  cbv zeta in *.
  split; [exact Hnum|]. split; [exact Hb|].
  intros req Hin Hcb.
  destruct (Hlist req Hin) as (Hlt & _ & Hn);
    [unfold is_article_request; rewrite Hcb; reflexivity|].
  split; [exact Hn|lia].
Qed.

Lemma parse_section_counts_witness :
  map req_article_count
      (filter is_article_request
              (yielded (fst (run (parse_section Sample.join
                                                Sample.request_url
                                                Sample.listing2)
                                 Sample.first_run))))
  = [2; 3]%Z.
Proof.
  destruct (@parse_section_counts Sample.join Sample.request_url
                                  Sample.listing2
                                  Sample.first_run) as (H & _).
  - vm_compute. discriminate.
  - rewrite H. vm_compute. reflexivity.
Defined.

(** X9: over the pages of a section (the first reached from the homepage,
    without a count; each further one fetched for the listing request of
    the page before), whatever the store holds when each page is handled,
    at most five article requests are yielded in all; they are numbered
    1, 2, ... in order and all carry the section URL of the first page. *)
Theorem section_cap
        (urljoin request_url : str -> str -> result str)
        (first : Response * World) (rest : list (Response * World)) :
  let arts := article_requests_of urljoin request_url (first :: rest) in
  meta_article_count (fst first) = None ->
  follows urljoin request_url first rest ->
  length arts <= 5
  /\ map req_article_count arts = counts_from 0 (length arts)
  /\ Forall (fun r => req_section_url r = meta_section_url (fst first)) arts.
Proof.
  cbv zeta. intros Hnone Hf.
  assert (H0 : count_before (fst first) = 0%Z)
    by (unfold count_before; rewrite Hnone; reflexivity).
  destruct (@follows_counts urljoin request_url rest first) as (H1 & H2 & H3);
    [lia|exact Hf|].
  cbv zeta in *. rewrite H0 in *.
  repeat split; [lia|exact H1|exact H3].
Qed.

Lemma section_cap_witness :
  map req_article_count
      (article_requests_of Sample.join Sample.request_url
         [(SampleHome.listing1, Sample.first_run);
          (Sample.listing2, Sample.first_run)])
  = [1; 2; 3]%Z.
Proof.
  destruct (@section_cap Sample.join Sample.request_url
              (SampleHome.listing1, Sample.first_run)
              [(Sample.listing2, Sample.first_run)]) as (_ & H & _).
  - reflexivity.
  - split; [|exact I].
    exists (mkRequest (Sample.site ++ lit "/channel/leadership/page/2/")
                      parse_section_cb
                      (Some (Sample.site ++ lit "/channel/leadership/")) 1).
    split; [vm_compute; right; left; reflexivity|].
    repeat split.
  - rewrite H. vm_compute. reflexivity.
Defined.

(** X10: the articles a listing page requests come from candidates of the
    page that the store does not hold.  The candidates are the hrefs of
    the three listing selectors that contain "/articles/", resolved
    against the page; they are looked up in the store as resolved, in
    strictly ascending order.  The URL of a request is what
    [response.follow] makes of its candidate: the candidate resolved
    against the page once more, as [scrapy.Request] keeps it.  The page
    itself never writes the store. *)
Theorem parse_section_provenance
        (urljoin request_url : str -> str -> result str)
        (response : Response) (w : World) :
  let out := run (parse_section urljoin request_url response) w in
  exists us,
    Forall2 (fun u v => requested_url urljoin request_url response u
                        = Returns v)
            us
            (map req_url (filter is_article_request (yielded (fst out))))
    /\ StronglySorted PyStr.lt us
    /\ (forall u, In u us ->
                  SeenStore.has (seen w) u = false
                  /\ exists h, In h (listing_hrefs response)
                               /\ PyStr.contains (lit "/articles/") h = true
                               /\ urljoin (resp_base_url response) h
                                  = Returns u)
    /\ seen (snd out) = seen w.
Proof.
  cbv zeta.
  destruct (page_split urljoin request_url response w)
    as (us & vs & Harts & Hvs & Hus & _).
  destruct (parse_section_run urljoin request_url response w) as [Hseen _].
  cbv zeta in *.
  exists us. rewrite Harts, article_requests_urls.
  split; [exact Hvs|].
  destruct Hus as [(cands & n & Hc & -> & _)| ->].
  2:{ split; [constructor|]. split; [intros u []|exact Hseen]. }
  split; [|split; [|exact Hseen]].
  - apply firstn_sorted, filter_sorted.
    exact (candidates_sorted urljoin response Hc).
  - intros u Hu. apply In_firstn in Hu. unfold new_articles in Hu.
    apply filter_In in Hu. destruct Hu as [Hin Hn].
    apply negb_true_iff in Hn. split; [exact Hn|].
    apply (candidates_spec urljoin response Hc). exact Hin.
Qed.

(** X11: when the article links of a listing page all resolve, the store
    already holds every candidate, and the page starts from a count below
    5, the page requests no article and still looks for the next page.  If
    it finds a link that can be requested, it yields the request for it,
    which carries the count unchanged; if the link cannot be requested, it
    raises; if it finds none, it yields nothing. *)
Theorem parse_section_all_seen
        (urljoin request_url : str -> str -> result str)
        (response : Response) (w : World) (cands : list str) :
  page_candidates urljoin response = Returns cands ->
  (forall u, In u cands -> SeenStore.has (seen w) u = true) ->
  (count_before response < 5)%Z ->
  fst (run (parse_section urljoin request_url response) w)
  = match found_next response with
    | Some np =>
      match requested_url urljoin request_url response np with
      | Returns v =>
        mkOutcome [mkRequest v parse_section_cb (meta_section_url response)
                             (count_before response)]
                  None
      | Raises e => mkOutcome [] (Some e)
      end
    | None => mkOutcome [] None
    end.
Proof.
  intros Hcands Hseen Hc.
  assert (Hnew : new_articles w cands = []).
  { unfold new_articles. clear Hcands.
    induction cands as [|a l IH]; [reflexivity|].
    cbn [filter]. rewrite (Hseen a) by (left; reflexivity).
    apply IH. intros u Hu. apply Hseen. right. exact Hu. }
  assert (Hadm : admitted_urls response w cands = []).
  { unfold admitted_urls. rewrite Hnew.
    destruct (slice_to_prefix (@nil str) (5 - count_before response))
      as [n ->]. destruct n; reflexivity. }
  assert (Hv : traverse (requested_url urljoin request_url response)
                        (admitted_urls response w cands) = Returns [])
    by (rewrite Hadm; reflexivity).
  rewrite (parse_section_done urljoin request_url response w Hcands Hv).
  unfold count_after. rewrite Hadm. cbn [length article_requests app].
  replace (count_before response + Z.of_nat 0)%Z with (count_before response)
    by (cbn; lia).
  apply Z.ltb_lt in Hc. rewrite Hc. reflexivity.
Qed.

Lemma parse_section_all_seen_witness :
  fst (run (parse_section Sample.join Sample.request_url Sample.listing2)
           SampleHome.later_run)
  = mkOutcome
      [mkRequest (Sample.site ++ lit "/channel/leadership/page/3/")
                 parse_section_cb
                 (Some (Sample.site ++ lit "/channel/leadership/")) 1]
      None.
Proof.
  rewrite (@parse_section_all_seen
             Sample.join Sample.request_url Sample.listing2
             SampleHome.later_run
             [Sample.site ++ lit "/articles/g";
              Sample.site ++ lit "/articles/h"]).
  - vm_compute. reflexivity.
  - vm_compute. reflexivity.
  - intros u Hu. vm_compute in Hu.
    destruct Hu as [<-|[<-|[]]]; vm_compute; reflexivity.
  - vm_compute. reflexivity.
Defined.

(** ** The record of an article, field by field *)

Section ArticleItem.

Variable urljoin : str -> str -> result str.
Variable remove_tags : str -> str.
Variable netloc : str -> option str.
Variable str_lower : str -> str.
Variable decimal : char -> option N.
Variable detect : option (str -> option str).

(** The loop over the container selectors returns the serialisation of
    the first element of the located body. *)
Lemma locate_body_raw response sels : forall body w,
  let r := locate_body response sels body [] w in
  match first_some (container response) sels with
  | Some nodes =>
    fst r = (body_nodes nodes,
             match nodes with n :: _ => node_get n | [] => [] end)
  | None => True
  end.
Proof.
  induction sels as [|sel sels IH]; intros body w; cbn [locate_body first_some].
  - exact I.
  - unfold bind, css_nodes, container. cbn beta iota zeta.
    destruct (resp_nodes response sel) as [|n nodes] eqn:En.
    + exact (IH _ (mkWorld (seen w) (queries w ++ [sel]))).
    + destruct (PyStr.truthy (node_get n)) eqn:Et.
      * reflexivity.
      * rewrite (truthy_false _ Et).
        exact (IH _ (mkWorld (seen w) (queries w ++ [sel]))).
Qed.

Lemma located_body_nonempty response nodes :
  located_body response = Some nodes ->
  exists n rest, nodes = n :: rest /\ PyStr.truthy (node_get n) = true.
Proof.
  unfold located_body. intros H.
  apply DateFacts.first_some_inv in H. destruct H as (sel & _ & H).
  unfold container in H.
  destruct (resp_nodes response sel) as [|n rest]; [discriminate|].
  destruct (PyStr.truthy (node_get n)) eqn:Et; [|discriminate].
  injection H as <-. exists n, rest. split; [reflexivity|exact Et].
Qed.

(** The fields of the record of an article that is not skipped and whose
    links resolve. *)
Lemma parse_article_item cutoff now response w resolved :
  too_old (article_parsed_date decimal response) cutoff = false ->
  resolved_links urljoin (resp_url response) (article_body_hrefs response)
  = Returns resolved ->
  exists item qs,
    run (parse_article urljoin remove_tags netloc str_lower decimal detect
                       cutoff now response) w
    = (mkOutcome [item] None,
       mkWorld (SeenStore.add (seen w) (resp_url response) now) qs)
    /\ item_title item
       = strip_opt
           (if truthy_opt (hd_error (resp_getall response sel_title_span))
            then hd_error (resp_getall response sel_title_span)
            else hd_error (resp_getall response sel_title))
    /\ item_company item
       = match stripped_nonempty
                 (resp_getall response (lit "div.article-company a::text"))
         with
         | [] => None
         | c :: l => Some (PyStr.join (lit ", ") (c :: l))
         end
    /\ item_text item
       = to_plain_text remove_tags (article_raw_html response)
    /\ item_language item
       = match detect with
         | Some f => if PyStr.truthy (item_text item) then f (item_text item)
                     else None
         | None => None
         end
    /\ item_tags item
       = list_or_none
           (stripped_nonempty
              (resp_getall response
                           (lit "div.post-terms ul.post-tags a::text"))).
Proof.
  intros Hold Hres.
  destruct (run (parse_article urljoin remove_tags netloc str_lower decimal
                               detect cutoff now response) w)
    as [items wout] eqn:E.
  unfold run, parse_article in E.
  unfold bind, py_or, css_get, css_getall, ret, bind in E.
  cbn beta iota zeta in E.
  fold sel_title_span sel_title sel_date in E.
  fold (article_date_str response) in E.
  rewrite parsed_date_eq, Hold in E.
  unfold article_raw_html.
  unfold article_body_hrefs in Hres.
  destruct (truthy_opt (hd_error (resp_getall response sel_title_span)));
    cbn beta iota zeta in E; simpl seen in E;
    (match type of E with
     | context [locate_body response body_selectors body_unset [] ?w0] =>
       pose proof (locate_body_run response body_selectors body_unset w0)
         as Hl;
       pose proof (locate_body_raw response body_selectors body_unset w0)
         as Hr;
       cbv zeta in Hl, Hr; destruct Hl as [Hs Hb];
       destruct (locate_body response body_selectors body_unset [] w0)
         as [[body raw] w2]
     end);
    cbn [fst snd] in Hb, Hr; simpl in Hs;
    unfold located_body in *;
    pose proof (@located_body_nonempty response) as Hne;
    unfold located_body in Hne;
    revert Hb Hr Hne Hres;
    (destruct (first_some (container response) body_selectors) as [nodes|];
     [intros [_ Hraw] Hr Hne Hres;
      destruct (Hne nodes eq_refl) as (n & rest & -> & _);
      injection Hr as -> ->; simpl in E; rewrite Hraw in E
     |intros Hb _ _ Hres; rewrite Hb in E]);
    simpl in E; rewrite collect_internal_targets in E;
    (match type of Hres with
     | resolved_links urljoin ?u ?l = _ =>
       match type of E with
       | context [resolved_links urljoin ?u' ?l'] =>
         change (resolved_links urljoin u' l')
           with (resolved_links urljoin u l) in E
       end
     end);
    rewrite Hres in E;
    simpl in E; injection E as <- <-;
    (eexists; eexists; split; [simpl; rewrite Hs; reflexivity|]); simpl;
    repeat split;
    match goal with
    | |- context [stripped_nonempty ?l] =>
      destruct (stripped_nonempty l); reflexivity
    end.
Qed.

End ArticleItem.

Module ArticleStoreFacts.
Import SeenStore.

Lemma ltb_irrefl d : Date.ltb d d = false.
Proof.
  unfold Date.ltb. rewrite !Z.ltb_irrefl, !Z.eqb_refl. reflexivity.
Qed.

Lemma ltb_asym a b : Date.ltb a b = true -> Date.ltb b a = false.
Proof.
  unfold Date.ltb.
  rewrite !orb_true_iff, !andb_true_iff, !orb_true_iff, !andb_true_iff,
    !Z.ltb_lt, !Z.eqb_eq.
  intros H.
  destruct (Z.ltb_spec (year b) (year a)); [lia|].
  destruct (Z.eqb_spec (year b) (year a)); [|reflexivity].
  destruct (Z.ltb_spec (month b) (month a)); [lia|].
  destruct (Z.eqb_spec (month b) (month a)); [|reflexivity].
  destruct (Z.ltb_spec (day b) (day a)); [lia|reflexivity].
Qed.

Lemma not_before a b : date_le a b -> Date.ltb b a = false.
Proof. intros [->|H]; [apply ltb_irrefl|apply ltb_asym; exact H]. Qed.

Lemma first_seen_add_other s u now v :
  u <> v -> first_seen (add s u now) v = first_seen s v.
Proof.
  intros Hne. unfold first_seen, add, insert_or_ignore.
  destruct (has_row (view s) u); cbn [commit view]; [reflexivity|].
  assert (Hf : forall rows : table,
             List.find (fun r => PyStr.eqb (fst r) v) (rows ++ [(u, now)])
             = List.find (fun r => PyStr.eqb (fst r) v) rows).
  { induction rows as [|r rows IH]; cbn [app List.find fst].
    - rewrite (proj2 (PyStrFacts.eqb_neq u v) Hne). reflexivity.
    - destruct (PyStr.eqb (fst r) v); [reflexivity|exact IH]. }
  rewrite Hf. reflexivity.
Qed.

Lemma first_seen_kept s u now v :
  has s v = true -> first_seen (add s u now) v = first_seen s v.
Proof.
  intros Hv. destruct (PyStr.eqb u v) eqn:E.
  - apply PyStrFacts.eqb_eq in E. subst v.
    rewrite SeenStoreFacts.first_seen_add.
    destruct (first_seen s u) as [t0|] eqn:F; [reflexivity|].
    exfalso. unfold first_seen in F. unfold has, has_row in Hv.
    apply existsb_exists in Hv. destruct Hv as [r [Hr Er]].
    destruct (List.find (fun r => PyStr.eqb (fst r) u) (view s)) eqn:G;
      [discriminate|].
    apply (find_none _ _ G) in Hr. congruence.
  - apply first_seen_add_other. intros ->.
    rewrite PyStrFacts.eqb_refl in E. discriminate.
Qed.

End ArticleStoreFacts.

(** X12: an article dated on the cutoff date or after it passes the
    gate.  If every non-empty href of its body resolves, one record is
    yielded, with the date string as found and [date_iso] the ISO form of
    the parsed date, and the URL of the article is in the store
    afterwards.  If [urljoin] raises on one of them, the callback raises:
    it yields no record and leaves the store as it was. *)
Theorem article_on_or_after_cutoff
        (urljoin : str -> str -> result str) (remove_tags : str -> str)
        (netloc : str -> option str)
        (str_lower : str -> str) (decimal : char -> option N)
        (detect : option (str -> option str))
        (cutoff : date) (now : SeenStore.timestamp)
        (response : Response) (w : World) (s : str) (d : date) :
  let out := run (parse_article urljoin remove_tags netloc str_lower decimal
                                detect cutoff now response) w in
  article_date_str response = Some s ->
  parse_date decimal s = Some d ->
  date_le cutoff d ->
  match resolved_links urljoin (resp_url response)
                       (article_body_hrefs response) with
  | Returns _ =>
    exists item,
      fst out = mkOutcome [item] None
      /\ item_date item = Some s
      /\ item_date_iso item = Some (Date.isoformat d)
      /\ SeenStore.has (seen (snd out)) (resp_url response) = true
  | Raises e =>
    fst out = mkOutcome [] (Some e) /\ seen (snd out) = seen w
  end.
Proof.
  cbv zeta. intros Hs Hd Hle.
  assert (Hp : article_parsed_date decimal response = Some d)
    by (unfold article_parsed_date; rewrite Hs; exact Hd).
  assert (Hk := @parse_article_keep urljoin remove_tags netloc str_lower
                                    decimal detect cutoff now response w).
  rewrite Hp in Hk. cbn [too_old] in Hk.
  specialize (Hk (ArticleStoreFacts.not_before Hle)).
  destruct (resolved_links urljoin (resp_url response)
                           (article_body_hrefs response)) as [resolved|e].
  - destruct Hk as (item & qs & -> & _ & _ & Hdate & Hiso & _).
    exists item. cbn [fst snd seen]. rewrite Hdate, Hiso, Hs.
    repeat split.
    rewrite SeenStoreFacts.has_add, PyStrFacts.eqb_refl. apply orb_true_r.
  - destruct Hk as (qs & ->). split; reflexivity.
Qed.

Lemma article_on_or_after_cutoff_witness :
  exists item,
    fst (run (parse_article Sample.join W3lib24.remove_tags Sample.netloc
                            SampleArticle.lower
                            ascii_decimal None (mkdate 2025 6 2)
                            SampleArticle.now SampleArticle.recent_page)
             Sample.first_run)
    = mkOutcome [item] None
    /\ item_date_iso item = Some (lit "2025-06-02").
Proof.
  assert (H := @article_on_or_after_cutoff
              Sample.join W3lib24.remove_tags Sample.netloc
              SampleArticle.lower ascii_decimal None
              (mkdate 2025 6 2) SampleArticle.now SampleArticle.recent_page
              Sample.first_run (lit "June 2, 2025") (mkdate 2025 6 2)).
  cbv zeta in H.
  assert (Hr : resolved_links Sample.join
                              (resp_url SampleArticle.recent_page)
                              (article_body_hrefs SampleArticle.recent_page)
               = Returns [Sample.site ++ lit "/articles/x";
                          lit "https://example.org/";
                          Sample.site ++ lit "/tag/y";
                          Sample.site ++ lit "/articles/x";
                          lit "https://WWW.TheManufacturer.com/z"])
    by (vm_compute; reflexivity).
  rewrite Hr in H.
  destruct H as (item & Hout & _ & Hiso & _).
  - reflexivity.
  - vm_compute. reflexivity.
  - left. reflexivity.
  - exists item. split; [exact Hout|exact Hiso].
Defined.

(** X13: the article callback changes the store by at most one URL, its
    own, and exactly when it yields the record: every other URL is known
    afterwards if and only if it was known before.  A store whose writes
    are all in the file and whose URLs are distinct stays so, and no URL
    that was known gets a new timestamp. *)
Theorem parse_article_store
        (urljoin : str -> str -> result str) (remove_tags : str -> str)
        (netloc : str -> option str)
        (str_lower : str -> str) (decimal : char -> option N)
        (detect : option (str -> option str))
        (cutoff : date) (now : SeenStore.timestamp)
        (response : Response) (w : World) :
  let out := run (parse_article urljoin remove_tags netloc str_lower decimal
                                detect cutoff now response) w in
  SeenStore.committed (seen w) ->
  (forall v, SeenStore.has (seen (snd out)) v
             = SeenStore.has (seen w) v
               || (match yielded (fst out) with
                   | [] => false
                   | _ :: _ => true
                   end && PyStr.eqb (resp_url response) v))
  /\ SeenStore.committed (seen (snd out))
  /\ (forall v, SeenStore.has (seen w) v = true ->
                SeenStore.first_seen (seen (snd out)) v
                = SeenStore.first_seen (seen w) v).
Proof.
  cbv zeta. intros Hc.
  destruct (too_old (article_parsed_date decimal response) cutoff) eqn:Hold.
  - rewrite parse_article_skip by exact Hold.
    cbn [fst snd seen yielded andb].
    split; [|split; [exact Hc|reflexivity]].
    intros v. rewrite orb_false_r. reflexivity.
  - assert (Hk := @parse_article_keep urljoin remove_tags netloc str_lower
                                      decimal detect cutoff now response w
                                      Hold).
    destruct (resolved_links urljoin (resp_url response)
                             (article_body_hrefs response)) as [resolved|e].
    + destruct Hk as (item & qs & -> & _).
      cbn [fst snd seen yielded andb]. split; [|split].
      * intros v. apply SeenStoreFacts.has_add.
      * apply SeenStoreFacts.committed_add. exact Hc.
      * intros v Hv. apply ArticleStoreFacts.first_seen_kept. exact Hv.
    + destruct Hk as (qs & ->).
      cbn [fst snd seen yielded andb].
      split; [|split; [exact Hc|reflexivity]].
      intros v. rewrite orb_false_r. reflexivity.
Qed.

Lemma parse_article_store_witness :
  SeenStore.committed
    (seen (snd (run (parse_article Sample.join W3lib24.remove_tags
                                   Sample.netloc
                                   SampleArticle.lower ascii_decimal None
                                   SampleArticle.cutoff SampleArticle.now
                                   SampleArticle.recent_page)
                    Sample.first_run))).
Proof.
  apply (@parse_article_store
           Sample.join W3lib24.remove_tags Sample.netloc
           SampleArticle.lower ascii_decimal None
           SampleArticle.cutoff SampleArticle.now SampleArticle.recent_page
           Sample.first_run).
  split; [reflexivity|constructor].
Defined.

(** X14: for an article that passes the cutoff gate and whose body links
    all resolve, the text of the record is [to_plain_text] of the
    serialisation of the first element of the located body, or of the
    fragments of the whole page put together when no container is found.
    The language is the detector's answer on that text; it is null when
    there is no detector or the text is empty.  When [urljoin] raises on
    a link of the body, the callback raises and there is no record. *)
Theorem article_text_and_language
        (urljoin : str -> str -> result str) (remove_tags : str -> str)
        (netloc : str -> option str)
        (str_lower : str -> str) (decimal : char -> option N)
        (detect : option (str -> option str))
        (cutoff : date) (now : SeenStore.timestamp)
        (response : Response) (w : World) :
  let out := run (parse_article urljoin remove_tags netloc str_lower decimal
                                detect cutoff now response) w in
  too_old (article_parsed_date decimal response) cutoff = false ->
  match resolved_links urljoin (resp_url response)
                       (article_body_hrefs response) with
  | Returns _ =>
    exists item,
      fst out = mkOutcome [item] None
      /\ item_text item
         = to_plain_text remove_tags (article_raw_html response)
      /\ item_language item
         = match detect with
           | Some f =>
             if PyStr.truthy (item_text item) then f (item_text item)
             else None
           | None => None
           end
      /\ (item_text item = [] -> item_language item = None)
  | Raises e => fst out = mkOutcome [] (Some e)
  end.
Proof.
  cbv zeta. intros Hold.
  assert (Hk := @parse_article_keep urljoin remove_tags netloc str_lower
                                    decimal detect cutoff now response w
                                    Hold).
  destruct (resolved_links urljoin (resp_url response)
                           (article_body_hrefs response))
    as [resolved|e] eqn:Hres.
  - destruct (@parse_article_item urljoin remove_tags netloc str_lower
                                  decimal detect cutoff now response w
                                  resolved Hold Hres)
      as (item & qs & -> & _ & _ & Htext & Hlang & _).
    exists item. cbn [fst]. repeat split; [exact Htext|exact Hlang|].
    intros E. rewrite Hlang, E. destruct detect; reflexivity.
  - destruct Hk as (qs & ->). reflexivity.
Qed.

Lemma article_text_and_language_witness :
  exists item,
    fst (run (parse_article Sample.join W3lib24.remove_tags Sample.netloc
                            SampleArticle.lower
                            ascii_decimal None SampleArticle.cutoff
                            SampleArticle.now SampleArticle.recent_page)
             Sample.first_run)
    = mkOutcome [item] None
    /\ item_text item = lit "Text".
Proof.
  assert (H := @article_text_and_language
              Sample.join W3lib24.remove_tags Sample.netloc
              SampleArticle.lower ascii_decimal None
              SampleArticle.cutoff SampleArticle.now SampleArticle.recent_page
              Sample.first_run).
  cbv zeta in H.
  assert (Hr : resolved_links Sample.join
                              (resp_url SampleArticle.recent_page)
                              (article_body_hrefs SampleArticle.recent_page)
               = Returns [Sample.site ++ lit "/articles/x";
                          lit "https://example.org/";
                          Sample.site ++ lit "/tag/y";
                          Sample.site ++ lit "/articles/x";
                          lit "https://WWW.TheManufacturer.com/z"])
    by (vm_compute; reflexivity).
  rewrite Hr in H.
  destruct H as (item & Hout & Htext & _).
  - reflexivity.
  - exists item. split; [exact Hout|]. rewrite Htext. vm_compute. reflexivity.
Defined.

Module FieldFacts.

Lemma stripped_nonempty_In t l :
  In t (stripped_nonempty l) -> t <> [] /\ PyStr.strip t = t.
Proof.
  unfold stripped_nonempty. intros H. apply filter_In in H.
  destruct H as [Hin Ht]. apply in_map_iff in Hin.
  destruct Hin as [x [<- _]]. split.
  - intros E. rewrite E in Ht. discriminate.
  - apply DateFacts.strip_strip.
Qed.

Lemma join_nonempty sep c l : c <> [] -> PyStr.join sep (c :: l) <> [].
Proof.
  intros Hc. destruct c as [|x c]; [contradiction|].
  destruct l; cbn [PyStr.join app]; discriminate.
Qed.

End FieldFacts.

(** X15: in the record of an article, [company] and [tags] are null or
    non-empty: a company is a non-empty string, tags are a non-empty list
    of non-empty strings without whitespace at either end.  A title, if
    there is one, has no whitespace at either end. *)
Theorem article_optional_fields
        (urljoin : str -> str -> result str) (remove_tags : str -> str)
        (netloc : str -> option str)
        (str_lower : str -> str) (decimal : char -> option N)
        (detect : option (str -> option str))
        (cutoff : date) (now : SeenStore.timestamp)
        (response : Response) (w : World) :
  let out := run (parse_article urljoin remove_tags netloc str_lower decimal
                                detect cutoff now response) w in
  Forall (fun item =>
            (forall c, item_company item = Some c -> c <> [])
            /\ (forall l, item_tags item = Some l ->
                          l <> []
                          /\ forall t, In t l -> t <> [] /\ PyStr.strip t = t)
            /\ (forall t, item_title item = Some t -> PyStr.strip t = t))
         (yielded (fst out)).
Proof.
  cbv zeta.
  destruct (too_old (article_parsed_date decimal response) cutoff) eqn:Hold.
  { rewrite parse_article_skip by exact Hold. constructor. }
  assert (Hk := @parse_article_keep urljoin remove_tags netloc str_lower
                                    decimal detect cutoff now response w
                                    Hold).
  destruct (resolved_links urljoin (resp_url response)
                           (article_body_hrefs response))
    as [resolved|e] eqn:Hres.
  2:{ destruct Hk as (qs & ->). constructor. }
  clear Hk.
  destruct (@parse_article_item urljoin remove_tags netloc str_lower
                                decimal detect cutoff now response w
                                resolved Hold Hres)
    as (item & qs & -> & Htitle & Hcomp & _ & _ & Htags).
  cbn [fst yielded]. constructor; [|constructor]. split; [|split].
  - intros c Hc. rewrite Hcomp in Hc.
    destruct (stripped_nonempty
                (resp_getall response (lit "div.article-company a::text")))
      as [|x l] eqn:E; [discriminate|].
    assert (Ec : c = PyStr.join (lit ", ") (x :: l)) by congruence.
    rewrite Ec. apply FieldFacts.join_nonempty.
    apply (@FieldFacts.stripped_nonempty_In x
             (resp_getall response (lit "div.article-company a::text"))).
    rewrite E. left. reflexivity.
  - intros l Hl. rewrite Htags in Hl.
    destruct (stripped_nonempty
                (resp_getall response
                             (lit "div.post-terms ul.post-tags a::text")))
      as [|x l'] eqn:E; [discriminate|].
    cbn [list_or_none] in Hl. injection Hl as <-.
    split; [discriminate|].
    intros t Ht. rewrite <- E in Ht.
    exact (FieldFacts.stripped_nonempty_In _ _ Ht).
  - intros t Ht. rewrite Htitle in Ht.
    destruct (if truthy_opt (hd_error (resp_getall response sel_title_span))
              then hd_error (resp_getall response sel_title_span)
              else hd_error (resp_getall response sel_title)) as [x|];
      [|discriminate].
    cbn [strip_opt] in Ht. destruct (PyStr.truthy x); [|discriminate].
    injection Ht as <-. apply DateFacts.strip_strip.
Qed.

(** ** Internal links *)

Module LinkFacts.

Lemma strip_prefix_app a : forall b x r,
  PyStr.strip_prefix (a ++ b) x = Some r ->
  exists r', PyStr.strip_prefix a x = Some r'.
Proof.
  induction a as [|c a IH]; intros b x r H; cbn [app PyStr.strip_prefix] in *.
  - exists x. reflexivity.
  - destruct x as [|y x]; [discriminate|].
    destruct (N.eqb c y); [|discriminate].
    exact (IH _ _ _ H).
Qed.

Lemma startswith_app x a b :
  PyStr.startswith x (a ++ b) = true -> PyStr.startswith x a = true.
Proof.
  unfold PyStr.startswith.
  destruct (PyStr.strip_prefix (a ++ b) x) as [r|] eqn:E; [|discriminate].
  destruct (strip_prefix_app _ _ _ E) as [r' ->]. reflexivity.
Qed.

Lemma endswith_www s :
  PyStr.endswith s (lit "www.themanufacturer.com") = true ->
  PyStr.endswith s (lit "themanufacturer.com") = true.
Proof.
  unfold PyStr.endswith.
  change (rev (lit "www.themanufacturer.com"))
    with (rev (lit "themanufacturer.com") ++ lit ".www").
  apply startswith_app.
Qed.

Lemma strip_prefix_self a : forall b, PyStr.strip_prefix a (a ++ b) = Some b.
Proof.
  induction a as [|c a IH]; intros b; cbn [app PyStr.strip_prefix];
    [reflexivity|].
  rewrite N.eqb_refl. apply IH.
Qed.

Lemma endswith_suffix p d : PyStr.endswith (p ++ d) d = true.
Proof.
  unfold PyStr.endswith, PyStr.startswith.
  rewrite rev_app_distr, strip_prefix_self. reflexivity.
Qed.

Lemma endswith_last m c d x :
  c <> x -> PyStr.endswith (m ++ [c]) (d ++ [x]) = false.
Proof.
  intros H. unfold PyStr.endswith, PyStr.startswith.
  rewrite !rev_unit. cbn [PyStr.strip_prefix].
  destruct (N.eqb_spec x c); [congruence|reflexivity].
Qed.

End LinkFacts.

(** X16: a URL is internal exactly when [urlparse] gives it a network
    location (user, host and port, as written in the URL) whose lower-case
    form ends with "themanufacturer.com"; the second domain of the list
    adds nothing, and a URL that [urlparse] refuses is not internal.  No
    dot is required before the suffix: whatever precedes it, the URL is
    internal.  A network location that ends otherwise, as one with a port
    does, is not internal, whatever its host. *)
Theorem is_internal_suffix
        (netloc : str -> option str) (str_lower : str -> str) (url : str) :
  (is_internal netloc str_lower url = true
   <-> exists n, netloc url = Some n
                 /\ PyStr.endswith (str_lower n) (lit "themanufacturer.com")
                    = true)
  /\ (netloc url = None -> is_internal netloc str_lower url = false)
  /\ (forall n p, netloc url = Some n ->
                  str_lower n = p ++ lit "themanufacturer.com" ->
                  is_internal netloc str_lower url = true)
  /\ (forall n m c, netloc url = Some n ->
                    str_lower n = m ++ [c] -> c <> ch "m" ->
                    is_internal netloc str_lower url = false).
Proof.
  unfold is_internal, TM_DOMAINS. cbn [existsb].
  destruct (netloc url) as [n|].
  - rewrite orb_false_r. split; [|split; [discriminate|split]].
    + rewrite orb_true_iff. split.
      * intros [H|H]; exists n; split; try reflexivity; try exact H.
        apply LinkFacts.endswith_www. exact H.
      * intros [n' [E H]]. injection E as <-. left. exact H.
    + intros n' p E Hp. injection E as <-. rewrite Hp.
      rewrite LinkFacts.endswith_suffix. reflexivity.
    + intros n' m c E Hm Hc. injection E as <-. rewrite Hm.
      change (lit "themanufacturer.com")
        with (lit "themanufacturer.co" ++ [ch "m"]).
      change (lit "www.themanufacturer.com")
        with (lit "www.themanufacturer.co" ++ [ch "m"]).
      rewrite !LinkFacts.endswith_last by exact Hc. reflexivity.
  - split; [|split; [reflexivity|split; discriminate]].
    split; [discriminate|]. intros [n [E _]]. discriminate.
Qed.

(** On the samples: a URL with a port is not internal although its host
    is the site's, and a host that only ends like the site's is. *)
Lemma is_internal_examples :
  is_internal Sample.netloc SampleArticle.lower
              (lit "https://www.themanufacturer.com:443/x") = false
  /\ is_internal Sample.netloc SampleArticle.lower
                 (lit "https://www.themanufacturer.com/x") = true
  /\ is_internal Sample.netloc SampleArticle.lower
                 (lit "https://notthemanufacturer.com/x") = true.
Proof. vm_compute. repeat split. Qed.

(** ** The constructor: precedence and errors *)

(** X17: a non-empty [cutoff] decides alone (the cutoff date is what
    [fromisoformat] reads, whatever [cutoff_year] is); an empty [cutoff]
    counts as absent; and without [cutoff] the constructor fails exactly
    when [cutoff_year] is truthy and [int] refuses it or reads a year
    outside 1..9999. *)
Theorem init_cutoff_date_cases
        (fromisoformat : str -> option date) (int_of_str : str -> option Z)
        (cutoff_year : pyval) :
  (forall s, s <> [] ->
             init_cutoff_date fromisoformat int_of_str (PyStr s) cutoff_year
             = fromisoformat s)
  /\ init_cutoff_date fromisoformat int_of_str (PyStr []) cutoff_year
     = init_cutoff_date fromisoformat int_of_str PyNone cutoff_year
  /\ (init_cutoff_date fromisoformat int_of_str PyNone cutoff_year = None
      <-> py_truthy cutoff_year = true
          /\ forall y, py_int int_of_str cutoff_year = Some y ->
                       ~ (1 <= y <= 9999)%Z).
Proof.
  split; [|split].
  - intros [|c s] Hs; [contradiction|reflexivity].
  - reflexivity.
  - unfold init_cutoff_date. cbn [py_truthy].
    destruct (py_truthy cutoff_year).
    + destruct (py_int int_of_str cutoff_year) as [y|].
      * unfold Date.new.
        change (Date.days_in_month y 1) with 31%Z.
        change (1 <=? 1)%Z with true. change (1 <=? 12)%Z with true.
        change (1 <=? 31)%Z with true. rewrite !andb_true_r.
        destruct (Z.leb_spec 1 y), (Z.leb_spec y 9999); cbn [andb].
        -- split; [discriminate|]. intros [_ Hy]. exfalso.
           apply (Hy y eq_refl). lia.
        -- split; [intros _|reflexivity]. split; [reflexivity|].
           intros y' E. injection E as <-. lia.
        -- split; [intros _|reflexivity]. split; [reflexivity|].
           intros y' E. injection E as <-. lia.
        -- split; [intros _|reflexivity]. split; [reflexivity|].
           intros y' E. injection E as <-. lia.
      * split; [intros _|reflexivity]. split; [reflexivity|].
        intros y E. discriminate.
    + split; [discriminate|]. intros [H _]. discriminate.
Qed.

(** ** The store: what an addition leaves alone *)

(** X18: adding a URL to the store changes nothing for any other URL:
    whether it is known, its timestamp and its number of rows stay what
    they were. *)
Theorem add_leaves_others
        (s : SeenStore.t) (u v : str) (now : SeenStore.timestamp) :
  u <> v ->
  SeenStore.has (SeenStore.add s u now) v = SeenStore.has s v
  /\ SeenStore.first_seen (SeenStore.add s u now) v = SeenStore.first_seen s v
  /\ SeenStore.entries (SeenStore.add s u now) v = SeenStore.entries s v.
Proof.
  intros Hne. split; [|split].
  - rewrite SeenStoreFacts.has_add.
    rewrite (proj2 (PyStrFacts.eqb_neq u v) Hne). apply orb_false_r.
  - apply ArticleStoreFacts.first_seen_add_other. exact Hne.
  - unfold SeenStore.entries, SeenStore.add, SeenStore.insert_or_ignore.
    destruct (SeenStore.has_row (SeenStore.view s) u);
      cbn [SeenStore.commit SeenStore.view]; [reflexivity|].
    rewrite filter_app. cbn [filter fst].
    rewrite (proj2 (PyStrFacts.eqb_neq u v) Hne), app_nil_r. reflexivity.
Qed.

Lemma add_leaves_others_witness :
  SeenStore.has (SeenStore.add (SeenStore.init None) (lit "a") (lit "t"))
                (lit "b")
  = false.
Proof.
  rewrite (proj1 (@add_leaves_others (SeenStore.init None) (lit "a") (lit "b")
                                     (lit "t") ltac:(discriminate))).
  reflexivity.
Defined.

(** ** Ordinal suffixes *)

Module OrdinalFacts.

Lemma ordinal_matcher_other decimal c t :
  is_decimal decimal c = false -> ordinal_matcher decimal (c :: t) = None.
Proof. intros H. unfold ordinal_matcher. rewrite H. reflexivity. Qed.

End OrdinalFacts.

(** X19: [strip_ordinals] leaves a text without decimal digit as it is. *)
Theorem strip_ordinals_no_digit (decimal : char -> option N) (s : str) :
  (forall c, In c s -> is_decimal decimal c = false) ->
  strip_ordinals decimal s = s.
Proof.
  intros H. unfold strip_ordinals.
  rewrite <- (app_nil_r s) at 1.
  rewrite ScanFacts.sub_app_inert.
  - apply app_nil_r.
  - intros c t Hc. apply OrdinalFacts.ordinal_matcher_other. exact (H c Hc).
Qed.

Lemma strip_ordinals_no_digit_witness :
  strip_ordinals ascii_decimal (lit "Spring, March") = lit "Spring, March".
Proof.
  apply strip_ordinals_no_digit.
  intros c Hc. vm_compute in Hc.
  repeat (destruct Hc as [<-|Hc]; [reflexivity|]). destruct Hc.
Defined.

(** X20: after a prefix without decimal digit, one or two decimal digits
    followed by "st", "nd", "rd" or "th" (in any case) lose that suffix,
    and the scan goes on after it. *)
Theorem strip_ordinals_removes
        (decimal : char -> option N) (p q : str) (d1 d2 a b : char) :
  (forall c, In c p -> is_decimal decimal c = false) ->
  is_decimal decimal d1 = true ->
  is_decimal decimal d2 = true ->
  is_decimal decimal a = false ->
  ordinal_suffix [a; b] = true ->
  strip_ordinals decimal (p ++ d1 :: a :: b :: q)
  = p ++ d1 :: strip_ordinals decimal q
  /\ strip_ordinals decimal (p ++ d1 :: d2 :: a :: b :: q)
     = p ++ d1 :: d2 :: strip_ordinals decimal q.
Proof.
  intros Hp H1 H2 Ha Hs. unfold strip_ordinals.
  assert (Hin : forall c t, In c p -> ordinal_matcher decimal (c :: t) = None)
    by (intros c t Hc; apply OrdinalFacts.ordinal_matcher_other;
        exact (Hp c Hc)).
  rewrite !(ScanFacts.sub_app_inert _ _ _ Hin).
  split; f_equal.
  - apply (@ScanFacts.sub_match (ordinal_matcher decimal) [d1; a; b] q [d1]);
      [discriminate|].
    cbn [app ordinal_matcher length]. rewrite H1, Ha. cbn [andb].
    change (ordinal_suffix (a :: b :: q)) with (ordinal_suffix [a; b]).
    rewrite Hs. reflexivity.
  - apply (@ScanFacts.sub_match (ordinal_matcher decimal) [d1; d2; a; b] q
                                [d1; d2]); [discriminate|].
    cbn [app ordinal_matcher length]. rewrite H1, H2. cbn [andb].
    change (ordinal_suffix (a :: b :: q)) with (ordinal_suffix [a; b]).
    rewrite Hs. reflexivity.
Qed.

Lemma strip_ordinals_removes_witness :
  strip_ordinals ascii_decimal (lit "March 1st, 2024") = lit "March 1, 2024"
  /\ strip_ordinals ascii_decimal (lit "March 21ST, 2024")
     = lit "March 21, 2024".
Proof.
  assert (Hp : forall c, In c (lit "March ") ->
                         is_decimal ascii_decimal c = false).
  { intros c Hc. vm_compute in Hc.
    repeat (destruct Hc as [<-|Hc]; [reflexivity|]). destruct Hc. }
  split.
  - exact (proj1 (@strip_ordinals_removes
                    ascii_decimal (lit "March ") (lit ", 2024")
                    (ch "1") (ch "0") (ch "s") (ch "t")
                    Hp eq_refl eq_refl eq_refl eq_refl)).
  - exact (proj2 (@strip_ordinals_removes
                    ascii_decimal (lit "March ") (lit ", 2024")
                    (ch "2") (ch "1") (ch "S") (ch "T")
                    Hp eq_refl eq_refl eq_refl eq_refl)).
Defined.

(** ** The service *)

Module ServiceFacts.
Import Service.

Lemma map_inl_inj {A B : Type} (l l' : list A) :
  map (@inl A B) l = map (@inl A B) l' -> l = l'.
Proof.
  revert l'. induction l as [|a l IH]; intros [|a' l'] H;
    cbn [map] in H; try discriminate; [reflexivity|].
  injection H as -> H. f_equal. exact (IH _ H).
Qed.

(** The loop succeeds exactly when no read raises and every line that is
    not blank is accepted; it then returns the values in order. *)
Lemma load_lines_spec {json : Type} (json_loads : str -> json + str)
      lines broken : forall json_list content,
  load_lines json_loads lines broken json_list = inl content
  <-> broken = None
      /\ exists vs, content = json_list ++ vs
                    /\ map json_loads (filter nonblank lines) = map inl vs.
Proof.
  induction lines as [|line r IH]; intros acc content;
    cbn [load_lines filter map].
  - destruct broken as [e|].
    + split; [discriminate|]. intros [H _]. discriminate.
    + split.
      * intros H. injection H as <-. split; [reflexivity|].
        exists []. split; [symmetry; apply app_nil_r|reflexivity].
      * intros [_ [vs [-> H]]]. destruct vs; [|discriminate].
        rewrite app_nil_r. reflexivity.
  - fold (nonblank line). destruct (nonblank line); [|apply IH].
    cbn [map]. destruct (json_loads line) as [v|e].
    + rewrite IH. split.
      * intros [Hb [vs [-> H]]]. split; [exact Hb|].
        exists (v :: vs). rewrite <- app_assoc. split; [reflexivity|].
        cbn [map]. rewrite H. reflexivity.
      * intros [Hb [vs [-> H]]]. split; [exact Hb|].
        destruct vs as [|v' vs]; [discriminate|].
        cbn [map] in H. injection H as <- H.
        exists vs. rewrite <- app_assoc. split; [reflexivity|exact H].
    + split; [discriminate|]. intros [_ [vs [_ H]]].
      destruct vs; discriminate.
Qed.

Lemma snoc_neq {A : Type} (l : list A) x : l ++ [x] <> l.
Proof.
  intros E. apply (f_equal (@length A)) in E.
  rewrite length_app in E. cbn [length] in E. lia.
Qed.

(** A crawl never answers with the codes of the two guards. *)
Lemma crawl_status {json : Type} (json_loads : str -> json + str)
      executable subprocess_run output_file render_error cutoff :
  let c := status (crawl json_loads executable subprocess_run output_file
                         render_error cutoff) in
  c = 200%Z \/ c = 500%Z \/ c = 504%Z.
Proof.
  cbv zeta. unfold crawl.
  destruct (subprocess_run (cmd executable cutoff)) as [|e|rc stderr];
    cbn [status]; try tauto.
  destruct (negb (rc =? 0)%Z); cbn [status]; try tauto.
  destruct output_file as [e|lines broken]; cbn [status]; try tauto.
  destruct (load_lines json_loads lines broken []) as [l|e];
    cbn [status]; [|tauto].
  destruct (render_error l); cbn [status]; tauto.
Qed.

End ServiceFacts.

(** X21: [scrape] answers with the list of records exactly when the cutoff
    is a date, no crawl is running, the crawl process returns code 0, the
    output file opens and is read to its end, [json.loads] accepts every
    line that is not blank, and the list of their values can be rendered;
    the list then holds the values of these lines, in the order of the
    file. *)
Theorem scrape_success
        (json : Type) (json_loads : str -> json + str)
        (fromisoformat : str -> option date) (executable : str)
        (subprocess_run : list str -> Service.proc_outcome)
        (output_file : Service.read_outcome)
        (render_error : list json -> option str)
        (cutoff : str) (st : Service.State) (content : list json) :
  fst (Service.scrape json_loads fromisoformat executable subprocess_run
                      output_file render_error cutoff st)
  = Service.JSONResponse content
  <-> fromisoformat cutoff <> None
      /\ Service.locked st = false
      /\ render_error content = None
      /\ exists stderr lines,
           subprocess_run (Service.cmd executable cutoff)
           = Service.proc_completed 0 stderr
           /\ output_file = Service.opened lines None
           /\ map json_loads (filter Service.nonblank lines)
              = map inl content.
Proof.
  unfold Service.scrape.
  destruct (fromisoformat cutoff) as [d|]; cbn [fst].
  2:{ split; [discriminate|]. intros [H _]. contradiction. }
  destruct (Service.locked st); cbn [fst].
  1:{ split; [discriminate|]. intros [_ [H _]]. discriminate. }
  unfold Service.crawl.
  destruct (subprocess_run (Service.cmd executable cutoff))
    as [|e|rc stderr].
  1,2: split; [discriminate|]; intros (_ & _ & _ & se & ls & H & _);
       discriminate.
  destruct (Z.eqb_spec rc 0) as [->|Hrc]; cbn [negb].
  2:{ split; [discriminate|]. intros (_ & _ & _ & se & ls & H & _).
      injection H as H _. contradiction. }
  destruct output_file as [e|lines broken].
  1:{ split; [discriminate|]. intros (_ & _ & _ & se & ls & _ & H & _).
      discriminate. }
  destruct (Service.load_lines json_loads lines broken []) as [l|e] eqn:E.
  - apply ServiceFacts.load_lines_spec in E.
    destruct E as [Hb [vs [Hl Hvs]]]. subst broken l. cbn [app]. split.
    + destruct (render_error vs) as [e|] eqn:Hr; [discriminate|].
      intros H. injection H as <-.
      split; [discriminate|]. split; [reflexivity|]. split; [exact Hr|].
      exists stderr, lines. repeat split. exact Hvs.
    + intros (_ & _ & Hr & se & ls & _ & H & Hc). injection H as <-.
      rewrite Hvs in Hc. apply ServiceFacts.map_inl_inj in Hc.
      rewrite Hc, Hr. reflexivity.
  - split; [discriminate|].
    intros (_ & _ & _ & se & ls & _ & H & Hc). injection H as H1 H2.
    subst ls broken.
    assert (Hl : Service.load_lines json_loads lines None [] = inl content).
    { apply ServiceFacts.load_lines_spec. split; [reflexivity|].
      exists content. split; [reflexivity|exact Hc]. }
    rewrite E in Hl. discriminate.
Qed.

(** X22: the two guards of [scrape].  It answers 422 exactly when the
    cutoff is no date, also while a crawl is running; it answers 409
    exactly when the cutoff is a date and a crawl is running.  In these
    two cases, and in no other, it leaves everything as it was; otherwise
    it hands exactly one command to [subprocess.run], the one that carries
    the cutoff.  The lock is never left held. *)
Theorem scrape_guards
        (json : Type) (json_loads : str -> json + str)
        (fromisoformat : str -> option date) (executable : str)
        (subprocess_run : list str -> Service.proc_outcome)
        (output_file : Service.read_outcome)
        (render_error : list json -> option str)
        (cutoff : str) (st : Service.State) :
  let out := Service.scrape json_loads fromisoformat executable subprocess_run
                            output_file render_error cutoff st in
  (Service.status (fst out) = 422%Z <-> fromisoformat cutoff = None)
  /\ (Service.status (fst out) = 409%Z
      <-> fromisoformat cutoff <> None /\ Service.locked st = true)
  /\ (snd out = st
      <-> fromisoformat cutoff = None \/ Service.locked st = true)
  /\ (snd out <> st ->
      Service.attempted (snd out)
      = Service.attempted st ++ [Service.cmd executable cutoff])
  /\ Service.locked (snd out) = Service.locked st.
Proof.
  cbv zeta. unfold Service.scrape.
  pose proof (ServiceFacts.crawl_status json_loads executable subprocess_run
                                        output_file render_error cutoff)
    as Hc.
  cbv zeta in Hc.
  destruct (fromisoformat cutoff) as [d|]; cbn [fst snd Service.status].
  2:{ split; [split; reflexivity|].
      split; [split; [discriminate|intros [H _]; contradiction]|].
      split; [split; [left; reflexivity|reflexivity]|].
      split; [intros H; contradiction|reflexivity]. }
  destruct (Service.locked st) eqn:Hl; cbn [fst snd Service.status].
  - split; [split; discriminate|].
    split; [split; [split; [discriminate|reflexivity]|reflexivity]|].
    split; [split; [right; reflexivity|reflexivity]|].
    split; [intros H; contradiction|exact Hl].
  - split; [split; [lia|discriminate]|].
    split; [split; [lia|intros [_ H]; discriminate]|].
    split; [split|].
    + intros H. exfalso. destruct st as [lk att].
      injection H as _ H. exact (@ServiceFacts.snoc_neq _ _ _ H).
    + intros [H|H]; discriminate.
    + split; [intros _; reflexivity|reflexivity].
Qed.

(** X23: when the crawl process returns a code other than 0, [scrape]
    answers 500 with the trimmed error output cut to 4000 characters
    after "Scrapy failed: "; the output file plays no role, so the records
    of an earlier crawl are never served. *)
Theorem scrape_crawl_failed
        (json : Type) (json_loads : str -> json + str)
        (fromisoformat : str -> option date) (executable : str)
        (subprocess_run : list str -> Service.proc_outcome)
        (output_file : Service.read_outcome)
        (render_error : list json -> option str)
        (cutoff : str) (st : Service.State)
        (returncode : Z) (stderr : option str) :
  fromisoformat cutoff <> None ->
  Service.locked st = false ->
  subprocess_run (Service.cmd executable cutoff)
  = Service.proc_completed returncode stderr ->
  returncode <> 0%Z ->
  exists err,
    fst (Service.scrape json_loads fromisoformat executable subprocess_run
                        output_file render_error cutoff st)
    = Service.HTTPException json 500 (lit "Scrapy failed: " ++ err)
    /\ err = firstn 4000 (PyStr.strip (match stderr with
                                       | Some e => e
                                       | None => []
                                       end))
    /\ length err <= 4000.
Proof.
  intros Hd Hl Hp Hrc. unfold Service.scrape.
  destruct (fromisoformat cutoff) as [d|]; [|contradiction].
  rewrite Hl. cbn [fst]. unfold Service.crawl. rewrite Hp.
  destruct (Z.eqb_spec returncode 0) as [E|_]; [contradiction|].
  cbn [negb]. eexists. split; [reflexivity|]. split.
  - destruct stderr as [[|c e]|]; reflexivity.
  - rewrite length_firstn. lia.
Qed.

Lemma scrape_crawl_failed_witness :
  fst (Service.scrape SampleService.loads SampleService.iso
                      SampleService.python
                      (fun _ => Service.proc_completed
                                  2 (Some (lit " no such spider ")))
                      (Service.opened [lit "{}"] None) (fun _ => None)
                      (lit "2025-01-01") SampleService.idle)
  = Service.HTTPException str 500 (lit "Scrapy failed: no such spider").
Proof.
  destruct (@scrape_crawl_failed
              str SampleService.loads SampleService.iso SampleService.python
              (fun _ => Service.proc_completed 2 (Some (lit " no such spider ")))
              (Service.opened [lit "{}"] None) (fun _ => None)
              (lit "2025-01-01") SampleService.idle
              2%Z (Some (lit " no such spider ")))
    as (err & Hout & Herr & _).
  - discriminate.
  - reflexivity.
  - reflexivity.
  - discriminate.
  - rewrite Hout, Herr. vm_compute. reflexivity.
Defined.

(** ** Where the characters of the normalised text come from *)

Module CharFacts.
Import Scan.

(** A character of the result of a substitution is a character of the
    text, or comes from the replacement of a match found in the text. *)
Lemma In_sub_skip_at m x s : forall k,
  In x (sub_skip m k s) ->
  In x s \/ exists p t n rep, s = p ++ t /\ m t = Some (n, rep) /\ In x rep.
Proof.
  induction s as [|c r IH]; intros k H; cbn [sub_skip] in H; [destruct H|].
  assert (Hrec : forall k', In x (sub_skip m k' r) ->
            In x (c :: r)
            \/ exists p t n rep,
                c :: r = p ++ t /\ m t = Some (n, rep) /\ In x rep).
  { intros k' Hk. destruct (IH k' Hk) as [Hin|(p & t & n & rep & -> & Hm & Hx)].
    - left. right. exact Hin.
    - right. exists (c :: p), t, n, rep. repeat split; assumption. }
  destruct k as [|k]; [|exact (Hrec _ H)].
  destruct (m (c :: r)) as [[[|n] rep]|] eqn:E.
  - destruct H as [<-|H]; [left; left; reflexivity|exact (Hrec _ H)].
  - apply in_app_or in H. destruct H as [H|H]; [|exact (Hrec _ H)].
    right. exists [], (c :: r), (S n), rep. repeat split; assumption.
  - destruct H as [<-|H]; [left; left; reflexivity|exact (Hrec _ H)].
Qed.

Lemma In_strip x s : In x (PyStr.strip s) -> In x s.
Proof.
  unfold PyStr.strip. intros H.
  destruct (NormalFacts.rstrip_prefix (PyStr.lstrip s)) as [t Et].
  destruct (NormalFacts.lstrip_suffix s) as [p Ep].
  rewrite Ep, Et. apply in_or_app. right. apply in_or_app. left. exact H.
Qed.

(** A substitution whose replacements are empty brings in nothing. *)
Lemma In_sub_erasing m x s :
  (forall t n rep, m t = Some (n, rep) -> rep = []) ->
  In x (sub m s) -> In x s.
Proof.
  intros Hm H. destruct (In_sub_skip_at m x s 0 H)
    as [Hin|(p & t & n & rep & _ & Ht & Hx)]; [exact Hin|].
  rewrite (Hm _ _ _ Ht) in Hx. destruct Hx.
Qed.

Lemma nbsp_matcher_erases t n rep :
  nbsp_matcher t = Some (n, rep) -> rep = [].
Proof.
  unfold nbsp_matcher, replace_matcher.
  destruct (PyStr.startswith t NBSP); [|discriminate].
  intros H. injection H as _ <-. reflexivity.
Qed.

End CharFacts.

(** X24: [to_plain_text] brings in no character of its own: every
    character of the text it returns occurs in the input, except that a
    space can stand for a tab of the input. *)
Theorem to_plain_text_chars (remove_tags : str -> str) (html : str)
        (c : char) :
  deletes_only remove_tags ->
  In c (to_plain_text remove_tags html) ->
  In c html \/ (c = PyStr.SP /\ In PyStr.TAB html).
Proof.
  intros Hdel.
  rewrite (TextFacts.to_plain_text_plain_steps _ Hdel).
  unfold plain_steps, finish. intros H.
  assert (Hsrc : forall x,
             In x (PyStr.strip (Scan.sub nbsp_matcher (remove_tags html))) ->
             In x html).
  { intros x Hx. apply CharFacts.In_strip in Hx.
    apply (CharFacts.In_sub_erasing _ _ _ CharFacts.nbsp_matcher_erases) in Hx.
    exact (@SubseqFacts.subseq_In _ _ x (Hdel html) Hx). }
  assert (Hsp : forall x,
             In x (Scan.sub hspace_matcher
                     (PyStr.strip (Scan.sub nbsp_matcher
                                            (remove_tags html)))) ->
             In x html \/ (x = PyStr.SP /\ In PyStr.TAB html)).
  { intros x Hx.
    destruct (CharFacts.In_sub_skip_at _ _ _ 0 Hx)
      as [Hin|(p & t & n & rep & Es & Ht & Hr)]; [left; exact (Hsrc _ Hin)|].
    rewrite (NormalFacts.hspace_matcher_rep _ Ht) in Hr.
    destruct Hr as [<-|[]].
    destruct t as [|d r]; [discriminate|].
    destruct (hspace d) eqn:Hd.
    - assert (Hdin : In d html).
      { apply Hsrc. rewrite Es. apply in_or_app. right. left. reflexivity. }
      destruct (ShapeFacts.hspace_cases _ Hd) as [->| ->].
      + left. exact Hdin.
      + right. split; [reflexivity|exact Hdin].
    - rewrite (@NormalFacts.hspace_matcher_other d r Hd) in Ht. discriminate. }
  destruct (CharFacts.In_sub_skip_at _ _ _ 0 H)
    as [Hin|(p & t & n & rep & Es & Ht & Hr)]; [exact (Hsp _ Hin)|].
  rewrite (NormalFacts.newlines_matcher_rep _ Ht) in Hr.
  assert (Hc : c = PyStr.NL) by (destruct Hr as [<-|[<-|[]]]; reflexivity).
  subst c.
  destruct t as [|d r]; [discriminate|].
  destruct (N.eq_dec d PyStr.NL) as [->|Hd].
  - apply Hsp. rewrite Es. apply in_or_app. right. left. reflexivity.
  - rewrite (@NormalFacts.newlines_matcher_other d r Hd) in Ht. discriminate.
Qed.

Lemma to_plain_text_chars_witness :
  In PyStr.SP sample_html \/ (PyStr.SP = PyStr.SP /\ In PyStr.TAB sample_html).
Proof.
  apply (@to_plain_text_chars W3lib24.remove_tags sample_html PyStr.SP
                              SubseqFacts.remove_tags_deletes).
  vm_compute. tauto.
Defined.

(** ** Written dates are read back *)

Section WrittenDates.

Variable decimal : char -> option N.

Let A := ascii_first decimal.

Import Strptime.

(** *** Digits *)

Lemma isdigit_cases c :
  isdigit c ->
  In c [48; 49; 50; 51; 52; 53; 54; 55; 56; 57]%N.
Proof. intros (k & Hk & ->). cbn [In]. lia. Qed.

Lemma digit_isdigit n : isdigit (Date.digit n).
Proof.
  unfold Date.digit, isdigit.
  pose proof (Z.mod_pos_bound n 10 ltac:(lia)) as Hb.
  exists (Z.to_N (n mod 10)). split; [lia|lia].
Qed.

Lemma digit_value n : A (Date.digit n) = Some (Z.to_N (n mod 10)).
Proof.
  unfold A, ascii_first, ascii_decimal, Date.digit.
  pose proof (Z.mod_pos_bound n 10 ltac:(lia)) as Hb.
  destruct (N.ltb_spec (Z.to_N (48 + n mod 10)) 128); [|lia].
  destruct (N.leb_spec 48 (Z.to_N (48 + n mod 10))); [|lia].
  destruct (N.leb_spec (Z.to_N (48 + n mod 10)) 57); [|lia].
  cbn [andb]. f_equal. lia.
Qed.

Ltac by_digit H :=
  apply isdigit_cases in H; cbn [In] in H;
  repeat (destruct H as [<-|H]; [reflexivity|]); destruct H.

Lemma digit_not_space c : isdigit c -> PyStr.is_space c = false.
Proof. intros H. by_digit H. Qed.

Lemma digit_not_comma c : isdigit c -> N.eqb COMMA c = false.
Proof. intros H. by_digit H. Qed.

Lemma digit_decimal c : isdigit c -> is_decimal A c = true.
Proof. intros H. by_digit H. Qed.

Lemma digit_no_suffix c b t : isdigit c -> ordinal_suffix (c :: b :: t) = false.
Proof. intros H. by_digit H. Qed.

(** *** The steps of a match *)

Lemma option_eta {T : Type} (o : option T) :
  match o with Some b => Some b | None => None end = o.
Proof. destruct o; reflexivity. Qed.

Lemma space_step rest g s :
  starts_nonspace s ->
  regex_match A (Dir_space :: rest) g (PyStr.SP :: s)
  = regex_match A rest g s.
Proof.
  destruct s as [|c r]; [intros []|]. intros Hc. cbn in Hc.
  cbn [regex_match candidates Scan.run].
  change (PyStr.is_space PyStr.SP) with true. cbn iota. rewrite Hc.
  cbn [drop_down skipn map first_some]. apply option_eta.
Qed.

Lemma space_fails rest g s :
  starts_nonspace s ->
  regex_match A (Dir_space :: rest) g s = None.
Proof.
  destruct s as [|c r]; [intros []|]. intros Hc. cbn in Hc.
  cbn [regex_match candidates Scan.run]. rewrite Hc. reflexivity.
Qed.

Lemma starts_nonspace_app s t : starts_nonspace s -> starts_nonspace (s ++ t).
Proof. destruct s; [intros []|intros H; exact H]. Qed.

Lemma first_some_none {T U : Type} (f : T -> option U) l :
  (forall x, In x l -> f x = None) -> first_some f l = None.
Proof.
  induction l as [|a l IH]; intros H; cbn [first_some]; [reflexivity|].
  rewrite (H a) by (left; reflexivity).
  apply IH. intros x Hx. apply H. right. exact Hx.
Qed.

(** *** The days *)

Lemma days_ok : Forall (day_ok A) days31.
Proof.
  unfold days31.
  repeat (constructor;
          [split; [|split];
           [intros g r; vm_compute; reflexivity
           |intros g r; vm_compute; reflexivity
           |vm_compute; reflexivity]|]).
  constructor.
Qed.

Lemma day_in_range dd : (1 <= dd <= 31)%Z -> In dd days31.
Proof. intros H. unfold days31. cbn [In]. lia. Qed.

Lemma day_facts dd : (1 <= dd <= 31)%Z -> day_ok A dd.
Proof.
  intros H. apply (proj1 (Forall_forall _ _) days_ok). apply day_in_range.
  exact H.
Qed.

(** *** The months *)

Lemma months_ok : Forall (month_ok A) months12.
Proof.
  unfold months12.
  repeat (constructor;
          [repeat split; try (intros; vm_compute; reflexivity)|]).
  constructor.
Qed.

Lemma month_facts m : (1 <= m <= 12)%Z -> month_ok A m.
Proof.
  intros H. apply (proj1 (Forall_forall _ _) months_ok).
  unfold months12. cbn [In]. lia.
Qed.

(** *** One directive after the other *)

Lemma day_candidates_split dd g r :
  (1 <= dd <= 31)%Z ->
  exists more,
    candidates A Dir_d g (day_text dd ++ PyStr.SP :: r)
    = (mkfound (Some (day_text dd)) (grp_b g) (grp_B g) (grp_Y g),
       PyStr.SP :: r) :: more
    /\ forall rest p, In p more ->
                      regex_match A (Dir_space :: rest) (fst p) (snd p) = None.
Proof.
  intros Hd. destruct (day_facts Hd) as (H1 & H2 & _).
  specialize (H1 g r). specialize (H2 g r).
  destruct (candidates A Dir_d g (day_text dd ++ PyStr.SP :: r))
    as [|x more]; [discriminate|].
  cbn [hd_error] in H1. injection H1 as ->. cbn [tl] in H2.
  exists more. split; [reflexivity|].
  intros rest [g' s'] Hp. rewrite forallb_forall in H2.
  specialize (H2 _ Hp). cbn [fst snd] in *.
  destruct s' as [|c0 t]; [discriminate|].
  apply space_fails. cbn. apply negb_true_iff. exact H2.
Qed.

Lemma day_then_space dd rest g s :
  (1 <= dd <= 31)%Z ->
  starts_nonspace s ->
  regex_match A (Dir_d :: Dir_space :: rest) g (day_text dd ++ PyStr.SP :: s)
  = regex_match A rest
                (mkfound (Some (day_text dd)) (grp_b g) (grp_B g) (grp_Y g))
                s.
Proof.
  intros Hd Hs.
  destruct (day_candidates_split g s Hd) as (more & E & Hmore).
  change (regex_match A (Dir_d :: Dir_space :: rest) g
                      (day_text dd ++ PyStr.SP :: s))
    with (first_some (fun '(g', r') => regex_match A (Dir_space :: rest) g' r')
                     (candidates A Dir_d g (day_text dd ++ PyStr.SP :: s))).
  rewrite E. cbn [first_some]. rewrite space_step by exact Hs.
  destruct (regex_match A rest _ s) as [b|]; [reflexivity|].
  apply first_some_none. intros [g' s'] Hp.
  exact (Hmore rest _ Hp).
Qed.

Lemma day_last dd rest g r b :
  (1 <= dd <= 31)%Z ->
  regex_match A rest
              (mkfound (Some (day_text dd)) (grp_b g) (grp_B g) (grp_Y g))
              (PyStr.SP :: r) = Some b ->
  regex_match A (Dir_d :: rest) g (day_text dd ++ PyStr.SP :: r) = Some b.
Proof.
  intros Hd Hb.
  destruct (day_candidates_split g r Hd) as (more & E & _).
  change (regex_match A (Dir_d :: rest) g (day_text dd ++ PyStr.SP :: r))
    with (first_some (fun '(g', r') => regex_match A rest g' r')
                     (candidates A Dir_d g (day_text dd ++ PyStr.SP :: r))).
  rewrite E. cbn [first_some]. rewrite Hb. reflexivity.
Qed.

Lemma month_B_step m rest g r :
  (1 <= m <= 12)%Z ->
  regex_match A (Dir_B :: rest) g (month_name m ++ PyStr.SP :: r)
  = regex_match A rest
                (mkfound (grp_d g) (grp_b g) (Some (month_name m)) (grp_Y g))
                (PyStr.SP :: r).
Proof.
  intros Hm. destruct (month_facts Hm) as (H & _).
  change (regex_match A (Dir_B :: rest) g (month_name m ++ PyStr.SP :: r))
    with (first_some (fun '(g', r') => regex_match A rest g' r')
                     (candidates A Dir_B g (month_name m ++ PyStr.SP :: r))).
  rewrite H. cbn [first_some]. apply option_eta.
Qed.

Lemma month_b_step m rest g r :
  (1 <= m <= 12)%Z ->
  regex_match A (Dir_b :: rest) g (month_name m ++ PyStr.SP :: r)
  = regex_match A rest
                (mkfound (grp_d g) (Some (firstn 3 (month_name m))) (grp_B g)
                         (grp_Y g))
                (skipn 3 (month_name m) ++ PyStr.SP :: r).
Proof.
  intros Hm. destruct (month_facts Hm) as (_ & H & _).
  change (regex_match A (Dir_b :: rest) g (month_name m ++ PyStr.SP :: r))
    with (first_some (fun '(g', r') => regex_match A rest g' r')
                     (candidates A Dir_b g (month_name m ++ PyStr.SP :: r))).
  rewrite H. cbn [first_some]. apply option_eta.
Qed.

Lemma day_on_month m rest g r :
  (1 <= m <= 12)%Z ->
  regex_match A (Dir_d :: rest) g (month_name m ++ PyStr.SP :: r) = None.
Proof.
  intros Hm. destruct (month_facts Hm) as (_ & _ & H & _).
  change (regex_match A (Dir_d :: rest) g (month_name m ++ PyStr.SP :: r))
    with (first_some (fun '(g', r') => regex_match A rest g' r')
                     (candidates A Dir_d g (month_name m ++ PyStr.SP :: r))).
  rewrite H. reflexivity.
Qed.

(** *** The year *)

Lemma year_step g y :
  regex_match A [Dir_Y] g (Date.pad4 y)
  = Some (mkfound (grp_d g) (grp_b g) (grp_B g) (Some (Date.pad4 y)), []).
Proof.
  unfold Date.pad4. cbn [regex_match candidates year_candidates].
  rewrite !(digit_decimal (digit_isdigit _)). reflexivity.
Qed.

Lemma tail_step g y :
  regex_match A [Dir_space; Dir_Y] g (PyStr.SP :: Date.pad4 y)
  = Some (mkfound (grp_d g) (grp_b g) (grp_B g) (Some (Date.pad4 y)), []).
Proof.
  rewrite <- year_step. apply space_step.
  cbn. apply digit_not_space. apply digit_isdigit.
Qed.

Lemma year_value y :
  (0 <= y <= 9999)%Z -> int_group A (Date.pad4 y) = Some y.
Proof.
  intros Hy. unfold int_group.
  assert (Hs : PyStr.strip (Date.pad4 y) = Date.pad4 y).
  { apply NormalFacts.strip_id.
    - cbn. apply digit_not_space. apply digit_isdigit.
    - unfold Normal.last_ok. cbn. apply digit_not_space. apply digit_isdigit. }
  rewrite Hs. unfold Date.pad4. cbn [int_digits].
  rewrite !digit_value. cbn [int_digits]. f_equal.
  pose proof (Z.mod_pos_bound (y / 1000) 10 ltac:(lia)).
  pose proof (Z.mod_pos_bound (y / 100) 10 ltac:(lia)).
  pose proof (Z.mod_pos_bound (y / 10) 10 ltac:(lia)).
  pose proof (Z.mod_pos_bound y 10 ltac:(lia)).
  rewrite !Z2N.id by lia.
  Z.to_euclidean_division_equations. lia.
Qed.

(** *** The four formats on the two ways of writing *)

Lemma convert_groups dd y gb gB m :
  (1 <= dd <= 31)%Z -> (0 <= y <= 9999)%Z ->
  month_of (mkfound (Some (day_text dd)) gb gB (Some (Date.pad4 y))) = Some m ->
  convert A (mkfound (Some (day_text dd)) gb gB (Some (Date.pad4 y)))
  = Date.new y m dd.
Proof.
  intros Hd Hy Hm. destruct (day_facts Hd) as (_ & _ & Hint).
  unfold convert. rewrite Hm. cbn [grp_Y grp_d].
  rewrite (year_value Hy), Hint. reflexivity.
Qed.

(** Day first, full month name. *)
Lemma long_full dd m y :
  (1 <= dd <= 31)%Z -> (1 <= m <= 12)%Z -> (0 <= y <= 9999)%Z ->
  strptime_date A (day_text dd ++ PyStr.SP :: month_name m
                            ++ PyStr.SP :: Date.pad4 y)
                [Dir_d; Dir_space; Dir_B; Dir_space; Dir_Y]
  = Date.new y m dd.
Proof.
  intros Hd Hm Hy. destruct (month_facts Hm) as (_ & _ & _ & HB & _ & _ & Hh & _).
  unfold strptime_date.
  rewrite day_then_space by (try exact Hd; apply starts_nonspace_app, Hh).
  rewrite month_B_step by exact Hm. rewrite tail_step.
  cbn [grp_d grp_b grp_B grp_Y no_group].
  apply convert_groups; try assumption. apply HB.
Qed.

(** Day first, abbreviated month name: only May is its own
    abbreviation. *)
Lemma long_abbr dd m y :
  (1 <= dd <= 31)%Z -> (1 <= m <= 12)%Z -> (0 <= y <= 9999)%Z ->
  strptime_date A (day_text dd ++ PyStr.SP :: month_name m
                            ++ PyStr.SP :: Date.pad4 y)
                [Dir_d; Dir_space; Dir_b; Dir_space; Dir_Y]
  = if (m =? 5)%Z then Date.new y m dd else None.
Proof.
  intros Hd Hm Hy.
  destruct (month_facts Hm) as (_ & _ & _ & _ & Hb & _ & Hh & Hrest).
  unfold strptime_date.
  rewrite day_then_space by (try exact Hd; apply starts_nonspace_app, Hh).
  rewrite month_b_step by exact Hm.
  destruct (m =? 5)%Z.
  - rewrite Hrest. cbn [app]. rewrite tail_step.
    cbn [grp_d grp_b grp_B grp_Y no_group].
    apply convert_groups; try assumption. apply Hb.
  - rewrite space_fails by (apply starts_nonspace_app, Hrest). reflexivity.
Qed.

(** Month first: the two formats that start with the day fail. *)
Lemma us_day_first dd m y rest :
  (1 <= m <= 12)%Z ->
  strptime_date A (month_name m ++ PyStr.SP :: day_text dd
                              ++ PyStr.SP :: Date.pad4 y)
                (Dir_d :: rest)
  = None.
Proof.
  intros Hm. unfold strptime_date. rewrite day_on_month by exact Hm.
  reflexivity.
Qed.

Lemma day_text_starts dd t : starts_nonspace (day_text dd ++ t).
Proof.
  unfold day_text. destruct (dd <? 10)%Z; cbn;
    apply digit_not_space, digit_isdigit.
Qed.

Lemma us_full dd m y :
  (1 <= dd <= 31)%Z -> (1 <= m <= 12)%Z -> (0 <= y <= 9999)%Z ->
  strptime_date A (month_name m ++ PyStr.SP :: day_text dd
                              ++ PyStr.SP :: Date.pad4 y)
                [Dir_B; Dir_space; Dir_d; Dir_space; Dir_Y]
  = Date.new y m dd.
Proof.
  intros Hd Hm Hy. destruct (month_facts Hm) as (_ & _ & _ & HB & _).
  unfold strptime_date.
  rewrite month_B_step by exact Hm.
  rewrite space_step by apply day_text_starts.
  rewrite (day_last _ _ _ Hd (tail_step _ y)).
  cbn [grp_d grp_b grp_B grp_Y no_group].
  apply convert_groups; try assumption. apply HB.
Qed.

Lemma us_abbr dd m y :
  (1 <= dd <= 31)%Z -> (1 <= m <= 12)%Z -> (0 <= y <= 9999)%Z ->
  strptime_date A (month_name m ++ PyStr.SP :: day_text dd
                              ++ PyStr.SP :: Date.pad4 y)
                [Dir_b; Dir_space; Dir_d; Dir_space; Dir_Y]
  = if (m =? 5)%Z then Date.new y m dd else None.
Proof.
  intros Hd Hm Hy.
  destruct (month_facts Hm) as (_ & _ & _ & _ & Hb & _ & _ & Hrest).
  unfold strptime_date.
  rewrite month_b_step by exact Hm.
  destruct (m =? 5)%Z.
  - rewrite Hrest. cbn [app].
    rewrite space_step by apply day_text_starts.
    rewrite (day_last _ _ _ Hd (tail_step _ y)).
    cbn [grp_d grp_b grp_B grp_Y no_group].
    apply convert_groups; try assumption. apply Hb.
  - rewrite space_fails by (apply starts_nonspace_app, Hrest). reflexivity.
Qed.

(** *** Nothing to trim, no ordinal, and the comma *)

Lemma day_text_digits dd : Forall isdigit (day_text dd).
Proof.
  unfold day_text, Date.pad2. destruct (dd <? 10)%Z;
    repeat constructor; apply digit_isdigit.
Qed.

Lemma pad4_digits y : Forall isdigit (Date.pad4 y).
Proof. unfold Date.pad4. repeat constructor; apply digit_isdigit. Qed.

Lemma last_ok_year p y : Normal.last_ok (p ++ Date.pad4 y).
Proof.
  unfold Date.pad4.
  change (p ++ [Date.digit (y / 1000); Date.digit (y / 100);
                Date.digit (y / 10); Date.digit y])
    with (p ++ [Date.digit (y / 1000); Date.digit (y / 100);
                Date.digit (y / 10)] ++ [Date.digit y]).
  rewrite app_assoc. apply NormalFacts.last_ok_snoc.
  apply digit_not_space, digit_isdigit.
Qed.

Lemma starts_head_ok s : starts_nonspace s -> Normal.head_ok s.
Proof. destruct s; [intros []|intros H; exact H]. Qed.

Lemma separator_no_suffix c t :
  c = PyStr.SP \/ c = COMMA -> ordinal_suffix (c :: t) = false.
Proof. intros [->| ->]; destruct t; reflexivity. Qed.

Lemma ordinals_after_day dd c t :
  c = PyStr.SP \/ c = COMMA ->
  strip_ordinals A (day_text dd ++ c :: t)
  = day_text dd ++ strip_ordinals A (c :: t).
Proof.
  intros Hc.
  assert (Hdec : is_decimal A c = false) by (destruct Hc as [->| ->]; reflexivity).
  unfold strip_ordinals, day_text, Date.pad2.
  destruct (dd <? 10)%Z; cbn [app].
  - apply NormalFacts.copy_at. cbn [ordinal_matcher].
    rewrite (digit_decimal (digit_isdigit _)), Hdec.
    rewrite (separator_no_suffix t Hc). reflexivity.
  - rewrite NormalFacts.copy_at.
    + f_equal. apply NormalFacts.copy_at. cbn [ordinal_matcher].
      rewrite (digit_decimal (digit_isdigit _)), Hdec.
      rewrite (separator_no_suffix t Hc). reflexivity.
    + cbn [ordinal_matcher].
      rewrite !(digit_decimal (digit_isdigit _)).
      rewrite (separator_no_suffix t Hc).
      rewrite (digit_no_suffix _ _ (digit_isdigit _)). reflexivity.
Qed.

Lemma ordinals_inert p t :
  forallb (fun c => negb (is_decimal A c)) p = true ->
  strip_ordinals A (p ++ t) = p ++ strip_ordinals A t.
Proof.
  intros H. unfold strip_ordinals. apply ScanFacts.sub_app_inert.
  intros c u Hc. apply OrdinalFacts.ordinal_matcher_other.
  rewrite forallb_forall in H. apply negb_true_iff. exact (H c Hc).
Qed.

Lemma ordinals_year y : strip_ordinals A (Date.pad4 y) = Date.pad4 y.
Proof.
  unfold strip_ordinals, Date.pad4. apply ScanFacts.stable_sub.
  cbn [Scan.stable ordinal_matcher].
  rewrite !(digit_decimal (digit_isdigit _)).
  rewrite !(digit_no_suffix _ _ (digit_isdigit _)).
  cbn [ordinal_suffix andb]. tauto.
Qed.

Lemma comma_free s :
  forallb (fun c => negb (N.eqb COMMA c)) s = true ->
  Scan.replace (lit ",") [] s = s.
Proof.
  intros H. unfold Scan.replace.
  rewrite <- (app_nil_r s) at 1. rewrite ScanFacts.sub_app_inert.
  - apply app_nil_r.
  - intros c t Hc. rewrite forallb_forall in H. specialize (H c Hc).
    apply negb_true_iff in H. unfold Scan.replace_matcher, PyStr.startswith.
    change (lit ",") with [COMMA]. cbn [PyStr.strip_prefix]. rewrite H.
    reflexivity.
Qed.

Lemma digits_no_comma s :
  Forall isdigit s -> forallb (fun c => negb (N.eqb COMMA c)) s = true.
Proof.
  intros H. apply forallb_forall. intros c Hc.
  rewrite Forall_forall in H. rewrite (digit_not_comma (H c Hc)). reflexivity.
Qed.

Lemma month_letters m :
  (1 <= m <= 12)%Z ->
  forallb (fun c => negb (is_decimal A c)) (month_name m) = true
  /\ forallb (fun c => negb (N.eqb COMMA c)) (month_name m) = true.
Proof.
  intros Hm. destruct (month_facts Hm) as (_ & _ & _ & _ & _ & H & _).
  rewrite forallb_forall in H.
  split; apply forallb_forall; intros c Hc; specialize (H c Hc);
    rewrite !andb_true_iff in H; tauto.
Qed.

(** The day-first writing reaches the formats as it is. *)
Lemma long_normal dd m y :
  (1 <= m <= 12)%Z ->
  Scan.replace (lit ",") []
    (strip_ordinals A
       (PyStr.strip (day_text dd ++ PyStr.SP :: month_name m
                              ++ PyStr.SP :: Date.pad4 y)))
  = day_text dd ++ PyStr.SP :: month_name m ++ PyStr.SP :: Date.pad4 y.
Proof.
  intros Hm. destruct (month_letters Hm) as [Hdec Hcom].
  rewrite NormalFacts.strip_id.
  2:{ apply starts_head_ok, day_text_starts. }
  2:{ change (day_text dd ++ PyStr.SP :: month_name m
                       ++ PyStr.SP :: Date.pad4 y)
        with (day_text dd ++ (PyStr.SP :: month_name m)
                       ++ [PyStr.SP] ++ Date.pad4 y).
      rewrite !app_assoc. apply last_ok_year. }
  rewrite ordinals_after_day by (left; reflexivity).
  change (PyStr.SP :: month_name m ++ PyStr.SP :: Date.pad4 y)
    with ([PyStr.SP] ++ month_name m ++ [PyStr.SP] ++ Date.pad4 y).
  rewrite !ordinals_inert by (exact Hdec || reflexivity).
  rewrite ordinals_year.
  apply comma_free. rewrite !forallb_app.
  apply andb_true_intro; split; [apply digits_no_comma, day_text_digits|].
  apply andb_true_intro; split; [reflexivity|].
  apply andb_true_intro; split; [exact Hcom|].
  apply andb_true_intro; split; [reflexivity|].
  apply digits_no_comma, pad4_digits.
Qed.

(** The month-first writing reaches them without its comma. *)
Lemma us_normal dd m y :
  (1 <= m <= 12)%Z ->
  Scan.replace (lit ",") []
    (strip_ordinals A
       (PyStr.strip (month_name m ++ PyStr.SP :: day_text dd
                                ++ COMMA :: PyStr.SP :: Date.pad4 y)))
  = month_name m ++ PyStr.SP :: day_text dd ++ PyStr.SP :: Date.pad4 y.
Proof.
  intros Hm. destruct (month_letters Hm) as [Hdec Hcom].
  destruct (month_facts Hm) as (_ & _ & _ & _ & _ & _ & Hh & _).
  rewrite NormalFacts.strip_id.
  2:{ apply starts_head_ok, starts_nonspace_app, Hh. }
  2:{ change (month_name m ++ PyStr.SP :: day_text dd
                         ++ COMMA :: PyStr.SP :: Date.pad4 y)
        with (month_name m ++ (PyStr.SP :: day_text dd)
                         ++ [COMMA; PyStr.SP] ++ Date.pad4 y).
      rewrite !app_assoc. apply last_ok_year. }
  change (month_name m ++ PyStr.SP :: day_text dd
                     ++ COMMA :: PyStr.SP :: Date.pad4 y)
    with (month_name m ++ [PyStr.SP] ++ day_text dd
                     ++ COMMA :: PyStr.SP :: Date.pad4 y).
  rewrite !ordinals_inert by (exact Hdec || reflexivity).
  rewrite ordinals_after_day by (right; reflexivity).
  change (COMMA :: PyStr.SP :: Date.pad4 y)
    with ([COMMA; PyStr.SP] ++ Date.pad4 y).
  rewrite ordinals_inert by reflexivity. rewrite ordinals_year.
  unfold Scan.replace.
  change (month_name m ++ [PyStr.SP] ++ day_text dd
                     ++ [COMMA; PyStr.SP] ++ Date.pad4 y)
    with (month_name m ++ [PyStr.SP] ++ day_text dd
                     ++ [COMMA] ++ PyStr.SP :: Date.pad4 y).
  rewrite !app_assoc.
  rewrite <- (app_assoc _ [COMMA] (PyStr.SP :: Date.pad4 y)).
  rewrite ScanFacts.sub_app_inert.
  - rewrite (@ScanFacts.sub_match (Scan.replace_matcher (lit ",") [])
               [COMMA] (PyStr.SP :: Date.pad4 y) []);
      [|discriminate|reflexivity].
    fold (Scan.replace (lit ",") [] (PyStr.SP :: Date.pad4 y)).
    rewrite comma_free.
    + rewrite <- !app_assoc. reflexivity.
    + cbn [forallb]. apply andb_true_intro. split; [reflexivity|].
      apply digits_no_comma, pad4_digits.
  - intros c t Hc.
    assert (Hn : N.eqb COMMA c = false).
    { apply in_app_or in Hc. destruct Hc as [Hc|Hc].
      - apply in_app_or in Hc. destruct Hc as [Hc|[<-|[]]]; [|reflexivity].
        rewrite forallb_forall in Hcom. apply negb_true_iff. exact (Hcom c Hc).
      - pose proof (day_text_digits dd) as Hdig.
        rewrite Forall_forall in Hdig. exact (digit_not_comma (Hdig c Hc)). }
    unfold Scan.replace_matcher, PyStr.startswith.
    change (lit ",") with [COMMA]. cbn [PyStr.strip_prefix]. rewrite Hn.
    reflexivity.
Qed.

Lemma starts_truthy s : starts_nonspace s -> PyStr.truthy s = true.
Proof. destruct s; [intros []|reflexivity]. Qed.

Lemma days_in_month_le y m : (Date.days_in_month y m <= 31)%Z.
Proof.
  unfold Date.days_in_month.
  destruct (m =? 2)%Z; [destruct (Date.is_leap y); lia|].
  destruct ((m =? 4)%Z || (m =? 6)%Z || (m =? 9)%Z || (m =? 11)%Z); lia.
Qed.

(** Both writings of a date of the calendar are read as that date. *)
Lemma written_date_read d :
  Date.new (year d) (month d) (day d) = Some d ->
  parse_date A (long_date d) = Some d /\ parse_date A (us_date d) = Some d.
Proof.
  intros Hnew.
  destruct (DateFacts.new_inv _ _ _ Hnew) as [_ (Hy & Hm & Hd)].
  pose proof (days_in_month_le (year d) (month d)) as Hle.
  assert (Hd31 : (1 <= day d <= 31)%Z) by lia.
  assert (Hy0 : (0 <= year d <= 9999)%Z) by lia.
  destruct (month_facts Hm) as (_ & _ & _ & _ & _ & _ & Hh & _).
  split; unfold parse_date.
  - unfold long_date at 1.
    rewrite starts_truthy by apply day_text_starts. cbn [negb].
    unfold long_date. rewrite (long_normal (day d) (year d) Hm).
    unfold fmts. cbn [first_some].
    rewrite (long_abbr Hd31 Hm Hy0), (long_full Hd31 Hm Hy0), Hnew.
    destruct (month d =? 5)%Z; reflexivity.
  - unfold us_date at 1.
    rewrite starts_truthy by apply starts_nonspace_app, Hh. cbn [negb].
    unfold us_date. rewrite (us_normal (day d) (year d) Hm).
    unfold fmts. cbn [first_some].
    rewrite !(us_day_first (day d) (year d) _ Hm).
    rewrite (us_abbr Hd31 Hm Hy0), (us_full Hd31 Hm Hy0), Hnew.
    destruct (month d =? 5)%Z; reflexivity.
Qed.

End WrittenDates.

(** X25: with a digit table that reads the ASCII digits as usual, every
    date of the calendar (years 1 to 9999), written day first as in
    5 March 2024 or month first with a comma as in March 5, 2024 (full
    English month name, day without padding, year on four digits), is
    parsed to that very date. *)
Theorem parse_date_written (decimal : char -> option N) (d : date) :
  agrees_on_ascii decimal ->
  Date.new (year d) (month d) (day d) = Some d ->
  parse_date decimal (long_date d) = Some d
  /\ parse_date decimal (us_date d) = Some d.
Proof.
  intros Hag Hnew.
  rewrite !(parse_date_ext _ _ (ascii_first_same Hag)).
  apply written_date_read. exact Hnew.
Qed.

Lemma parse_date_written_witness :
  parse_date ascii_decimal (lit "29 February 2024") = Some (mkdate 2024 2 29)
  /\ parse_date ascii_decimal (lit "February 29, 2024")
     = Some (mkdate 2024 2 29).
Proof.
  apply (@parse_date_written ascii_decimal (mkdate 2024 2 29)).
  - intros c _. reflexivity.
  - reflexivity.
Defined.

(** ** The stock quotes *)

Section StocksFacts.

Variable value : Type.
Variable truthy : value -> bool.
Variable format : value -> str.
Variable api_key : str.
Variable client_get : nat -> str -> Stocks.get_outcome value.

(** What the loop adds to the list and to the requests. *)
Lemma loop_adds items : forall acc req,
  let r := Stocks.loop truthy format api_key client_get items acc req in
  snd r
  = req ++ map (fun p => Stocks.url format api_key (snd p))
               (filter (fun p => truthy (snd p)) items)
  /\ exists news,
      fst r = acc ++ news
      /\ length news <= length (filter (fun p => truthy (snd p)) items)
      /\ forall o, In o news ->
           In (Stocks.company o, Stocks.symbol o) items
           /\ truthy (Stocks.symbol o) = true
           /\ exists n,
                client_get n (Stocks.url format api_key (Stocks.symbol o))
                = Stocks.got 200 (Some (Stocks.data o)).
Proof.
  induction items as [|[company symbol] rest IH]; intros acc req; cbv zeta.
  - cbn [Stocks.loop filter map fst snd]. rewrite app_nil_r.
    split; [reflexivity|]. exists []. rewrite app_nil_r.
    split; [reflexivity|]. split; [cbn; lia|]. intros o [].
  - cbn [Stocks.loop filter snd].
    assert (Hkeep : forall acc' req' extra,
               (forall o, In o extra ->
                          o = Stocks.mkOutput company symbol (Stocks.data o)
                          /\ exists n,
                               client_get n (Stocks.url format api_key symbol)
                               = Stocks.got 200 (Some (Stocks.data o))) ->
               length extra <= 1 ->
               acc' = acc ++ extra ->
               req' = req ++ [Stocks.url format api_key symbol] ->
               truthy symbol = true ->
               let r := Stocks.loop truthy format api_key client_get rest
                                    acc' req' in
               snd r
               = req ++ map (fun p => Stocks.url format api_key (snd p))
                            ((company, symbol)
                               :: filter (fun p => truthy (snd p)) rest)
               /\ exists news,
                   fst r = acc ++ news
                   /\ length news
                      <= length ((company, symbol)
                                   :: filter (fun p => truthy (snd p)) rest)
                   /\ forall o, In o news ->
                        In (Stocks.company o, Stocks.symbol o)
                           ((company, symbol) :: rest)
                        /\ truthy (Stocks.symbol o) = true
                        /\ exists n,
                             client_get n
                               (Stocks.url format api_key (Stocks.symbol o))
                             = Stocks.got 200 (Some (Stocks.data o))).
    { intros acc' req' extra Hex Hlen -> -> Ht. cbv zeta.
      destruct (IH (acc ++ extra) (req ++ [Stocks.url format api_key symbol]))
        as [Hreq (news & Hacc & Hn & Hin)].
      split.
      - rewrite Hreq, <- app_assoc. reflexivity.
      - exists (extra ++ news). rewrite Hacc, <- app_assoc.
        split; [reflexivity|]. split.
        + rewrite length_app. cbn [length]. lia.
        + intros o Ho. apply in_app_or in Ho. destruct Ho as [Ho|Ho].
          * destruct (Hex o Ho) as [Eo Hg]. rewrite Eo.
            cbn [Stocks.company Stocks.symbol Stocks.data].
            repeat split; [left; reflexivity|exact Ht|exact Hg].
          * destruct (Hin o Ho) as (H1 & H2 & H3).
            repeat split; [right; exact H1|exact H2|exact H3]. }
    destruct (truthy symbol) eqn:Ht; cbn [negb].
    + destruct (client_get (length req) (Stocks.url format api_key symbol))
        as [|sc json] eqn:Eg.
      * apply (Hkeep _ _ []); auto; [intros o []|now rewrite app_nil_r].
      * destruct (Z.eqb_spec sc 200) as [->|Hsc].
        -- destruct json as [d|].
           ++ apply (Hkeep _ _ [Stocks.mkOutput company symbol d]); auto.
              intros o [<-|[]]. split; [reflexivity|].
              exists (length req). exact Eg.
           ++ apply (Hkeep _ _ []); auto; [intros o []|now rewrite app_nil_r].
        -- apply (Hkeep _ _ []); auto; [intros o []|now rewrite app_nil_r].
    + destruct (IH acc req) as [Hreq (news & Hacc & Hn & Hin)].
      split; [exact Hreq|]. exists news.
      split; [exact Hacc|]. split; [exact Hn|].
      intros o Ho. destruct (Hin o Ho) as (H1 & H2 & H3).
      repeat split; [right; exact H1|exact H2|exact H3].
Qed.

(** The list the loop collects is the list of the quotes that came
    back. *)
Lemma loop_quotes items : forall acc req,
  fst (Stocks.loop truthy format api_key client_get items acc req)
  = acc ++ quotes truthy format api_key client_get (length req) items.
Proof.
  induction items as [|[company symbol] rest IH]; intros acc req;
    cbn [Stocks.loop quotes].
  - rewrite app_nil_r. reflexivity.
  - assert (Hlen : length (req ++ [Stocks.url format api_key symbol])
                   = S (length req))
      by (rewrite length_app; cbn [length]; lia).
    destruct (truthy symbol); cbn [negb]; [|apply IH].
    unfold quote.
    destruct (client_get (length req) (Stocks.url format api_key symbol))
      as [|sc json].
    + rewrite IH, Hlen. reflexivity.
    + destruct (sc =? 200)%Z.
      * destruct json as [d|]; rewrite IH, Hlen.
        -- rewrite <- app_assoc. reflexivity.
        -- reflexivity.
      * rewrite IH, Hlen. destruct json; reflexivity.
Qed.

Lemma quotes_app p : forall n r,
  quotes truthy format api_key client_get n (p ++ r)
  = quotes truthy format api_key client_get n p
    ++ quotes truthy format api_key client_get
              (n + length (filter (fun x => truthy (snd x)) p)) r.
Proof.
  induction p as [|[company symbol] p IH]; intros n r;
    cbn [app quotes filter snd].
  - cbn [length]. rewrite Nat.add_0_r. reflexivity.
  - destruct (truthy symbol).
    + rewrite IH, <- app_assoc. cbn [length].
      rewrite Nat.add_succ_r. reflexivity.
    + apply IH.
Qed.

End StocksFacts.


